(** * Frame compositing and encoder-stability control: a shallow embedding

    The development follows four source units of the repository:

    - [streamComplexityManager]  (class [StreamComplexityManager])
    - [streamStabilizer]         (class [StreamStabilizer])
    - [streamOrchestrator]       (class [StreamOrchestrator])
    - [useStreamStabilizer]      (the React hook)

    JavaScript numbers are modelled as exact rationals ([Q]) where the code
    divides or scales, and as integers ([Z]) where the platform only produces
    integers (element dimensions, pixel channels).  Timer and animation-frame
    handles are [positive]: the HTML standard hands out handles greater than
    zero, so the truthiness tests of the source ([if (this.animationId)])
    coincide with "is not null". *)

From stdpp Require Import base gmap strings.
From Stdlib Require Import ZArith QArith Qround Qminmax Qabs List Lia Lqa.
Import ListNotations.
Open Scope Z_scope.

(** ** Shared browser vocabulary *)

Definition Handle := positive.

(** [a < b] and [a >= b] on numbers, as booleans. *)
Definition Qltb (a b : Q) : bool := negb (Qle_bool b a).
Definition Qgeb (a b : Q) : bool := Qle_bool b a.

(** [0, 1, ..., n-1], the index range of a counting [for] loop. *)
Definition range (n : Z) : list Z := map Z.of_nat (seq 0 (Z.to_nat n)).

(** [lo, lo+1, ..., hi-1]. *)
Definition range_from (lo hi : Z) : list Z := map (fun k => lo + k) (range (hi - lo)).

(** The canvas a monitoring tick was started on: the orchestrator's own output
    canvas, or the element of a registered source. *)
Inductive CanvasRef := OutputCanvas | SourceCanvas (el : nat).

Inductive ComplexityType := noise | movement | dithering | adaptive.

(** [interface ComplexityInjectionOptions]: every field is optional. *)
Record ComplexityInjectionOptions := {
  targetComplexity : option Q;
  complexityType : option ComplexityType;
  enableAnalysis : option bool;
  minComplexityThreshold : option Q;
  maxIntensity : option Q;
  analysisInterval : option Z
}.

Definition noOptions : ComplexityInjectionOptions :=
  {| targetComplexity := None; complexityType := None; enableAnalysis := None;
     minComplexityThreshold := None; maxIntensity := None; analysisInterval := None |}.

(** What a periodic timer runs when it fires. *)
Inductive Task :=
| AnalysisTask (cv : CanvasRef) (opts : ComplexityInjectionOptions)
| BackgroundTask.

(** The event loop's timers: active [setInterval] timers with their period in
    milliseconds, pending [requestAnimationFrame] callbacks, and the next
    handle the platform will hand out. *)
Record Timers := {
  nextHandle : Handle;
  intervals : list (Handle * (Task * Z));
  frames : list Handle
}.

Definition noTimers : Timers := {| nextHandle := 1%positive; intervals := []; frames := [] |}.

Definition setInterval (task : Task) (period : Z) (tm : Timers) : Handle * Timers :=
  (nextHandle tm,
   {| nextHandle := Pos.succ (nextHandle tm);
      intervals := (nextHandle tm, (task, period)) :: intervals tm;
      frames := frames tm |}).

Definition clearInterval (h : Handle) (tm : Timers) : Timers :=
  {| nextHandle := nextHandle tm;
     intervals := filter (fun e => negb (Pos.eqb (fst e) h)) (intervals tm);
     frames := frames tm |}.

Definition requestAnimationFrame (tm : Timers) : Handle * Timers :=
  (nextHandle tm,
   {| nextHandle := Pos.succ (nextHandle tm);
      intervals := intervals tm;
      frames := nextHandle tm :: frames tm |}).

Definition cancelAnimationFrame (h : Handle) (tm : Timers) : Timers :=
  {| nextHandle := nextHandle tm;
     intervals := intervals tm;
     frames := filter (fun f => negb (Pos.eqb f h)) (frames tm) |}.

Definition isAnalysisTask (e : Handle * (Task * Z)) : bool :=
  match fst (snd e) with AnalysisTask _ _ => true | BackgroundTask => false end.

(** The periodic analysis timers that are currently active. *)
Definition analysisTimers (tm : Timers) : list (Handle * (Task * Z)) :=
  filter isAnalysisTask (intervals tm).

(** ** streamComplexityManager *)

Module ComplexityManager.

Record RGBA := { red : Z; green : Z; blue : Z; opacity : Z }.

Definition transparentBlack : RGBA := {| red := 0; green := 0; blue := 0; opacity := 0 |}.

(** [ImageData]: dimensions and the flat channel array, four entries a pixel. *)
Record ImageData := { iwidth : Z; iheight : Z; data : list Z }.

(** One generator call made on the surface by an injection, with its intensity. *)
Inductive Generator := injectNoise | injectMovement | injectDithering.

(** [HTMLCanvasElement] as the manager sees it: its dimensions, whether
    [getContext("2d")] yields a context, the bitmap it reads, and the generator
    calls that have drawn onto it.  The pixels a generator writes depend on
    [Date.now()] and [Math.random()] and are not modelled; a surface is
    unmodified exactly when no generator call is recorded. *)
Record HTMLCanvasElement := {
  width : Z;
  height : Z;
  has2d : bool;
  pixel : Z -> Z -> RGBA;
  overlays : list (Generator * Q)
}.

Definition drawOverlay (g : Generator) (intensity : Q) (cv : HTMLCanvasElement) : HTMLCanvasElement :=
  {| width := width cv; height := height cv; has2d := has2d cv; pixel := pixel cv;
     overlays := overlays cv ++ [(g, intensity)] |}.

Record ComplexityMetrics := {
  spatialComplexity : Q;
  temporalComplexity : Q;
  overallComplexity : Q;
  frameVariance : Q;
  isLowComplexity : bool
}.

(** The fields of [class StreamComplexityManager]. *)
Record Manager := {
  previousFrameData : option ImageData;
  complexityHistory : list Q;
  maxHistorySize : Z;
  isAnalyzing : bool;
  analysisIntervalId : option Handle
}.

Definition initial : Manager :=
  {| previousFrameData := None; complexityHistory := []; maxHistorySize := 30;
     isAnalyzing := false; analysisIntervalId := None |}.

(** [ctx.getImageData(0, 0, sw, sh)]: pixels outside the bitmap read as
    transparent black. *)
Definition readPixel (cv : HTMLCanvasElement) (x y : Z) : RGBA :=
  if (x <? width cv) && (y <? height cv) then pixel cv x y else transparentBlack.

Definition channels (p : RGBA) : list Z := [red p; green p; blue p; opacity p].

Definition getImageData (cv : HTMLCanvasElement) (sw sh : Z) : ImageData :=
  {| iwidth := sw; iheight := sh;
     data := flat_map (fun y => flat_map (fun x => channels (readPixel cv x y)) (range sw))
                      (range sh) |}.

(** [data[i]] as a number. *)
Definition at_ (d : list Z) (i : Z) : Q := inject_Z (nth (Z.to_nat i) d 0).

(** [(data[i] + data[i + 1] + data[i + 2]) / 3] *)
Definition gray (d : list Z) (i : Z) : Q := (at_ d i + at_ d (i + 1) + at_ d (i + 2)) / 3.

(** The indices visited by [for (let i = 0; i < len; i += 4)]. *)
Definition stride4 (len : Z) : list Z := map (fun k => 4 * k) (range ((len + 3) / 4)).

Definition dataLength (img : ImageData) : Z := Z.of_nat (length (data img)).

Section WithSqrt.

(** [Math.sqrt], taken as a parameter. *)
Variable sqrt : Q -> Q.

Definition calculateSpatialComplexity (imageData : ImageData) : Q :=
  let d := data imageData in
  let w := iwidth imageData in
  let h := iheight imageData in
  let '(edgeSum, pixelCount) :=
    fold_left (fun acc y =>
      fold_left (fun (acc : Q * Z) x =>
        let i := (y * w + x) * 4 in
        let center := gray d i in
        let right := gray d (i + 4) in
        let bottom := gray d (i + w * 4) in
        let gradientX := Qabs (right - center) in
        let gradientY := Qabs (bottom - center) in
        let gradient := sqrt (gradientX * gradientX + gradientY * gradientY) in
        ((fst acc + gradient)%Q, snd acc + 1))
      (range_from 1 (w - 1)) acc)
    (range_from 1 (h - 1)) (0%Q, 0) in
  if 0 <? pixelCount then (edgeSum / inject_Z pixelCount / 255)%Q else 0%Q.

Definition calculateTemporalComplexity (st : Manager) (imageData : ImageData) : Q :=
  match previousFrameData st with
  | None => 0%Q
  | Some prev =>
    if negb (iwidth prev =? iwidth imageData) || negb (iheight prev =? iheight imageData)
    then 0%Q
    else
      let currentData := data imageData in
      let previousData := data prev in
      let pixelCount := (inject_Z (dataLength imageData) / 4)%Q in
      let diffSum :=
        fold_left (fun diffSum i =>
          let currentGray := gray currentData i in
          let previousGray := gray previousData i in
          (diffSum + Qabs (currentGray - previousGray))%Q)
        (stride4 (dataLength imageData)) 0%Q in
      (diffSum / pixelCount / 255)%Q
  end.

Definition calculateFrameVariance (imageData : ImageData) : Q :=
  let d := data imageData in
  let pixelCount := (inject_Z (dataLength imageData) / 4)%Q in
  let '(sum, sumSquares) :=
    fold_left (fun (acc : Q * Q) i =>
      let g := gray d i in ((fst acc + g)%Q, (snd acc + g * g)%Q))
    (stride4 (dataLength imageData)) (0%Q, 0%Q) in
  let mean := (sum / pixelCount)%Q in
  let variance := (sumSquares / pixelCount - mean * mean)%Q in
  (variance / (255 * 255))%Q.

(** [complexityHistory.push(x)] followed by a [shift()] when the bound is passed. *)
Definition pushHistory (st : Manager) (x : Q) : list Q :=
  let h := complexityHistory st ++ [x] in
  if maxHistorySize st <? Z.of_nat (length h) then tl h else h.

(** [analyzeFrameComplexity].  [None] stands for the exception [getImageData]
    raises when the sample rectangle is empty or not finite, which is the case
    exactly when the smaller canvas dimension is 0. *)
Definition analyzeFrameComplexity (st : Manager) (canvas : HTMLCanvasElement)
  : option (ComplexityMetrics * Manager) :=
  if negb (has2d canvas) then
    Some ({| spatialComplexity := 0; temporalComplexity := 0; overallComplexity := 0;
             frameVariance := 0; isLowComplexity := true |}, st)
  else
    let sampleSize := 128%Q in
    let scale := (inject_Z (Z.min (width canvas) (height canvas)) / sampleSize)%Q in
    if Qeq_bool scale 0 then None
    else
      let sampleWidth := Qfloor (inject_Z (width canvas) / scale) in
      let sampleHeight := Qfloor (inject_Z (height canvas) / scale) in
      let imageData := getImageData canvas sampleWidth sampleHeight in
      let spatial := calculateSpatialComplexity imageData in
      let temporal := calculateTemporalComplexity st imageData in
      let variance := calculateFrameVariance imageData in
      let overall := ((spatial + temporal) / 2)%Q in
      let isLow := Qltb overall 0.2 in
      Some ({| spatialComplexity := spatial; temporalComplexity := temporal;
               overallComplexity := overall; frameVariance := variance;
               isLowComplexity := isLow |},
            {| previousFrameData := Some imageData;
               complexityHistory := pushHistory st overall;
               maxHistorySize := maxHistorySize st;
               isAnalyzing := isAnalyzing st;
               analysisIntervalId := analysisIntervalId st |}).

(** [applyComplexityInjection]: the [switch] over the injection type. *)
Definition applyComplexityInjection (canvas : HTMLCanvasElement) (type : ComplexityType)
           (intensity : Q) : HTMLCanvasElement :=
  match type with
  | noise => drawOverlay injectNoise intensity canvas
  | movement => drawOverlay injectMovement intensity canvas
  | dithering => drawOverlay injectDithering intensity canvas
  | adaptive =>
    drawOverlay injectDithering (intensity * 0.3)
      (drawOverlay injectMovement (intensity * 0.4)
         (drawOverlay injectNoise (intensity * 0.3) canvas))
  end.

(** [Math.min((targetComplexity - overallComplexity) * 2, maxIntensity)] with
    the defaults of [injectComplexity]'s destructuring. *)
Definition injectionIntensity (options : ComplexityInjectionOptions) (overall : Q) : Q :=
  let target := default 0.3%Q (targetComplexity options) in
  let maxI := default 0.15%Q (maxIntensity options) in
  Qmin ((target - overall) * 2) maxI.

(** [injectComplexity]: the manager and the surface after the call. *)
Definition injectComplexity (st : Manager) (canvas : HTMLCanvasElement)
           (options : ComplexityInjectionOptions) : option (Manager * HTMLCanvasElement) :=
  let type := default adaptive (complexityType options) in
  if negb (has2d canvas) then Some (st, canvas)
  else
    match analyzeFrameComplexity st canvas with
    | None => None
    | Some (metrics, st') =>
      if isLowComplexity metrics then
        let intensity := injectionIntensity options (overallComplexity metrics) in
        if Qltb 0.01 intensity
        then Some (st', applyComplexityInjection canvas type intensity)
        else Some (st', canvas)
      else Some (st', canvas)
    end.

End WithSqrt.

(** [startMonitoring]: a second call while analyzing returns at once. *)
Definition startMonitoring (cv : CanvasRef) (options : ComplexityInjectionOptions)
           (st : Manager) (tm : Timers) : Manager * Timers :=
  if isAnalyzing st then (st, tm)
  else
    let period := default 100 (analysisInterval options) in
    let '(h, tm') := setInterval (AnalysisTask cv options) period tm in
    ({| previousFrameData := previousFrameData st;
        complexityHistory := complexityHistory st;
        maxHistorySize := maxHistorySize st;
        isAnalyzing := true;
        analysisIntervalId := Some h |}, tm').

Definition stopMonitoring (st : Manager) (tm : Timers) : Manager * Timers :=
  match analysisIntervalId st with
  | Some h =>
    ({| previousFrameData := previousFrameData st;
        complexityHistory := complexityHistory st;
        maxHistorySize := maxHistorySize st;
        isAnalyzing := false;
        analysisIntervalId := None |}, clearInterval h tm)
  | None =>
    ({| previousFrameData := previousFrameData st;
        complexityHistory := complexityHistory st;
        maxHistorySize := maxHistorySize st;
        isAnalyzing := false;
        analysisIntervalId := None |}, tm)
  end.

Definition reset (st : Manager) (tm : Timers) : Manager * Timers :=
  let '(st', tm') := stopMonitoring st tm in
  ({| previousFrameData := None;
      complexityHistory := [];
      maxHistorySize := maxHistorySize st';
      isAnalyzing := isAnalyzing st';
      analysisIntervalId := analysisIntervalId st' |}, tm').



End ComplexityManager.

(** *** The noise generator

    [smoothNoise] and [injectNoise], with their pixels.  The hash mixes its
    arguments with 32-bit integer operations and ends with a mask and a
    division; the mixing, whose result the mask receives, is a parameter.
    [Date.now() * 0.001] is the argument [time]. *)

Module Noise.

Import ComplexityManager.

Section WithMix.

(** [h ^ (h >>> 16)] after the two mixing rounds of [hash]. *)
Variable mix : Z -> Z -> Z -> Z.

Definition hash (x y z : Z) : Q :=
  (inject_Z (Z.land (mix x y z) 2147483647) / inject_Z 2147483647)%Q.

Definition smoothstep (t : Q) : Q := (t * t * (3 - 2 * t))%Q.

Definition smoothNoise (x y z : Q) : Q :=
  let intX := Qfloor x in
  let intY := Qfloor y in
  let intZ := Qfloor z in
  let fracX := (x - inject_Z intX)%Q in
  let fracY := (y - inject_Z intY)%Q in
  let fracZ := (z - inject_Z intZ)%Q in
  let c000 := hash intX intY intZ in
  let c001 := hash intX intY (intZ + 1) in
  let c010 := hash intX (intY + 1) intZ in
  let c011 := hash intX (intY + 1) (intZ + 1) in
  let c100 := hash (intX + 1) intY intZ in
  let c101 := hash (intX + 1) intY (intZ + 1) in
  let c110 := hash (intX + 1) (intY + 1) intZ in
  let c111 := hash (intX + 1) (intY + 1) (intZ + 1) in
  let sx := smoothstep fracX in
  let sy := smoothstep fracY in
  let sz := smoothstep fracZ in
  let nx00 := (c000 * (1 - sx) + c100 * sx)%Q in
  let nx01 := (c001 * (1 - sx) + c101 * sx)%Q in
  let nx10 := (c010 * (1 - sx) + c110 * sx)%Q in
  let nx11 := (c011 * (1 - sx) + c111 * sx)%Q in
  let nxy0 := (nx00 * (1 - sy) + nx10 * sy)%Q in
  let nxy1 := (nx01 * (1 - sy) + nx11 * sy)%Q in
  (nxy0 * (1 - sz) + nxy1 * sz)%Q.

(** A number stored into a [Uint8ClampedArray]: rounded to the nearest
    integer, halves to the even one, and clamped to a byte. *)
Definition roundHalfEven (q : Q) : Z :=
  let f := Qfloor q in
  let r := (q - inject_Z f)%Q in
  if Qltb r (1 # 2) then f
  else if Qltb (1 # 2) r then f + 1
  else if Z.even f then f else f + 1.

Definition toUint8Clamp (q : Q) : Z := Z.max 0 (Z.min 255 (roundHalfEven q)).

(** The pixel [injectNoise] computes for [(x, y)]. *)
Definition noisePixel (time intensity : Q) (x y : Z) : RGBA :=
  let noise := (smoothNoise (inject_Z x * 0.1) (inject_Z y * 0.1) time * intensity * 255)%Q in
  {| red := toUint8Clamp noise; green := toUint8Clamp noise; blue := toUint8Clamp noise;
     opacity := toUint8Clamp (inject_Z (Qfloor (intensity * 50))) |}.

(** [injectNoise(ctx, width, height, intensity)] with the canvas's own width
    and height: [putImageData] stores the computed pixels as they are; the
    compositing mode set around the call does not apply to it. *)
Definition injectNoise (time intensity : Q) (cv : HTMLCanvasElement) : HTMLCanvasElement :=
  {| width := width cv; height := height cv; has2d := has2d cv;
     pixel := fun x y =>
       if (0 <=? x) && (x <? width cv) && (0 <=? y) && (y <? height cv)
       then noisePixel time intensity x y
       else pixel cv x y;
     overlays := overlays cv |}.

End WithMix.

End Noise.

(** ** streamStabilizer *)

Module Stabilizer.

(** [MediaStreamTrack.readyState] *)
Inductive TrackState := live | ended.

Definition trackStateName (s : TrackState) : string :=
  match s with live => "live" | ended => "ended" end.

Record MediaStream := {
  id : string;
  active : bool;
  videoTracks : list TrackState;
  audioTracks : list TrackState
}.

Record StreamValidationOptions := {
  minStableFrames : option Z;
  timeoutMs : option Z;
  validateAudio : option bool
}.

Record StreamStabilizationResult := {
  isStable : bool;
  frameCount : Z;
  timeElapsed : Z;
  error : option string
}.

(** The hidden [<video>] element of one validation together with the closure
    variables of its promise: [attached] holds as long as [cleanup()] has not
    run, that is while the timeout is pending and the [timeupdate] listener is
    registered. *)
Record Sink := {
  startTime : Z;
  frames : Z;
  lastFrameTime : Q;
  needed : Z;
  timeoutAfter : Z;
  attached : bool
}.

(** One call of [validateStreamStability]. *)
Record Call := {
  streamId : string;
  controller : nat;
  sink : option Sink;
  resolved : option StreamStabilizationResult;
  returned : bool
}.

(** [class StreamStabilizer]: the map of pending validations, the abort
    controllers whose signal has been aborted, and the calls made so far. *)
Record Validator := {
  pendingValidations : gmap string nat;
  abortedSignals : gset nat;
  nextController : nat;
  calls : list Call
}.

Definition initial : Validator :=
  {| pendingValidations := ∅; abortedSignals := ∅; nextController := 0%nat; calls := [] |}.

Definition failure (tag : string) : StreamStabilizationResult :=
  {| isStable := false; frameCount := 0; timeElapsed := 0; error := Some tag |}.

(** The part of [performValidation] that runs before the promise is built:
    either a result returned at once, or the play-back sink with its timeout. *)
Definition performValidation (now : Z) (stream : MediaStream) (minStable timeout : Z)
           (audio : bool) : StreamStabilizationResult + Sink :=
  if negb (active stream) then inl (failure "Stream is not active")
  else if (length (videoTracks stream) =? 0)%nat then inl (failure "No video tracks found")
  else if audio && (length (audioTracks stream) =? 0)%nat then inl (failure "No audio tracks found")
  else
    match videoTracks stream with
    | ended :: _ => inl (failure ("Video track not live: " +:+ trackStateName ended))
    | _ =>
      inr {| startTime := now; frames := 0; lastFrameTime := 0; needed := minStable;
             timeoutAfter := timeout; attached := true |}
    end.

Definition validateStreamStability (now : Z) (stream : MediaStream)
           (options : StreamValidationOptions) (v : Validator) : Validator :=
  let minStable := default 5 (minStableFrames options) in
  let timeout := default 3000 (timeoutMs options) in
  let audio := default true (validateAudio options) in
  let sid := id stream in
  let abortedNow :=
    match pendingValidations v !! sid with
    | Some c => {[c]} ∪ abortedSignals v
    | None => abortedSignals v
    end in
  let c := nextController v in
  let call :=
    match performValidation now stream minStable timeout audio with
    | inl r => {| streamId := sid; controller := c; sink := None;
                  resolved := Some r; returned := false |}
    | inr s => {| streamId := sid; controller := c; sink := Some s;
                  resolved := None; returned := false |}
    end in
  {| pendingValidations := <[sid := c]> (pendingValidations v);
     abortedSignals := abortedNow;
     nextController := S c;
     calls := calls v ++ [call] |}.

(** [cleanup()] *)
Definition cleanup (s : Sink) : Sink :=
  {| startTime := startTime s; frames := frames s; lastFrameTime := lastFrameTime s;
     needed := needed s; timeoutAfter := timeoutAfter s; attached := false |}.

(** [resolve(r)]: a promise keeps its first resolution. *)
Definition resolve (r : StreamStabilizationResult) (c : Call) (s : Sink) : Call :=
  {| streamId := streamId c; controller := controller c; sink := Some s;
     resolved := match resolved c with Some r0 => Some r0 | None => Some r end;
     returned := returned c |}.

Definition withSink (c : Call) (s : Sink) : Call :=
  {| streamId := streamId c; controller := controller c; sink := Some s;
     resolved := resolved c; returned := returned c |}.

(** The [timeupdate] listener. *)
Definition onTimeUpdate (aborted : bool) (now : Z) (currentTime : Q) (c : Call) : Call :=
  match sink c with
  | Some s =>
    if negb (attached s) then c
    else if aborted then
      resolve {| isStable := false; frameCount := frames s;
                 timeElapsed := now - startTime s; error := Some "Validation aborted" |}
              c (cleanup s)
    else if negb (Qeq_bool currentTime (lastFrameTime s)) then
      let s' := {| startTime := startTime s; frames := frames s + 1;
                   lastFrameTime := currentTime; needed := needed s;
                   timeoutAfter := timeoutAfter s; attached := attached s |} in
      if needed s <=? frames s' then
        resolve {| isStable := true; frameCount := frames s';
                   timeElapsed := now - startTime s; error := None |}
                c (cleanup s')
      else withSink c s'
    else c
  | None => c
  end.

(** The [setTimeout] callback. *)
Definition onTimeout (now : Z) (c : Call) : Call :=
  match sink c with
  | Some s =>
    if negb (attached s) then c
    else resolve {| isStable := false; frameCount := frames s;
                    timeElapsed := now - startTime s; error := Some "Validation timeout" |}
                 c (cleanup s)
  | None => c
  end.

(** The rejection handler of [video.play()]. *)
Definition onPlayRejected (now : Z) (c : Call) : Call :=
  match sink c with
  | Some s =>
    resolve {| isStable := false; frameCount := 0;
               timeElapsed := now - startTime s; error := Some "Failed to play video for validation" |}
            c (cleanup s)
  | None => c
  end.

(** What the event loop can deliver to the validator. *)
Inductive Event :=
| Validate (now : Z) (stream : MediaStream) (options : StreamValidationOptions)
| TimeUpdate (call : nat) (now : Z) (currentTime : Q)
| Timeout (call : nat) (now : Z)
| PlayRejected (call : nat) (now : Z)
| Resume (call : nat)
| CancelValidation (sid : string)
| CancelAllValidations.

Definition updateCall (n : nat) (f : Call -> Call) (v : Validator) : Validator :=
  match calls v !! n with
  | Some c =>
    {| pendingValidations := pendingValidations v; abortedSignals := abortedSignals v;
       nextController := nextController v; calls := <[n := f c]> (calls v) |}
  | None => v
  end.

Definition isAborted (v : Validator) (c : Call) : bool :=
  bool_decide (controller c ∈ abortedSignals v).

(** The continuation of [validateStreamStability] after its [await]. *)
Definition resume (n : nat) (v : Validator) : Validator :=
  match calls v !! n with
  | Some c =>
    match resolved c, returned c with
    | Some _, false =>
      {| pendingValidations := delete (streamId c) (pendingValidations v);
         abortedSignals := abortedSignals v;
         nextController := nextController v;
         calls := <[n := {| streamId := streamId c; controller := controller c;
                            sink := sink c; resolved := resolved c; returned := true |}]>
                    (calls v) |}
    | _, _ => v
    end
  | None => v
  end.

Definition cancelValidation (sid : string) (v : Validator) : Validator :=
  match pendingValidations v !! sid with
  | Some c =>
    {| pendingValidations := delete sid (pendingValidations v);
       abortedSignals := {[c]} ∪ abortedSignals v;
       nextController := nextController v; calls := calls v |}
  | None => v
  end.

Definition cancelAllValidations (v : Validator) : Validator :=
  {| pendingValidations := ∅;
     abortedSignals := map_fold (fun _ c acc => {[c]} ∪ acc) (abortedSignals v) (pendingValidations v);
     nextController := nextController v; calls := calls v |}.

Definition step (v : Validator) (e : Event) : Validator :=
  match e with
  | Validate now stream options => validateStreamStability now stream options v
  | TimeUpdate n now t => updateCall n (fun c => onTimeUpdate (isAborted v c) now t c) v
  | Timeout n now => updateCall n (onTimeout now) v
  | PlayRejected n now => updateCall n (onPlayRejected now) v
  | Resume n => resume n v
  | CancelValidation sid => cancelValidation sid v
  | CancelAllValidations => cancelAllValidations v
  end.

Definition run (v : Validator) (es : list Event) : Validator := fold_left step es v.

(** What each call's promise has resolved to so far. *)
Definition outcomes (v : Validator) : list (option StreamStabilizationResult) :=
  map resolved (calls v).

Definition isAbortedResult (r : StreamStabilizationResult) : bool :=
  bool_decide (error r = Some "Validation aborted").

End Stabilizer.

(** ** useStreamStabilizer *)

Module UseStreamStabilizer.

(** The stream a hook holds; [tracksLive] is [MediaStream.active]. *)
Record Stream := { sid : nat; tracksLive : bool }.

(** The refs of the hook, the [setTimeout] calls it has pending (their delay
    in milliseconds), the streams handed to [onStreamReady] so far, and the
    number of validations it has requested. *)
Record Hook := {
  streamRef : option Stream;
  streamCreatedRef : bool;
  pendingTimeouts : list Z;
  delivered : list Stream;
  validations : nat
}.

Definition initial : Hook :=
  {| streamRef := None; streamCreatedRef := false; pendingTimeouts := [];
     delivered := []; validations := 0%nat |}.

(** [createStream], given what its environment answers: whether the canvas ref
    holds a canvas, whether an [onStreamReady] callback was supplied, the
    stream [captureStream] returns, and the validation's verdict ([None] when
    an awaited call rejects).  The second component is the returned stream. *)
Definition createStream (canvas : bool) (onStreamReady : bool) (captured : Stream)
           (verdict : option bool) (h : Hook) : Hook * option Stream :=
  if negb canvas || streamCreatedRef h then (h, None)
  else
    match verdict with
    | None =>
      ({| streamRef := streamRef h; streamCreatedRef := false;
          pendingTimeouts := pendingTimeouts h; delivered := delivered h;
          validations := S (validations h) |}, None)
    | Some stable =>
      let h1 := {| streamRef := Some captured; streamCreatedRef := true;
                   pendingTimeouts := pendingTimeouts h; delivered := delivered h;
                   validations := S (validations h) |} in
      if onStreamReady && stable then
        ({| streamRef := streamRef h1; streamCreatedRef := streamCreatedRef h1;
            pendingTimeouts := pendingTimeouts h1;
            delivered := delivered h1 ++ [captured];
            validations := validations h1 |}, Some captured)
      else if onStreamReady && negb stable then
        ({| streamRef := streamRef h1; streamCreatedRef := streamCreatedRef h1;
            pendingTimeouts := pendingTimeouts h1 ++ [1000];
            delivered := delivered h1;
            validations := validations h1 |}, Some captured)
      else (h1, Some captured)
    end.

(** The callback passed to [setTimeout] runs: the oldest pending timeout fires. *)
Definition timeoutFires (h : Hook) : Hook :=
  match pendingTimeouts h with
  | [] => h
  | _ :: rest =>
    let fired :=
      match streamRef h with
      | Some s => if tracksLive s then [s] else []
      | None => []
      end in
    {| streamRef := streamRef h; streamCreatedRef := streamCreatedRef h;
       pendingTimeouts := rest; delivered := delivered h ++ fired;
       validations := validations h |}
  end.

(** [stopStream]: stops every track and forgets the stream. *)
Definition stopStream (h : Hook) : Hook :=
  {| streamRef := None; streamCreatedRef := false;
     pendingTimeouts := pendingTimeouts h; delivered := delivered h;
     validations := validations h |}.

(** Every track of the held stream ends (a capture source going away). *)
Definition tracksEnd (h : Hook) : Hook :=
  {| streamRef := match streamRef h with
                  | Some s => Some {| sid := sid s; tracksLive := false |}
                  | None => None
                  end;
     streamCreatedRef := streamCreatedRef h;
     pendingTimeouts := pendingTimeouts h; delivered := delivered h;
     validations := validations h |}.

End UseStreamStabilizer.

(** ** streamOrchestrator *)

Module Orchestrator.

Inductive SourceKind := canvas | video.

Inductive ContentHint := detail | motion | noHint.

(** What the compositor reads from a source element.  [videoWidth],
    [videoHeight] and [readyState] are [undefined] on a canvas element;
    [drawable] is false when [drawImage] raises for the element. *)
Record Element := {
  videoWidth : option Z;
  videoHeight : option Z;
  width : Z;
  height : Z;
  readyState : option Z;
  paused : bool;
  drawable : bool
}.

(** Sources hold a reference to an element owned by the caller; the elements
    themselves are read afresh from the document on every use. *)
Definition DOM := nat -> Element.

Record StreamSource := {
  kind : SourceKind;
  element : nat;
  contentHint : option ContentHint
}.

Inductive Paint :=
| FillRect (style : string) (alpha : Q) (x y w h : Z)
| DrawImage (el : nat) (alpha : Q) (dx dy dw dh : Z).

(** [CanvasRenderingContext2D]: the drawing state the compositor touches and
    the pixels written so far, as the list of paint operations. *)
Record Context2D := {
  globalAlpha : Q;
  globalCompositeOperation : string;
  fillStyle : string;
  painted : list Paint
}.

Record Canvas := { cwidth : Z; cheight : Z }.

Record BackgroundOptions := {
  fps : option Z;
  enableComplexityManagement : bool;
  complexityOptions : option ComplexityInjectionOptions;
  onBackgroundFrame : bool
}.

(** The fields of [class StreamOrchestrator].  [outputStream] counts the
    [requestFrame()] calls made on the stream's video track; [blits] is the
    trace of [blitSource] calls with the alpha each was asked for. *)
Record Orchestrator := {
  outputCanvas : option Canvas;
  outputCtx : option Context2D;
  outputStream : option nat;
  animationId : option Handle;
  currentSource : option StreamSource;
  pendingSource : option StreamSource;
  crossfadeStartMs : option Q;
  crossfadeDurationMs : Q;
  initialized : bool;
  backgroundTimer : option Handle;
  backgroundOptions : option BackgroundOptions;
  visibilityHandler : bool;
  blits : list (StreamSource * Q)
}.

Definition initial : Orchestrator :=
  {| outputCanvas := None; outputCtx := None; outputStream := None; animationId := None;
     currentSource := None; pendingSource := None; crossfadeStartMs := None;
     crossfadeDurationMs := 200; initialized := false; backgroundTimer := None;
     backgroundOptions := None; visibilityHandler := false; blits := [] |}.

(** The orchestrator together with what it shares with the page: the timers,
    the complexity manager singleton, [document.hidden], the video elements it
    asked to resume and the counters of the running [kick] chains. *)
Record World := {
  orch : Orchestrator;
  timers : Timers;
  monitor : ComplexityManager.Manager;
  documentHidden : bool;
  resumed : list nat;
  kickChains : list nat
}.

Definition start_world : World :=
  {| orch := initial; timers := noTimers; monitor := ComplexityManager.initial;
     documentHidden := false; resumed := []; kickChains := [] |}.

(** *** Field updates *)

Definition set_ctx (c : option Context2D) (o : Orchestrator) : Orchestrator :=
  {| outputCanvas := outputCanvas o; outputCtx := c; outputStream := outputStream o;
     animationId := animationId o; currentSource := currentSource o;
     pendingSource := pendingSource o; crossfadeStartMs := crossfadeStartMs o;
     crossfadeDurationMs := crossfadeDurationMs o; initialized := initialized o;
     backgroundTimer := backgroundTimer o; backgroundOptions := backgroundOptions o;
     visibilityHandler := visibilityHandler o; blits := blits o |}.

Definition set_sources (cur pend : option StreamSource) (fade : option Q)
           (o : Orchestrator) : Orchestrator :=
  {| outputCanvas := outputCanvas o; outputCtx := outputCtx o; outputStream := outputStream o;
     animationId := animationId o; currentSource := cur;
     pendingSource := pend; crossfadeStartMs := fade;
     crossfadeDurationMs := crossfadeDurationMs o; initialized := initialized o;
     backgroundTimer := backgroundTimer o; backgroundOptions := backgroundOptions o;
     visibilityHandler := visibilityHandler o; blits := blits o |}.

Definition set_animationId (a : option Handle) (o : Orchestrator) : Orchestrator :=
  {| outputCanvas := outputCanvas o; outputCtx := outputCtx o; outputStream := outputStream o;
     animationId := a; currentSource := currentSource o;
     pendingSource := pendingSource o; crossfadeStartMs := crossfadeStartMs o;
     crossfadeDurationMs := crossfadeDurationMs o; initialized := initialized o;
     backgroundTimer := backgroundTimer o; backgroundOptions := backgroundOptions o;
     visibilityHandler := visibilityHandler o; blits := blits o |}.

Definition set_backgroundTimer (b : option Handle) (o : Orchestrator) : Orchestrator :=
  {| outputCanvas := outputCanvas o; outputCtx := outputCtx o; outputStream := outputStream o;
     animationId := animationId o; currentSource := currentSource o;
     pendingSource := pendingSource o; crossfadeStartMs := crossfadeStartMs o;
     crossfadeDurationMs := crossfadeDurationMs o; initialized := initialized o;
     backgroundTimer := b; backgroundOptions := backgroundOptions o;
     visibilityHandler := visibilityHandler o; blits := blits o |}.

Definition set_background (opts : option BackgroundOptions) (handler : bool)
           (o : Orchestrator) : Orchestrator :=
  {| outputCanvas := outputCanvas o; outputCtx := outputCtx o; outputStream := outputStream o;
     animationId := animationId o; currentSource := currentSource o;
     pendingSource := pendingSource o; crossfadeStartMs := crossfadeStartMs o;
     crossfadeDurationMs := crossfadeDurationMs o; initialized := initialized o;
     backgroundTimer := backgroundTimer o; backgroundOptions := opts;
     visibilityHandler := handler; blits := blits o |}.

Definition set_surface (cv : option Canvas) (c : option Context2D) (s : option nat)
           (init : bool) (o : Orchestrator) : Orchestrator :=
  {| outputCanvas := cv; outputCtx := c; outputStream := s;
     animationId := animationId o; currentSource := currentSource o;
     pendingSource := pendingSource o; crossfadeStartMs := crossfadeStartMs o;
     crossfadeDurationMs := crossfadeDurationMs o; initialized := init;
     backgroundTimer := backgroundTimer o; backgroundOptions := backgroundOptions o;
     visibilityHandler := visibilityHandler o; blits := blits o |}.

Definition log_blit (s : StreamSource) (alpha : Q) (o : Orchestrator) : Orchestrator :=
  {| outputCanvas := outputCanvas o; outputCtx := outputCtx o; outputStream := outputStream o;
     animationId := animationId o; currentSource := currentSource o;
     pendingSource := pendingSource o; crossfadeStartMs := crossfadeStartMs o;
     crossfadeDurationMs := crossfadeDurationMs o; initialized := initialized o;
     backgroundTimer := backgroundTimer o; backgroundOptions := backgroundOptions o;
     visibilityHandler := visibilityHandler o; blits := blits o ++ [(s, alpha)] |}.

(** [track.requestFrame()] on the output stream's video track. *)
Definition requestFrame (o : Orchestrator) : Orchestrator :=
  set_surface (outputCanvas o) (outputCtx o) (option_map S (outputStream o)) (initialized o) o.

Definition with_orch (o : Orchestrator) (w : World) : World :=
  {| orch := o; timers := timers w; monitor := monitor w;
     documentHidden := documentHidden w; resumed := resumed w; kickChains := kickChains w |}.

(** *** Context operations *)

Definition set_globalAlpha (a : Q) (c : Context2D) : Context2D :=
  {| globalAlpha := a; globalCompositeOperation := globalCompositeOperation c;
     fillStyle := fillStyle c; painted := painted c |}.

Definition set_fill (op style : string) (c : Context2D) : Context2D :=
  {| globalAlpha := globalAlpha c; globalCompositeOperation := op;
     fillStyle := style; painted := painted c |}.

Definition paint (p : Paint) (c : Context2D) : Context2D :=
  {| globalAlpha := globalAlpha c; globalCompositeOperation := globalCompositeOperation c;
     fillStyle := fillStyle c; painted := painted c ++ [p] |}.

Definition fillRect (x y w h : Z) (c : Context2D) : Context2D :=
  paint (FillRect (fillStyle c) (globalAlpha c) x y w h) c.

(** [ctx.drawImage(el, dx, dy, dw, dh)]; [None] when it raises. *)
Definition drawImage (dom : DOM) (el : nat) (dx dy dw dh : Z) (c : Context2D) : option Context2D :=
  if drawable (dom el) then Some (paint (DrawImage el (globalAlpha c) dx dy dw dh) c) else None.

(** *** The compositor *)

Definition isSourceReady (dom : DOM) (source : StreamSource) : bool :=
  let el := dom (element source) in
  match kind source with
  | video =>
    match readyState el with
    | Some r => (2 <=? r) && (0 <? default 0 (videoWidth el)) && (0 <? default 0 (videoHeight el))
    | None => false
    end
  | canvas => (0 <? width el) && (0 <? height el)
  end.

(** The destination rectangle [(dx, dy, dw, dh)] of a [sw] x [sh] source on a
    [w] x [h] surface, as computed in [blitSource]. *)
Definition destination (w h sw sh : Z) : Z * Z * Z * Z :=
  let scale := Qmin (inject_Z w / inject_Z sw) (inject_Z h / inject_Z sh) in
  let dw := Qfloor (inject_Z sw * scale) in
  let dh := Qfloor (inject_Z sh * scale) in
  let dx := Qfloor (inject_Z (w - dw) / 2) in
  let dy := Qfloor (inject_Z (h - dh) / 2) in
  (dx, dy, dw, dh).

(** The [try ... catch ... finally] around the draw inside [blitSource]. *)
Definition drawWithAlpha (dom : DOM) (el : nat) (alpha : Q) (rect : Z * Z * Z * Z)
           (ctx : Context2D) : Context2D :=
  let '(dx, dy, dw, dh) := rect in
  let prevAlpha := globalAlpha ctx in
  let ctx1 := set_globalAlpha (Qmax 0 (Qmin 1 alpha)) ctx in
  let ctx2 := match drawImage dom el dx dy dw dh ctx1 with
              | Some drawn => drawn
              | None => ctx1
              end in
  set_globalAlpha prevAlpha ctx2.

(** [el.videoWidth ?? el.width] and [el.videoHeight ?? el.height] *)
Definition intrinsicWidth (el : Element) : Z :=
  match videoWidth el with Some v => v | None => width el end.

Definition intrinsicHeight (el : Element) : Z :=
  match videoHeight el with Some v => v | None => height el end.

Definition blitSource (dom : DOM) (source : StreamSource) (alpha : Q)
           (o : Orchestrator) : Orchestrator :=
  let o := log_blit source alpha o in
  match outputCtx o, outputCanvas o with
  | Some ctx, Some cv =>
    let w := cwidth cv in
    let h := cheight cv in
    let el := dom (element source) in
    let sw := intrinsicWidth el in
    let sh := intrinsicHeight el in
    if (sw =? 0) || (sh =? 0) then o
    else set_ctx (Some (drawWithAlpha dom (element source) alpha (destination w h sw sh) ctx)) o
  | _, _ => o
  end.

(** The phases of the animation callback [draw], run at time [now]:
    clearing the surface to black, *)
Definition clearSurface (cv : Canvas) (ctx : Context2D) (o : Orchestrator) : Orchestrator :=
  set_ctx (Some (fillRect 0 0 (cwidth cv) (cheight cv)
                   (set_fill "source-over" "#000000" ctx))) o.

(** starting the crossfade clock once the pending source is ready, *)
Definition armCrossfade (dom : DOM) (now : Q) (o : Orchestrator) : Orchestrator :=
  match pendingSource o with
  | Some p =>
    if isSourceReady dom p then
      match crossfadeStartMs o with
      | None => set_sources (currentSource o) (pendingSource o) (Some now) o
      | Some _ => o
      end
    else o
  | None => o
  end.

(** compositing: the crossfade, the first source, or the current source, *)
Definition composite (dom : DOM) (now : Q) (o : Orchestrator) : Orchestrator :=
  match pendingSource o, crossfadeStartMs o, currentSource o with
  | Some p, Some started, Some cur =>
    let t := Qmin 1 ((now - started) / crossfadeDurationMs o) in
    let o := blitSource dom cur (1 - t) o in
    let o := blitSource dom p t o in
    if Qgeb t 1 then set_sources (Some p) None None o else o
  | Some p, _, None =>
    if isSourceReady dom p then
      let o := blitSource dom p 1 o in
      set_sources (Some p) None None o
    else o
  | _, _, Some cur => blitSource dom cur 1 o
  | _, _, None => o
  end.

(** and the nearly transparent pixel in the bottom-right corner. *)
Definition markFrame (cv : Canvas) (o : Orchestrator) : Orchestrator :=
  match outputCtx o with
  | Some ctx =>
    set_ctx (Some (fillRect (cwidth cv - 1) (cheight cv - 1) 1 1
                     (set_fill (globalCompositeOperation ctx) "rgba(255, 0, 0, 0.01)" ctx))) o
  | None => o
  end.

(** [draw]: the phases in order, then [requestFrame()] and the next
    [requestAnimationFrame(draw)]. *)
Definition draw (dom : DOM) (now : Q) (o : Orchestrator) (tm : Timers) : Orchestrator * Timers :=
  match outputCanvas o, outputCtx o with
  | Some cv, Some ctx =>
    let o := clearSurface cv ctx o in
    let o := armCrossfade dom now o in
    let o := composite dom now o in
    let o := markFrame cv o in
    let o := requestFrame o in
    let '(id, tm) := requestAnimationFrame tm in
    (set_animationId (Some id) o, tm)
  | _, _ => (o, tm)
  end.

(** [start()]; the fire-and-forget canvas pre-check it issues leaves no trace
    in the orchestrator. *)
Definition start (w : World) : World :=
  let o := orch w in
  match animationId o, outputCanvas o, outputCtx o with
  | None, Some _, Some _ =>
    let '(id, tm) := requestAnimationFrame (timers w) in
    {| orch := set_animationId (Some id) o; timers := tm; monitor := monitor w;
       documentHidden := documentHidden w; resumed := resumed w; kickChains := kickChains w |}
  | _, _, _ => w
  end.

Definition enabled (b : option BackgroundOptions) : bool :=
  match b with Some opts => enableComplexityManagement opts | None => false end.

Definition stopBackgroundStreaming (w : World) : World :=
  let o := orch w in
  let '(o1, tm1) :=
    match backgroundTimer o with
    | Some h => (set_backgroundTimer None o, clearInterval h (timers w))
    | None => (o, timers w)
    end in
  let '(m, tm2) :=
    if enabled (backgroundOptions o) then ComplexityManager.stopMonitoring (monitor w) tm1
    else (monitor w, tm1) in
  {| orch := o1; timers := tm2; monitor := m;
     documentHidden := documentHidden w; resumed := resumed w; kickChains := kickChains w |}.

(** [startBackgroundStreaming()]; the frame rate is taken to be a positive
    integer, so that [Math.floor(1000 / fps)] is the integer quotient. *)
Definition startBackgroundStreaming (w : World) : World :=
  let o := orch w in
  match outputCanvas o, backgroundOptions o, backgroundTimer o with
  | Some _, Some opts, None =>
    let rate := default 30 (fps opts) in
    let '(m, tm1) :=
      if enableComplexityManagement opts then
        let canvasForAnalysis :=
          match currentSource o with
          | Some s => match kind s with
                      | canvas => SourceCanvas (element s)
                      | video => OutputCanvas
                      end
          | None => OutputCanvas
          end in
        ComplexityManager.startMonitoring canvasForAnalysis
          (default noOptions (complexityOptions opts)) (monitor w) (timers w)
      else (monitor w, timers w) in
    let '(h, tm2) := setInterval BackgroundTask (Z.max 10 (1000 / rate)) tm1 in
    {| orch := set_backgroundTimer (Some h) o; timers := tm2; monitor := m;
       documentHidden := documentHidden w; resumed := resumed w; kickChains := kickChains w |}
  | _, _, _ => w
  end.

(** [stop()] *)
Definition stop (w : World) : World :=
  let o := orch w in
  let w1 :=
    match animationId o with
    | Some id =>
      {| orch := set_animationId None o; timers := cancelAnimationFrame id (timers w);
         monitor := monitor w; documentHidden := documentHidden w;
         resumed := resumed w; kickChains := kickChains w |}
    | None => w
    end in
  stopBackgroundStreaming w1.

(** One [kick()]: request a frame, and re-arm while fewer than five were made. *)
Definition kick (kicks : nat) (w : World) : World :=
  {| orch := requestFrame (orch w); timers := timers w; monitor := monitor w;
     documentHidden := documentHidden w; resumed := resumed w;
     kickChains := if (S kicks <? 5)%nat then kickChains w ++ [S kicks] else kickChains w |}.

(** A pending [setTimeout(kick, 30)] expires. *)
Definition kickTimeout (w : World) : World :=
  match kickChains w with
  | [] => w
  | kicks :: rest =>
    kick kicks {| orch := orch w; timers := timers w; monitor := monitor w;
                  documentHidden := documentHidden w; resumed := resumed w;
                  kickChains := rest |}
  end.

(** The [visibilitychange] listener installed by [updateBackgroundStreaming]. *)
Definition onVisibilityChange (dom : DOM) (w : World) : World :=
  match backgroundOptions (orch w) with
  | None => w
  | Some _ =>
    if documentHidden w then startBackgroundStreaming w
    else
      let w1 := start (stopBackgroundStreaming w) in
      let w2 :=
        match currentSource (orch w1) with
        | Some s =>
          match kind s with
          | video =>
            if paused (dom (element s)) then
              {| orch := orch w1; timers := timers w1; monitor := monitor w1;
                 documentHidden := documentHidden w1;
                 resumed := resumed w1 ++ [element s]; kickChains := kickChains w1 |}
            else w1
          | canvas => w1
          end
        | None => w1
        end in
      match outputStream (orch w2) with
      | Some _ => kick 0 w2
      | None => w2
      end
  end.

Definition updateBackgroundStreaming (w : World) : World :=
  let w1 := with_orch (set_background (backgroundOptions (orch w)) false (orch w)) w in
  match backgroundOptions (orch w1) with
  | None => stopBackgroundStreaming w1
  | Some opts =>
    let w2 := with_orch (set_background (Some opts) true (orch w1)) w1 in
    if documentHidden w2 then startBackgroundStreaming w2 else stopBackgroundStreaming w2
  end.

Definition setBackgroundOptions (options : option BackgroundOptions) (w : World) : World :=
  updateBackgroundStreaming
    (with_orch (set_background options (visibilityHandler (orch w)) (orch w)) w).

Definition defaultBackgroundOptions : BackgroundOptions :=
  {| fps := Some 30; enableComplexityManagement := true;
     complexityOptions :=
       Some {| targetComplexity := Some 0.3%Q; complexityType := Some adaptive;
               enableAnalysis := None; minComplexityThreshold := Some 0.15%Q;
               maxIntensity := Some 0.2%Q; analysisInterval := None |};
     onBackgroundFrame := false |}.

(** [ensureInitialized()]; [ctxAvailable] tells whether the new canvas yields
    a 2d context. *)
Definition ensureInitialized (ctxAvailable : bool) (w : World) : World :=
  if initialized (orch w) then w
  else if negb ctxAvailable then w
  else
    let ctx := {| globalAlpha := 1; globalCompositeOperation := "source-over";
                  fillStyle := "#000000"; painted := [] |} in
    let o := set_surface (Some {| cwidth := 512; cheight := 512 |}) (Some ctx) (Some 0%nat)
                         true (orch w) in
    setBackgroundOptions (Some defaultBackgroundOptions) (with_orch o w).

(** [setSource(source)] *)
Definition setSource (ctxAvailable : bool) (source : StreamSource) (w : World) : World :=
  let w1 := ensureInitialized ctxAvailable w in
  let o := set_sources (currentSource (orch w1)) (Some source) None (orch w1) in
  let w2 := with_orch o w1 in
  match animationId o with
  | None => start w2
  | Some _ => w2
  end.

(** [getStream()] *)
Definition getStream (ctxAvailable : bool) (w : World) : World * option nat :=
  let w1 := ensureInitialized ctxAvailable w in
  (w1, outputStream (orch w1)).

(** [destroy()]: stops both pumps, removes the visibility listener and drops
    the stream, the canvas, the context and the sources. *)
Definition destroy (w : World) : World :=
  let w1 := stop w in
  let o := orch w1 in
  with_orch
    {| outputCanvas := None; outputCtx := None; outputStream := None;
       animationId := animationId o; currentSource := None; pendingSource := None;
       crossfadeStartMs := crossfadeStartMs o;
       crossfadeDurationMs := crossfadeDurationMs o; initialized := false;
       backgroundTimer := backgroundTimer o; backgroundOptions := backgroundOptions o;
       visibilityHandler := false; blits := blits o |} w1.

(** The background interval fires: the optional hook runs and a frame is
    requested on the output track. *)
Definition backgroundTick (w : World) : World := with_orch (requestFrame (orch w)) w.

(** The page delivers an animation frame at time [now]: every pending callback
    runs [draw]. *)
Definition animationFrame (dom : DOM) (now : Q) (w : World) : World :=
  let pending := frames (timers w) in
  let tm0 := {| nextHandle := nextHandle (timers w); intervals := intervals (timers w);
                frames := [] |} in
  let '(o, tm) := fold_left (fun acc _ => draw dom now (fst acc) (snd acc)) pending (orch w, tm0) in
  {| orch := o; timers := tm; monitor := monitor w;
     documentHidden := documentHidden w; resumed := resumed w; kickChains := kickChains w |}.

(** The page becomes hidden or visible. *)
Definition visibilityChange (dom : DOM) (hidden : bool) (w : World) : World :=
  let w1 := {| orch := orch w; timers := timers w; monitor := monitor w;
               documentHidden := hidden; resumed := resumed w; kickChains := kickChains w |} in
  if visibilityHandler (orch w1) then onVisibilityChange dom w1 else w1.

(** The foreground pump holds an animation-frame handle that is still pending;
    the background pump holds an interval timer that is still running. *)
Definition foregroundActive (w : World) : bool :=
  match animationId (orch w) with
  | Some id => existsb (Pos.eqb id) (frames (timers w))
  | None => false
  end.

Definition backgroundActive (w : World) : bool :=
  match backgroundTimer (orch w) with
  | Some h => existsb (fun e => Pos.eqb (fst e) h) (intervals (timers w))
  | None => false
  end.

End Orchestrator.

(** * Specification vocabulary and sample inputs *)

Import Orchestrator.


(** The worlds the page can bring about by calling the orchestrator's public
    methods and by delivering events: animation frames, visibility changes,
    kick timeouts and background ticks. *)
Inductive reachable : World -> Prop :=
| reach_initial : reachable start_world
| reach_setSource ctxAvailable source w :
    reachable w -> reachable (setSource ctxAvailable source w)
| reach_animationFrame dom now w :
    reachable w -> reachable (animationFrame dom now w)
| reach_visibilityChange dom hidden w :
    reachable w -> reachable (visibilityChange dom hidden w)
| reach_setBackgroundOptions options w :
    reachable w -> reachable (setBackgroundOptions options w)
| reach_stop w :
    reachable w -> reachable (stop w)
| reach_kickTimeout w :
    reachable w -> reachable (kickTimeout w)
| reach_getStream ctxAvailable w :
    reachable w -> reachable (fst (getStream ctxAvailable w))
| reach_start w :
    reachable w -> reachable (start w)
| reach_destroy w :
    reachable w -> reachable (destroy w)
| reach_backgroundTick w :
    reachable w -> backgroundActive w = true -> reachable (backgroundTick w).

(** The background half of the orchestrator's state. *)
Definition background (o : Orchestrator) : option Handle * option BackgroundOptions * bool :=
  (backgroundTimer o, backgroundOptions o, visibilityHandler o).

(** The invariant behind the pumps: there is no background timer while the
    page is visible, none without a registered visibility listener, and a
    listener is only registered together with background options. *)
Definition pump_invariant (w : World) : Prop :=
  (documentHidden w = false -> backgroundTimer (orch w) = None) /\
  (visibilityHandler (orch w) = false -> backgroundTimer (orch w) = None) /\
  (visibilityHandler (orch w) = true -> backgroundOptions (orch w) <> None).

(** The states the complexity manager and the page's timers can be in: the
    manager's own calls, analysis ticks, and other code creating timers and
    clearing timers of its own. *)
Inductive monitoring : ComplexityManager.Manager -> Timers -> Prop :=
| mon_initial : monitoring ComplexityManager.initial noTimers
| mon_start cv options st tm :
    monitoring st tm ->
    monitoring (fst (ComplexityManager.startMonitoring cv options st tm))
               (snd (ComplexityManager.startMonitoring cv options st tm))
| mon_stop st tm :
    monitoring st tm ->
    monitoring (fst (ComplexityManager.stopMonitoring st tm))
               (snd (ComplexityManager.stopMonitoring st tm))
| mon_reset st tm :
    monitoring st tm ->
    monitoring (fst (ComplexityManager.reset st tm)) (snd (ComplexityManager.reset st tm))
| mon_inject sqrt canvas options st tm st' canvas' :
    monitoring st tm ->
    ComplexityManager.injectComplexity sqrt st canvas options = Some (st', canvas') ->
    monitoring st' tm
| mon_analyze sqrt canvas st tm metrics st' :
    monitoring st tm ->
    ComplexityManager.analyzeFrameComplexity sqrt st canvas = Some (metrics, st') ->
    monitoring st' tm
| mon_other_interval period st tm :
    monitoring st tm -> monitoring st (snd (setInterval BackgroundTask period tm))
| mon_other_clear h st tm :
    monitoring st tm -> ComplexityManager.analysisIntervalId st <> Some h ->
    monitoring st (clearInterval h tm)
| mon_other_frame st tm :
    monitoring st tm -> monitoring st (snd (requestAnimationFrame tm))
| mon_other_cancel h st tm :
    monitoring st tm -> monitoring st (cancelAnimationFrame h tm).

(** The manager holds a timer handle exactly while it is analyzing, and that
    handle's timer is the only analysis timer. *)
Definition monitor_invariant (st : ComplexityManager.Manager) (tm : Timers) : Prop :=
  ComplexityManager.isAnalyzing st =
    match ComplexityManager.analysisIntervalId st with Some _ => true | None => false end /\
  map fst (analysisTimers tm) =
    match ComplexityManager.analysisIntervalId st with Some h => [h] | None => [] end.

(** The manager's idle state: not analyzing, no handle, no analysis timer. *)
Definition idle_monitor (st : ComplexityManager.Manager) (tm : Timers) : Prop :=
  ComplexityManager.isAnalyzing st = false /\
  ComplexityManager.analysisIntervalId st = None /\
  analysisTimers tm = [].

(** Why a validation can fail before any timer or play-back sink exists, in
    the order the causes are examined. *)
Inductive Cause := StreamInactive | NoVideoTracks | NoAudioTracks | VideoNotLive.

Definition shortCircuit (stream : Stabilizer.MediaStream) (requireAudio : bool) : option Cause :=
  if negb (Stabilizer.active stream) then Some StreamInactive
  else match Stabilizer.videoTracks stream with
       | [] => Some NoVideoTracks
       | first :: _ =>
         if requireAudio && match Stabilizer.audioTracks stream with [] => true | _ => false end
         then Some NoAudioTracks
         else match first with
              | Stabilizer.live => None
              | Stabilizer.ended => Some VideoNotLive
              end
       end.

Definition errorTag (c : Cause) : string :=
  match c with
  | StreamInactive => "Stream is not active"
  | NoVideoTracks => "No video tracks found"
  | NoAudioTracks => "No audio tracks found"
  | VideoNotLive => "Video track not live: ended"
  end.

(** The pixels of a flat RGBA array, without their alpha channel. *)
Fixpoint pixels (d : list Z) : list (Z * Z * Z) :=
  match d with
  | r :: g :: b :: _ :: rest => (r, g, b) :: pixels rest
  | _ => []
  end.

(** The luminance of a pixel: the average of its three colour channels. *)
Definition luminance (p : Z * Z * Z) : Q :=
  let '(r, g, b) := p in (inject_Z r + inject_Z g + inject_Z b) / 3.

Definition total (l : list Q) : Q := fold_left Qplus l 0%Q.

Definition mean (l : list Q) : Q := (total l / inject_Z (Z.of_nat (length l)))%Q.

(** The mean absolute luminance difference between two samples, pixel by
    pixel. *)
Definition meanAbsLuminanceDelta (current previous : ComplexityManager.ImageData) : Q :=
  mean (map (fun pq => Qabs (luminance (fst pq) - luminance (snd pq)))
            (combine (pixels (ComplexityManager.data current))
                     (pixels (ComplexityManager.data previous)))).

(** An [ImageData] as the platform builds it: four entries for each of its
    [width * height] pixels. *)
Definition wellFormed (img : ComplexityManager.ImageData) : Prop :=
  0 <= ComplexityManager.iwidth img /\ 0 <= ComplexityManager.iheight img /\
  ComplexityManager.dataLength img =
    4 * (ComplexityManager.iwidth img * ComplexityManager.iheight img).

Definition sameSize (a b : ComplexityManager.ImageData) : bool :=
  (ComplexityManager.iwidth a =? ComplexityManager.iwidth b) &&
  (ComplexityManager.iheight a =? ComplexityManager.iheight b).

(** The injection options with another [minComplexityThreshold]. *)
Definition with_threshold (threshold : option Q) (o : ComplexityInjectionOptions)
  : ComplexityInjectionOptions :=
  {| targetComplexity := targetComplexity o; complexityType := complexityType o;
     enableAnalysis := enableAnalysis o; minComplexityThreshold := threshold;
     maxIntensity := maxIntensity o; analysisInterval := analysisInterval o |}.

(** The handles an optional handle stands for. *)
Definition held (h : option Handle) : list Handle :=
  match h with Some x => [x] | None => [] end.

Definition isBackgroundTask (e : Handle * (Task * Z)) : bool :=
  match fst (snd e) with BackgroundTask => true | AnalysisTask _ _ => false end.

(** The foreground pump's bookkeeping: the pending animation-frame callbacks
    are exactly the one whose handle the orchestrator holds, and a handle is
    only held while the output surface exists. *)
Definition frame_invariant (w : World) : Prop :=
  frames (timers w) = held (animationId (orch w)) /\
  (animationId (orch w) <> None ->
   outputCanvas (orch w) <> None /\ outputCtx (orch w) <> None).

(** The interval timers' bookkeeping: handles are fresh and distinct, the
    background timers are exactly the one the orchestrator holds, the analysis
    timers exactly the one the complexity manager holds, and no background
    timer runs faster than every 10ms. *)
Definition timer_bookkeeping (tm : Timers) (background : option Handle)
           (m : ComplexityManager.Manager) : Prop :=
  Forall (fun e => (fst e < nextHandle tm)%positive) (intervals tm) /\
  NoDup (map fst (intervals tm)) /\
  map fst (filter isBackgroundTask (intervals tm)) = held background /\
  monitor_invariant m tm /\
  Forall (fun e => isBackgroundTask e = true -> 10 <= snd (snd e)) (intervals tm).

Definition timers_invariant (w : World) : Prop :=
  timer_bookkeeping (timers w) (backgroundTimer (orch w)) (monitor w).

(** What an operation may touch without disturbing the foreground pump. *)
Definition same_foreground (w w' : World) : Prop :=
  animationId (orch w') = animationId (orch w) /\
  frames (timers w') = frames (timers w) /\
  outputCanvas (orch w') = outputCanvas (orch w) /\
  outputCtx (orch w') = outputCtx (orch w).

(** The output surface survives an operation on the orchestrator. *)
Definition keeps_surface (o o' : Orchestrator) : Prop :=
  outputCanvas o' = outputCanvas o /\ (outputCtx o <> None -> outputCtx o' <> None).

(** What an operation leaves alone of the orchestrator's registrations. *)
Definition same_registry (o o' : Orchestrator) : Prop :=
  initialized o' = initialized o /\ currentSource o' = currentSource o /\
  pendingSource o' = pendingSource o /\ crossfadeStartMs o' = crossfadeStartMs o /\
  outputStream o' = outputStream o.

(** An initialised orchestrator has its output surface. *)
Definition surface_invariant (w : World) : Prop :=
  initialized (orch w) = true ->
  outputCanvas (orch w) <> None /\ outputCtx (orch w) <> None.

(** What a run of drawing calls did to a context: [ops] were appended to the
    pixels written and the global alpha is as it was. *)
Definition paints (c c' : Context2D) (ops : list Paint) : Prop :=
  globalAlpha c' = globalAlpha c /\ painted c' = painted c ++ ops.

(** A source image drawn with an alpha between 0 and 1. *)
Definition visibleImage (p : Paint) : Prop :=
  match p with
  | DrawImage _ a _ _ _ _ => (0 <= a <= 1)%Q
  | FillRect _ _ _ _ _ _ => False
  end.

(** The output stream exists exactly while the orchestrator is initialised,
    and an uninitialised orchestrator has no canvas. *)
Definition stream_invariant (w : World) : Prop :=
  if initialized (orch w) then outputStream (orch w) <> None
  else outputCanvas (orch w) = None /\ outputStream (orch w) = None.

(** An operation that neither builds nor releases the output stream. *)
Definition keeps_stream (o o' : Orchestrator) : Prop :=
  initialized o' = initialized o /\ outputCanvas o' = outputCanvas o /\
  (outputStream o' = None <-> outputStream o = None).




(** Two canvases with the same bitmap inside the rectangle [sw] x [sh]. *)
Definition sameBlock (sw sh : Z) (a b : ComplexityManager.HTMLCanvasElement) : Prop :=
  ComplexityManager.has2d a = ComplexityManager.has2d b /\
  ComplexityManager.width a = ComplexityManager.width b /\
  ComplexityManager.height a = ComplexityManager.height b /\
  forall x y, 0 <= x < sw -> 0 <= y < sh ->
              ComplexityManager.pixel a x y = ComplexityManager.pixel b x y.

(** What holds of every call of [validateStreamStability]: while its promise
    is unresolved the play-back sink is attached (timeout pending, listener
    registered) and has counted fewer frames than it needs; once resolved the
    sink, if any, is detached, the verdict is stable exactly when it carries
    no error, a stable verdict reports the frames needed (one at least) and
    an unstable one fewer. *)
Definition call_invariant (c : Stabilizer.Call) : Prop :=
  match Stabilizer.resolved c with
  | None =>
    exists s, Stabilizer.sink c = Some s /\ Stabilizer.attached s = true /\
              0 <= Stabilizer.frames s < Z.max (Stabilizer.needed s) 1
  | Some r =>
    (Stabilizer.isStable r = true <-> Stabilizer.error r = None) /\
    match Stabilizer.sink c with
    | Some s =>
      Stabilizer.attached s = false /\
      if Stabilizer.isStable r
      then Stabilizer.frameCount r = Z.max (Stabilizer.needed s) 1
      else 0 <= Stabilizer.frameCount r < Z.max (Stabilizer.needed s) 1
    | None => Stabilizer.isStable r = false /\ Stabilizer.frameCount r = 0
    end
  end.

(** Abort controllers are handed out in order: every controller the
    validator knows of is older than the next one it will create. *)
Definition controllers_fresh (v : Stabilizer.Validator) : Prop :=
  (forall sid c, Stabilizer.pendingValidations v !! sid = Some c ->
                 (c < Stabilizer.nextController v)%nat) /\
  (forall c, c ∈ Stabilizer.abortedSignals v -> (c < Stabilizer.nextController v)%nat).

(** The states a hook instance can reach: calls of [createStream] and
    [stopStream], expiring retry timeouts, and the held stream's tracks
    ending. *)
Inductive hook_reachable : UseStreamStabilizer.Hook -> Prop :=
| hook_initial : hook_reachable UseStreamStabilizer.initial
| hook_createStream canvas onStreamReady captured verdict h :
    hook_reachable h ->
    hook_reachable (fst (UseStreamStabilizer.createStream canvas onStreamReady captured verdict h))
| hook_timeoutFires h :
    hook_reachable h -> hook_reachable (UseStreamStabilizer.timeoutFires h)
| hook_stopStream h :
    hook_reachable h -> hook_reachable (UseStreamStabilizer.stopStream h)
| hook_tracksEnd h :
    hook_reachable h -> hook_reachable (UseStreamStabilizer.tracksEnd h).

(** The pending map owns its controllers: no two streams share one, and a
    controller in the map has not been aborted. *)
Definition pending_owned (v : Stabilizer.Validator) : Prop :=
  (forall s1 s2 c, Stabilizer.pendingValidations v !! s1 = Some c ->
                   Stabilizer.pendingValidations v !! s2 = Some c -> s1 = s2) /\
  (forall sid c, Stabilizer.pendingValidations v !! sid = Some c ->
                 c ∉ Stabilizer.abortedSignals v).

Module Sample.

(** A camera feed (element 0) and a drawing canvas (every other element). *)
Definition camera : Element :=
  {| videoWidth := Some 1280; videoHeight := Some 720; width := 0; height := 0;
     readyState := Some 4; paused := false; drawable := true |}.

Definition sketch : Element :=
  {| videoWidth := None; videoHeight := None; width := 300; height := 150;
     readyState := None; paused := false; drawable := true |}.

Definition page : DOM := fun el => match el with O => camera | _ => sketch end.

Definition surface : Canvas := {| cwidth := 512; cheight := 512 |}.

Definition blank : Context2D :=
  {| globalAlpha := 1; globalCompositeOperation := "source-over";
     fillStyle := "#000000"; painted := [] |}.

(** The orchestrator right after its initialisation. *)
Definition idle : Orchestrator := orch (ensureInitialized true start_world).

Definition cameraSource : StreamSource :=
  {| kind := video; element := 0%nat; contentHint := Some motion |}.

Definition sketchSource : StreamSource :=
  {| kind := canvas; element := 1%nat; contentHint := Some detail |}.

(** The camera is registered and composited once at time 0; 210ms later the
    sketch is registered and the next frame starts the crossfade. *)
Definition camera_live : World :=
  animationFrame page 0 (setSource true cameraSource start_world).


(** The camera is live and the page goes to the background. *)
Definition camera_hidden : World := visibilityChange page true camera_live.

(** A captured stream whose video track is live but never advances. *)
Definition stalled : Stabilizer.MediaStream :=
  {| Stabilizer.id := "canvas-stream"; Stabilizer.active := true;
     Stabilizer.videoTracks := [Stabilizer.live]; Stabilizer.audioTracks := [] |}.

Definition quick : Stabilizer.StreamValidationOptions :=
  {| Stabilizer.minStableFrames := Some 3; Stabilizer.timeoutMs := Some 500;
     Stabilizer.validateAudio := Some false |}.

(** Two validations of the same stream 10ms apart; no [timeupdate] event ever
    arrives, so the next events are the two timeouts. *)
Definition twice_stalled : list Stabilizer.Event :=
  [Stabilizer.Validate 0 stalled quick; Stabilizer.Validate 10 stalled quick;
   Stabilizer.Timeout 0 500; Stabilizer.Resume 0;
   Stabilizer.Timeout 1 510; Stabilizer.Resume 1].

(** The same two validations on a stream that does advance: the next
    [timeupdate] events reach both sinks. *)
Definition twice_flowing : list Stabilizer.Event :=
  [Stabilizer.Validate 0 stalled quick; Stabilizer.Validate 10 stalled quick;
   Stabilizer.TimeUpdate 0 40 (1 # 30); Stabilizer.Resume 0;
   Stabilizer.TimeUpdate 1 40 (1 # 30); Stabilizer.TimeUpdate 1 73 (2 # 30);
   Stabilizer.TimeUpdate 1 106 (3 # 30); Stabilizer.Resume 1].

Definition captured : UseStreamStabilizer.Stream :=
  {| UseStreamStabilizer.sid := 7%nat; UseStreamStabilizer.tracksLive := true |}.

(** A 512 x 512 canvas painted in one opaque grey level. *)
Definition flat (level : Z) : ComplexityManager.HTMLCanvasElement :=
  {| ComplexityManager.width := 512; ComplexityManager.height := 512;
     ComplexityManager.has2d := true;
     ComplexityManager.pixel := fun _ _ =>
       {| ComplexityManager.red := level; ComplexityManager.green := level;
          ComplexityManager.blue := level; ComplexityManager.opacity := 255 |};
     ComplexityManager.overlays := [] |}.

(** A square root that is exact on squares of rationals. *)
Definition exactSqrt (q : Q) : Q := Z.sqrt (Qnum q) # Pos.sqrt (Qden q).

(** The manager after it has sampled a black frame. *)
Definition seen_black : ComplexityManager.Manager :=
  {| ComplexityManager.previousFrameData :=
       Some (ComplexityManager.getImageData (flat 0) 128 128);
     ComplexityManager.complexityHistory := [0%Q];
     ComplexityManager.maxHistorySize := 30;
     ComplexityManager.isAnalyzing := true;
     ComplexityManager.analysisIntervalId := Some 1%positive |}.

(** The complexity options the orchestrator configures. *)
Definition tuned : ComplexityInjectionOptions :=
  {| targetComplexity := Some 0.3%Q; complexityType := Some adaptive;
     enableAnalysis := None; minComplexityThreshold := Some 0.15%Q;
     maxIntensity := Some 0.2%Q; analysisInterval := None |}.

End Sample.

(** * Properties *)

(** ** Blitting *)


Lemma inject_Z_pos (n : Z) : 0 < n -> (0 < inject_Z n)%Q.
Proof. intros H. change 0%Q with (inject_Z 0). now rewrite <- Zlt_Qlt. Qed.






Lemma blitSource_cases dom source alpha o :
  blitSource dom source alpha o = log_blit source alpha o \/
  exists ctx cv,
    outputCtx o = Some ctx /\ outputCanvas o = Some cv /\
    intrinsicWidth (dom (element source)) <> 0 /\
    intrinsicHeight (dom (element source)) <> 0 /\
    blitSource dom source alpha o =
    set_ctx (Some (drawWithAlpha dom (element source) alpha
                     (destination (cwidth cv) (cheight cv)
                        (intrinsicWidth (dom (element source)))
                        (intrinsicHeight (dom (element source)))) ctx))
            (log_blit source alpha o).
Proof.
  unfold blitSource. cbn [outputCtx outputCanvas log_blit].
  destruct (outputCtx o) as [ctx |]; [| now left].
  destruct (outputCanvas o) as [cv |]; [| now left].
  destruct (intrinsicWidth (dom (element source)) =? 0) eqn:Ew; [now left |].
  destruct (intrinsicHeight (dom (element source)) =? 0) eqn:Eh; [now left |].
  right. exists ctx, cv. cbn [orb]. repeat split; try lia.
Qed.

Lemma drawWithAlpha_raises dom el alpha rect ctx :
  drawable (dom el) = false -> drawWithAlpha dom el alpha rect ctx = ctx.
Proof.
  intros Hd. destruct rect as [[[dx dy] dw] dh]. unfold drawWithAlpha, drawImage.
  rewrite Hd. destruct ctx; reflexivity.
Qed.

Lemma drawWithAlpha_draws dom el alpha dx dy dw dh ctx :
  drawable (dom el) = true ->
  drawWithAlpha dom el alpha (dx, dy, dw, dh) ctx =
  paint (DrawImage el (Qmax 0 (Qmin 1 alpha)) dx dy dw dh) ctx.
Proof.
  intros Hd. unfold drawWithAlpha, drawImage. rewrite Hd. destruct ctx; reflexivity.
Qed.

Lemma clamp_unit (alpha : Q) : (0 <= Qmax 0 (Qmin 1 alpha) <= 1)%Q.
Proof.
  split; [apply Q.le_max_l |].
  apply Q.max_lub; [discriminate | apply Q.le_min_l].
Qed.


(** C10: whatever the alpha argument, and whether or not the draw raises, a
    blit leaves the context's global alpha (and its other drawing state) as it
    found it; the clamped alpha of the call is only the alpha of the one image
    it draws, and a draw that raises leaves the whole context unchanged.  The
    orchestrator changes in nothing but its context and the call trace. *)
Theorem blitSource_restores_globalAlpha dom source alpha o :
  let o' := blitSource dom source alpha o in
  option_map globalAlpha (outputCtx o') = option_map globalAlpha (outputCtx o) /\
  option_map globalCompositeOperation (outputCtx o') =
    option_map globalCompositeOperation (outputCtx o) /\
  option_map fillStyle (outputCtx o') = option_map fillStyle (outputCtx o) /\
  (drawable (dom (element source)) = false -> outputCtx o' = outputCtx o) /\
  (option_map painted (outputCtx o') = option_map painted (outputCtx o) \/
   exists dx dy dw dh,
     option_map painted (outputCtx o') =
     option_map (fun c => painted c ++ [DrawImage (element source) (Qmax 0 (Qmin 1 alpha)) dx dy dw dh])
                (outputCtx o)) /\
  (0 <= Qmax 0 (Qmin 1 alpha) <= 1)%Q /\
  o' = set_ctx (outputCtx o') (log_blit source alpha o).
Proof.
  intros o'. subst o'.
  destruct (blitSource_cases dom source alpha o) as [E | (c & v & Ec & Ev & _ & _ & E)];
    rewrite E; cbn [outputCtx set_ctx log_blit].
  - repeat split; try reflexivity; try apply clamp_unit. now left.
  - rewrite Ec. cbn [option_map].
    destruct (destination _ _ _ _) as [[[dx dy] dw] dh].
    destruct (drawable (dom (element source))) eqn:Hd.
    + rewrite drawWithAlpha_draws by exact Hd.
      repeat split; try reflexivity; try apply clamp_unit; try discriminate.
      right. exists dx, dy, dw, dh. reflexivity.
    + rewrite drawWithAlpha_raises by exact Hd.
      repeat split; try reflexivity; try apply clamp_unit. now left.
Qed.

Example destination_camera_on_square :
  destination 512 512 1280 720 = (0, 112, 512, 288).
Proof. reflexivity. Qed.


(** ** Crossfading *)

Lemma blitSource_fields dom s a o :
  let o' := blitSource dom s a o in
  outputCanvas o' = outputCanvas o /\
  (outputCtx o <> None -> outputCtx o' <> None) /\
  currentSource o' = currentSource o /\
  pendingSource o' = pendingSource o /\
  crossfadeStartMs o' = crossfadeStartMs o /\
  crossfadeDurationMs o' = crossfadeDurationMs o /\
  blits o' = blits o ++ [(s, a)].
Proof.
  intros o'. subst o'.
  destruct (blitSource_cases dom s a o) as [E | (c & v & _ & _ & _ & _ & E)];
    rewrite E; cbn; repeat split; auto; discriminate.
Qed.

Lemma finish_fields cv a o :
  let o' := set_animationId a (requestFrame (markFrame cv o)) in
  currentSource o' = currentSource o /\ pendingSource o' = pendingSource o /\
  crossfadeStartMs o' = crossfadeStartMs o /\
  crossfadeDurationMs o' = crossfadeDurationMs o /\ blits o' = blits o.
Proof. unfold markFrame. destruct (outputCtx o); repeat split. Qed.




(** ** Foreground and background pumps *)

Lemma blitSource_background dom s a o : background (blitSource dom s a o) = background o.
Proof.
  destruct (blitSource_cases dom s a o) as [E | (c & v & _ & _ & _ & _ & E)];
    rewrite E; reflexivity.
Qed.

Lemma set_sources_background c p f o : background (set_sources c p f o) = background o.
Proof. reflexivity. Qed.

Lemma composite_background dom now o : background (composite dom now o) = background o.
Proof.
  unfold composite.
  destruct (pendingSource o) as [p |], (crossfadeStartMs o) as [s |],
           (currentSource o) as [c |]; cbv zeta; try reflexivity;
    repeat match goal with
           | |- context [if ?b then _ else _] => destruct b
           end;
    rewrite ?set_sources_background, ?blitSource_background; reflexivity.
Qed.

Lemma draw_background dom now o tm : background (fst (draw dom now o tm)) = background o.
Proof.
  unfold draw. destruct (outputCanvas o) as [cv |]; [| reflexivity].
  destruct (outputCtx o) as [ctx |]; [| reflexivity].
  cbv zeta. unfold requestAnimationFrame. cbn [fst].
  transitivity (background (composite dom now (armCrossfade dom now (clearSurface cv ctx o)))).
  - unfold markFrame. destruct (outputCtx _); reflexivity.
  - rewrite composite_background. unfold armCrossfade.
    destruct (pendingSource _); [| reflexivity].
    destruct (isSourceReady _ _); [| reflexivity].
    destruct (crossfadeStartMs _); reflexivity.
Qed.

Lemma animationFrame_background dom now w :
  background (orch (animationFrame dom now w)) = background (orch w) /\
  documentHidden (animationFrame dom now w) = documentHidden w.
Proof.
  unfold animationFrame.
  set (tm0 := {| nextHandle := _; intervals := _; frames := [] |}).
  assert (H : forall (pending : list Handle) o tm,
             background (fst (fold_left (fun acc _ => draw dom now (fst acc) (snd acc))
                                        pending (o, tm))) = background o).
  { induction pending as [| p rest IH]; intros o tm; [reflexivity |].
    cbn [fold_left fst snd]. destruct (draw dom now o tm) as [o1 tm1] eqn:E.
    rewrite IH. change o1 with (fst (o1, tm1)). rewrite <- E. apply draw_background. }
  specialize (H (frames (timers w)) (orch w) tm0).
  destruct (fold_left _ _ _) as [o tm]. split; [exact H | reflexivity].
Qed.

Lemma start_background w :
  background (orch (start w)) = background (orch w) /\
  documentHidden (start w) = documentHidden w.
Proof.
  unfold start.
  destruct (animationId (orch w)), (outputCanvas (orch w)), (outputCtx (orch w));
    split; reflexivity.
Qed.

Lemma stopBackgroundStreaming_background w :
  background (orch (stopBackgroundStreaming w)) =
    (None, backgroundOptions (orch w), visibilityHandler (orch w)) /\
  documentHidden (stopBackgroundStreaming w) = documentHidden w /\
  animationId (orch (stopBackgroundStreaming w)) = animationId (orch w) /\
  outputCanvas (orch (stopBackgroundStreaming w)) = outputCanvas (orch w) /\
  outputCtx (orch (stopBackgroundStreaming w)) = outputCtx (orch w).
Proof.
  unfold stopBackgroundStreaming.
  destruct (backgroundTimer (orch w)) eqn:Et;
    destruct (enabled (backgroundOptions (orch w)));
    try destruct (ComplexityManager.stopMonitoring _ _);
    unfold background; cbn; rewrite ?Et; repeat split; reflexivity.
Qed.

Lemma startBackgroundStreaming_background w :
  backgroundOptions (orch (startBackgroundStreaming w)) = backgroundOptions (orch w) /\
  visibilityHandler (orch (startBackgroundStreaming w)) = visibilityHandler (orch w) /\
  documentHidden (startBackgroundStreaming w) = documentHidden w /\
  animationId (orch (startBackgroundStreaming w)) = animationId (orch w) /\
  frames (timers (startBackgroundStreaming w)) = frames (timers w) /\
  (backgroundOptions (orch w) = None -> startBackgroundStreaming w = w) /\
  (outputCanvas (orch w) <> None -> backgroundOptions (orch w) <> None ->
   backgroundTimer (orch (startBackgroundStreaming w)) <> None).
Proof.
  unfold startBackgroundStreaming.
  destruct (outputCanvas (orch w)) as [cv |] eqn:Ecv;
    destruct (backgroundOptions (orch w)) as [opts |] eqn:Eo;
    destruct (backgroundTimer (orch w)) as [h |] eqn:Et;
    try (repeat split; try reflexivity; try congruence; fail).
  destruct (enableComplexityManagement opts).
  - unfold ComplexityManager.startMonitoring.
    destruct (ComplexityManager.isAnalyzing (monitor w)); cbn;
      repeat split; try reflexivity; try congruence.
  - cbn. repeat split; try reflexivity; try congruence.
Qed.

Lemma pump_invariant_ext w w' :
  background (orch w') = background (orch w) -> documentHidden w' = documentHidden w ->
  pump_invariant w -> pump_invariant w'.
Proof.
  unfold pump_invariant, background. intros E Eh. injection E as -> -> ->. now rewrite Eh.
Qed.

Lemma start_animationId w :
  outputCanvas (orch w) <> None -> outputCtx (orch w) <> None ->
  animationId (orch (start w)) <> None.
Proof.
  unfold start. intros Hcv Hctx.
  destruct (animationId (orch w)) eqn:Ea; [now rewrite Ea |].
  destruct (outputCanvas (orch w)); [| contradiction].
  destruct (outputCtx (orch w)); [| contradiction]. discriminate.
Qed.

(** The listener's branch for a page that has become visible. *)
Lemma onVisibilityChange_visible dom w :
  backgroundOptions (orch w) <> None -> documentHidden w = false ->
  let w' := onVisibilityChange dom w in
  background (orch w') = (None, backgroundOptions (orch w), visibilityHandler (orch w)) /\
  documentHidden w' = false /\
  (outputCanvas (orch w) <> None -> outputCtx (orch w) <> None ->
   animationId (orch w') <> None).
Proof.
  intros Ho Hh. unfold onVisibilityChange.
  destruct (backgroundOptions (orch w)) eqn:Eo; [| contradiction]. rewrite Hh.
  destruct (stopBackgroundStreaming_background w) as (Sb & Sh & Sa & Scv & Sctx).
  destruct (start_background (stopBackgroundStreaming w)) as (Tb & Th).
  pose proof (start_animationId (stopBackgroundStreaming w)) as Ta.
  rewrite Scv, Sctx in Ta. rewrite Sb, Eo in Tb. rewrite Sh, Hh in Th.
  set (w1 := start (stopBackgroundStreaming w)) in *.
  cbv zeta.
  destruct (currentSource (orch w1)) as [s |]; [destruct (kind s) |];
    try destruct (paused (dom (element s))); cbn [orch outputStream];
    destruct (outputStream (orch w1)); cbn; auto.
Qed.

Lemma setBackgroundOptions_invariant options w :
  pump_invariant (setBackgroundOptions options w).
Proof.
  unfold setBackgroundOptions, updateBackgroundStreaming.
  cbn [orch with_orch backgroundOptions set_background].
  destruct options as [opts |].
  - cbn [orch with_orch documentHidden].
    set (w2 := with_orch _ _).
    destruct (documentHidden w) eqn:Eh.
    + destruct (startBackgroundStreaming_background w2) as (So & Sv & Sh & _).
      unfold pump_invariant. rewrite So, Sv, Sh. subst w2. cbn. rewrite Eh.
      repeat split; discriminate.
    + destruct (stopBackgroundStreaming_background w2) as (Sb & Sh & _).
      unfold pump_invariant, background in *. injection Sb as -> -> ->.
      repeat split; auto; subst w2; cbn; discriminate.
  - set (w1 := with_orch _ _).
    destruct (stopBackgroundStreaming_background w1) as (Sb & Sh & _).
    unfold pump_invariant, background in *. injection Sb as -> -> ->.
    repeat split; auto; subst w1; cbn; discriminate.
Qed.

Lemma ensureInitialized_invariant ctxAvailable w :
  pump_invariant w -> pump_invariant (ensureInitialized ctxAvailable w).
Proof.
  intros H. unfold ensureInitialized.
  destruct (initialized (orch w)); [exact H |].
  destruct ctxAvailable; [apply setBackgroundOptions_invariant | exact H].
Qed.

Lemma stop_background w :
  background (orch (stop w)) = (None, backgroundOptions (orch w), visibilityHandler (orch w)) /\
  documentHidden (stop w) = documentHidden w.
Proof.
  unfold stop.
  set (w1 := match animationId (orch w) with Some _ => _ | None => _ end).
  assert (E : background (orch w1) = background (orch w) /\ documentHidden w1 = documentHidden w)
    by (subst w1; destruct (animationId (orch w)); split; reflexivity).
  destruct E as (Eb & Eh).
  destruct (stopBackgroundStreaming_background w1) as (Sb & Sh & _).
  unfold background in *. injection Eb as _ Eo Ev. rewrite Sb, Sh, Eo, Ev, Eh. split; reflexivity.
Qed.

Lemma reachable_pump_invariant w : reachable w -> pump_invariant w.
Proof.
  induction 1 as [| ctx source w _ IH | dom now w _ IH | dom hidden w _ IH
                  | options w _ IH | w _ IH | w _ IH | ctx w _ IH | w _ IH | w _ IH
                  | w _ IH _].
  - repeat split; try reflexivity; discriminate.
  - apply (ensureInitialized_invariant ctx) in IH. unfold setSource.
    set (w1 := ensureInitialized ctx w) in *. cbv zeta.
    cbn [animationId set_sources].
    destruct (animationId (orch w1)).
    + revert IH. apply pump_invariant_ext; reflexivity.
    + destruct (start_background (with_orch (set_sources (currentSource (orch w1))
                                                         (Some source) None (orch w1)) w1))
        as (Eb & Eh).
      revert IH. apply pump_invariant_ext; [exact Eb | exact Eh].
  - destruct (animationFrame_background dom now w) as (Eb & Eh).
    revert IH. now apply pump_invariant_ext.
  - unfold visibilityChange. cbn [orch].
    set (w1 := {| orch := orch w; documentHidden := hidden |}).
    destruct IH as (I1 & I2 & I3).
    destruct (visibilityHandler (orch w)) eqn:Ev.
    + destruct (backgroundOptions (orch w)) as [opts |] eqn:Eo;
        [| now destruct (I3 eq_refl)].
      destruct hidden.
      * unfold onVisibilityChange. cbn [orch w1 documentHidden]. rewrite Eo.
        destruct (startBackgroundStreaming_background w1) as (So & Sv & Sh & _).
        unfold pump_invariant. rewrite So, Sv, Sh. cbn. rewrite Eo, Ev.
        repeat split; discriminate.
      * destruct (onVisibilityChange_visible dom w1) as (Eb & Eh & _);
          [cbn; rewrite Eo; discriminate | reflexivity |].
        unfold pump_invariant, background in *. cbv zeta in Eb, Eh.
        injection Eb as -> -> ->. cbn. rewrite Eo, Ev. repeat split; auto; discriminate.
    + unfold pump_invariant. cbn. rewrite Ev, (I2 eq_refl). repeat split; auto; discriminate.
  - apply setBackgroundOptions_invariant.
  - destruct (stop_background w) as (Sb & Sh). destruct IH as (I1 & I2 & I3).
    unfold pump_invariant, background in *. injection Sb as -> -> ->. repeat split; auto.
  - unfold kickTimeout. destruct (kickChains w); [exact IH |].
    revert IH. apply pump_invariant_ext; reflexivity.
  - apply ensureInitialized_invariant. exact IH.
  - destruct (start_background w) as (Eb & Eh). revert IH. now apply pump_invariant_ext.
  - destruct (stop_background w) as (Sb & Sh).
    unfold destroy, pump_invariant, background in *. cbn. injection Sb as -> _ _.
    repeat split; auto; discriminate.
  - revert IH. apply pump_invariant_ext; reflexivity.
Qed.

(** C2, as the code has it: while the page is visible the background timer
    is never active, so only the foreground pump can drive ticking.  With the
    visibility listener installed and the output surface in place: when the
    page becomes hidden the listener starts the background timer and leaves
    the foreground pump as it is, its animation-frame handle neither cancelled
    nor cleared; when the page becomes visible the listener stops the
    background timer and calls [start], after which the foreground pump holds
    a handle. *)
Theorem visibility_switches_background_pump dom w :
  reachable w ->
  (documentHidden w = false -> backgroundActive w = false) /\
  (visibilityHandler (orch w) = true ->
   outputCanvas (orch w) <> None -> outputCtx (orch w) <> None ->
   let wh := visibilityChange dom true w in
   let wv := visibilityChange dom false w in
   backgroundTimer (orch wh) <> None /\
   animationId (orch wh) = animationId (orch w) /\
   frames (timers wh) = frames (timers w) /\
   backgroundTimer (orch wv) = None /\
   backgroundActive wv = false /\
   animationId (orch wv) <> None).
Proof.
  intros Hr. destruct (reachable_pump_invariant w Hr) as (I1 & I2 & I3). split.
  - intros Hv. unfold backgroundActive. now rewrite (I1 Hv).
  - intros Ev Hcv Hctx wh wv. pose proof (I3 Ev) as Ho.
    subst wh wv. unfold visibilityChange. cbn [orch]. rewrite Ev.
    destruct (backgroundOptions (orch w)) as [opts |] eqn:Eo; [| contradiction].
    set (w1 := {| orch := orch w; documentHidden := true |}).
    set (w0 := {| orch := orch w; documentHidden := false |}).
    assert (Eh : onVisibilityChange dom w1 = startBackgroundStreaming w1)
      by (unfold onVisibilityChange; cbn [orch w1 documentHidden]; now rewrite Eo).
    rewrite Eh.
    destruct (startBackgroundStreaming_background w1) as (_ & _ & _ & Sa & Sf & _ & St).
    destruct (onVisibilityChange_visible dom w0) as (Eb & _ & Ea);
      [cbn; rewrite Eo; discriminate | reflexivity |].
    cbv zeta in Eb, Ea. unfold background in Eb. injection Eb as Et _ _.
    split; [apply St; cbn; [exact Hcv | rewrite Eo; discriminate] |].
    split; [exact Sa |]. split; [exact Sf |]. split; [exact Et |].
    split; [unfold backgroundActive; now rewrite Et | exact (Ea Hcv Hctx)].
Qed.

Lemma camera_hidden_reachable : reachable Sample.camera_hidden.
Proof.
  unfold Sample.camera_hidden, Sample.camera_live.
  apply reach_visibilityChange, reach_animationFrame, reach_setSource, reach_initial.
Qed.

(** C2 as stated fails: with the camera live and the page hidden, the
    animation loop still holds its pending handle while the background timer
    runs. *)
Lemma both_pumps_active_when_hidden :
  reachable Sample.camera_hidden /\
  documentHidden Sample.camera_hidden = true /\
  foregroundActive Sample.camera_hidden = true /\
  backgroundActive Sample.camera_hidden = true.
Proof.
  split; [exact camera_hidden_reachable |]. repeat split.
Qed.

Lemma visibility_switches_background_pump_witness :
  reachable Sample.camera_live /\
  visibilityHandler (orch Sample.camera_live) = true /\
  backgroundTimer (orch (visibilityChange Sample.page true Sample.camera_live)) <> None /\
  animationId (orch (visibilityChange Sample.page true Sample.camera_live)) =
    animationId (orch Sample.camera_live) /\
  backgroundTimer (orch (visibilityChange Sample.page false Sample.camera_live)) = None /\
  animationId (orch (visibilityChange Sample.page false Sample.camera_live)) <> None.
Proof.
  assert (Hr : reachable Sample.camera_live)
    by (apply reach_animationFrame, reach_setSource, reach_initial).
  destruct (visibility_switches_background_pump Sample.page Sample.camera_live Hr) as (_ & H).
  destruct (H ltac:(reflexivity) ltac:(discriminate) ltac:(discriminate))
    as (Ht & Ha & _ & Hv & _ & Hf).
  split; [exact Hr |]. split; [reflexivity |]. repeat split; assumption.
Defined.

(** ** The crossfade duration *)

Lemma draw_duration dom now o tm :
  crossfadeDurationMs (fst (draw dom now o tm)) = crossfadeDurationMs o.
Proof.
  unfold draw. destruct (outputCanvas o) as [cv |]; [| reflexivity].
  destruct (outputCtx o) as [ctx |]; [| reflexivity].
  cbv zeta. unfold requestAnimationFrame. cbn [fst].
  destruct (finish_fields cv (Some (nextHandle tm))
              (composite dom now (armCrossfade dom now (clearSurface cv ctx o))))
    as (_ & _ & _ & E & _).
  cbv zeta in E. rewrite E. clear E.
  transitivity (crossfadeDurationMs (armCrossfade dom now (clearSurface cv ctx o))).
  - set (o1 := armCrossfade dom now (clearSurface cv ctx o)). unfold composite.
    destruct (pendingSource o1) as [p |], (crossfadeStartMs o1) as [s |],
             (currentSource o1) as [c |]; cbv zeta; try reflexivity;
      repeat match goal with
             | |- context [if ?b then _ else _] => destruct b
             end;
      cbn [crossfadeDurationMs set_sources];
      repeat match goal with
             | |- context [crossfadeDurationMs (blitSource ?d ?s ?a ?x)] =>
               let H := fresh in
               destruct (blitSource_fields d s a x) as (_ & _ & _ & _ & _ & H & _);
               cbv zeta in H; rewrite H; clear H
             end; reflexivity.
  - unfold armCrossfade, clearSurface. cbn [pendingSource set_ctx crossfadeStartMs].
    destruct (pendingSource o); [| reflexivity].
    destruct (isSourceReady _ _); [| reflexivity].
    destruct (crossfadeStartMs o); reflexivity.
Qed.

Lemma animationFrame_duration dom now w :
  crossfadeDurationMs (orch (animationFrame dom now w)) = crossfadeDurationMs (orch w).
Proof.
  unfold animationFrame.
  set (tm0 := {| nextHandle := _; intervals := _; frames := [] |}).
  assert (H : forall (pending : list Handle) o tm,
             crossfadeDurationMs
               (fst (fold_left (fun acc _ => draw dom now (fst acc) (snd acc)) pending (o, tm)))
             = crossfadeDurationMs o).
  { induction pending as [| p rest IH]; intros o tm; [reflexivity |].
    cbn [fold_left fst snd]. destruct (draw dom now o tm) as [o1 tm1] eqn:E.
    rewrite IH. change o1 with (fst (o1, tm1)). rewrite <- E. apply draw_duration. }
  specialize (H (frames (timers w)) (orch w) tm0).
  destruct (fold_left _ _ _) as [o tm]. exact H.
Qed.

Lemma start_duration w : crossfadeDurationMs (orch (start w)) = crossfadeDurationMs (orch w).
Proof.
  unfold start.
  destruct (animationId (orch w)), (outputCanvas (orch w)), (outputCtx (orch w)); reflexivity.
Qed.

Lemma stopBackgroundStreaming_duration w :
  crossfadeDurationMs (orch (stopBackgroundStreaming w)) = crossfadeDurationMs (orch w).
Proof.
  unfold stopBackgroundStreaming.
  destruct (backgroundTimer (orch w)); destruct (enabled (backgroundOptions (orch w)));
    try destruct (ComplexityManager.stopMonitoring _ _); reflexivity.
Qed.

Lemma startBackgroundStreaming_duration w :
  crossfadeDurationMs (orch (startBackgroundStreaming w)) = crossfadeDurationMs (orch w).
Proof.
  unfold startBackgroundStreaming.
  destruct (outputCanvas (orch w)); [| reflexivity].
  destruct (backgroundOptions (orch w)) as [opts |]; [| reflexivity].
  destruct (backgroundTimer (orch w)); [reflexivity |].
  destruct (enableComplexityManagement opts); [| reflexivity].
  destruct (ComplexityManager.startMonitoring _ _ _ _). reflexivity.
Qed.

Lemma setBackgroundOptions_duration options w :
  crossfadeDurationMs (orch (setBackgroundOptions options w)) = crossfadeDurationMs (orch w).
Proof.
  unfold setBackgroundOptions, updateBackgroundStreaming.
  cbn [orch with_orch backgroundOptions set_background].
  destruct options as [opts |].
  - cbn [orch with_orch documentHidden]. destruct (documentHidden w).
    + now rewrite startBackgroundStreaming_duration.
    + now rewrite stopBackgroundStreaming_duration.
  - now rewrite stopBackgroundStreaming_duration.
Qed.

Lemma ensureInitialized_duration ctxAvailable w :
  crossfadeDurationMs (orch (ensureInitialized ctxAvailable w)) = crossfadeDurationMs (orch w).
Proof.
  unfold ensureInitialized. destruct (initialized (orch w)); [reflexivity |].
  destruct ctxAvailable; [| reflexivity]. cbn [negb]. now rewrite setBackgroundOptions_duration.
Qed.

Lemma stop_duration w : crossfadeDurationMs (orch (stop w)) = crossfadeDurationMs (orch w).
Proof.
  unfold stop. rewrite stopBackgroundStreaming_duration.
  destruct (animationId (orch w)); reflexivity.
Qed.

(** The crossfade always lasts the 200ms the orchestrator starts out with. *)
Lemma reachable_duration w : reachable w -> crossfadeDurationMs (orch w) = 200%Q.
Proof.
  induction 1 as [| ctx source w _ IH | dom now w _ IH | dom hidden w _ IH
                  | options w _ IH | w _ IH | w _ IH | ctx w _ IH | w _ IH | w _ IH
                  | w _ IH _].
  - reflexivity.
  - unfold setSource. cbv zeta. cbn [animationId set_sources].
    destruct (animationId (orch (ensureInitialized ctx w)));
      [| rewrite start_duration]; cbn; now rewrite ensureInitialized_duration.
  - now rewrite animationFrame_duration.
  - unfold visibilityChange. cbn [orch]. destruct (visibilityHandler (orch w)); [| exact IH].
    unfold onVisibilityChange. cbn [orch documentHidden].
    destruct (backgroundOptions (orch w)); [| exact IH].
    destruct hidden; [now rewrite startBackgroundStreaming_duration |].
    cbv zeta.
    set (w1 := start (stopBackgroundStreaming _)).
    assert (E1 : crossfadeDurationMs (orch w1) = 200%Q)
      by (subst w1; now rewrite start_duration, stopBackgroundStreaming_duration).
    destruct (currentSource (orch w1)) as [s |]; [destruct (kind s) |];
      try destruct (paused (dom (element s))); cbn [orch outputStream];
      destruct (outputStream (orch w1)); exact E1.
  - now rewrite setBackgroundOptions_duration.
  - now rewrite stop_duration.
  - unfold kickTimeout. destruct (kickChains w); exact IH.
  - cbn. now rewrite ensureInitialized_duration.
  - now rewrite start_duration.
  - unfold destroy. cbn. now rewrite stop_duration.
  - exact IH.
Qed.

(** ** Monitoring *)

Lemma analyzeFrameComplexity_keeps_timer sqrt st canvas metrics st' :
  ComplexityManager.analyzeFrameComplexity sqrt st canvas = Some (metrics, st') ->
  ComplexityManager.isAnalyzing st' = ComplexityManager.isAnalyzing st /\
  ComplexityManager.analysisIntervalId st' = ComplexityManager.analysisIntervalId st.
Proof.
  unfold ComplexityManager.analyzeFrameComplexity.
  destruct (negb (ComplexityManager.has2d canvas)).
  - intros [= _ <-]. split; reflexivity.
  - destruct (Qeq_bool _ 0); [discriminate |]. intros [= _ <-]. split; reflexivity.
Qed.

Lemma injectComplexity_keeps_timer sqrt st canvas options st' canvas' :
  ComplexityManager.injectComplexity sqrt st canvas options = Some (st', canvas') ->
  ComplexityManager.isAnalyzing st' = ComplexityManager.isAnalyzing st /\
  ComplexityManager.analysisIntervalId st' = ComplexityManager.analysisIntervalId st.
Proof.
  unfold ComplexityManager.injectComplexity.
  destruct (negb (ComplexityManager.has2d canvas)); [intros [= <- _]; split; reflexivity |].
  destruct (ComplexityManager.analyzeFrameComplexity sqrt st canvas) as [[m s1] |] eqn:E;
    [| discriminate].
  apply analyzeFrameComplexity_keeps_timer in E.
  destruct (ComplexityManager.isLowComplexity m); [destruct (Qltb _ _) |];
    intros [= <- _]; exact E.
Qed.

Lemma filter_swap {A} (f g : A -> bool) (l : list A) :
  filter f (filter g l) = filter g (filter f l).
Proof.
  induction l as [| a l IH]; [reflexivity |].
  simpl. destruct (g a) eqn:Eg, (f a) eqn:Ef; simpl; rewrite ?Eg, ?Ef, IH; reflexivity.
Qed.

Lemma analysisTimers_clearInterval h tm :
  analysisTimers (clearInterval h tm) =
  filter (fun e => negb (Pos.eqb (fst e) h)) (analysisTimers tm).
Proof. unfold analysisTimers, clearInterval. cbn [intervals]. apply filter_swap. Qed.

Lemma monitoring_invariant st tm : monitoring st tm -> monitor_invariant st tm.
Proof.
  unfold monitor_invariant.
  induction 1 as [| cv options st tm _ [I1 I2] | st tm _ [I1 I2] | st tm _ [I1 I2]
                  | sqrt canvas options st tm st' canvas' _ [I1 I2] E
                  | sqrt canvas st tm metrics st' _ [I1 I2] E
                  | period st tm _ [I1 I2] | h st tm _ [I1 I2] Hne
                  | st tm _ [I1 I2] | h st tm _ [I1 I2]].
  - split; reflexivity.
  - unfold ComplexityManager.startMonitoring.
    destruct (ComplexityManager.isAnalyzing st) eqn:Ea; [cbn [fst snd]; rewrite Ea; split; assumption |].
    destruct (ComplexityManager.analysisIntervalId st); [discriminate |].
    cbn. split; [reflexivity |]. unfold analysisTimers in *. cbn. now rewrite I2.
  - unfold ComplexityManager.stopMonitoring.
    destruct (ComplexityManager.analysisIntervalId st) as [h |];
      cbn [fst snd ComplexityManager.isAnalyzing ComplexityManager.analysisIntervalId];
      [| split; auto].
    split; [reflexivity |]. rewrite analysisTimers_clearInterval.
    destruct (analysisTimers tm) as [| e [| e' rest]]; try discriminate.
    destruct e as [he xe]. injection I2 as E. cbn in E. subst he. cbn.
    now rewrite Pos.eqb_refl.
  - unfold ComplexityManager.reset, ComplexityManager.stopMonitoring.
    destruct (ComplexityManager.analysisIntervalId st) as [h |];
      cbn [fst snd ComplexityManager.isAnalyzing ComplexityManager.analysisIntervalId];
      [| split; auto].
    split; [reflexivity |]. rewrite analysisTimers_clearInterval.
    destruct (analysisTimers tm) as [| e [| e' rest]]; try discriminate.
    destruct e as [he xe]. injection I2 as E. cbn in E. subst he. cbn.
    now rewrite Pos.eqb_refl.
  - apply injectComplexity_keeps_timer in E. destruct E as [-> ->]. split; assumption.
  - apply analyzeFrameComplexity_keeps_timer in E. destruct E as [-> ->]. split; assumption.
  - split; assumption.
  - split; [assumption |]. rewrite analysisTimers_clearInterval.
    destruct (ComplexityManager.analysisIntervalId st) as [h0 |].
    + destruct (analysisTimers tm) as [| e [| e' rest]]; try discriminate.
      destruct e as [he xe]. injection I2 as E. cbn in E. subst he. cbn.
      destruct (Pos.eqb_spec h0 h); [congruence |]. reflexivity.
    + apply map_eq_nil in I2. now rewrite I2.
  - split; assumption.
  - split; assumption.
Qed.

(** C9: a second [startMonitoring] right after a first changes nothing, and
    exactly one analysis timer is active after the two calls;
    [stopMonitoring] while not analyzing leaves the manager and the timers as
    they are; [stopMonitoring] after [startMonitoring] clears the periodic
    timer and leaves the manager idle. *)
Theorem startMonitoring_idempotent_stopMonitoring_safe cv1 options1 cv2 options2 st tm :
  monitoring st tm ->
  let once := ComplexityManager.startMonitoring cv1 options1 st tm in
  let twice := ComplexityManager.startMonitoring cv2 options2 (fst once) (snd once) in
  let stopped := ComplexityManager.stopMonitoring (fst once) (snd once) in
  twice = once /\
  length (analysisTimers (snd twice)) = 1%nat /\
  ComplexityManager.isAnalyzing (fst twice) = true /\
  (ComplexityManager.isAnalyzing st = false ->
   ComplexityManager.stopMonitoring st tm = (st, tm)) /\
  idle_monitor (fst stopped) (snd stopped).
Proof.
  intros Hm once twice stopped.
  pose proof (monitoring_invariant _ _ (mon_start cv1 options1 st tm Hm)) as [J1 J2].
  pose proof (monitoring_invariant _ _ (mon_stop _ _ (mon_start cv1 options1 st tm Hm)))
    as [K1 K2].
  pose proof (monitoring_invariant _ _ Hm) as [I1 I2].
  fold once in J1, J2, K1, K2. fold stopped in K1, K2.
  assert (Ha : ComplexityManager.isAnalyzing (fst once) = true).
  { subst once. unfold ComplexityManager.startMonitoring.
    destruct (ComplexityManager.isAnalyzing st) eqn:E; [exact E | reflexivity]. }
  assert (Et : twice = once).
  { subst twice. unfold ComplexityManager.startMonitoring at 1. rewrite Ha.
    now destruct once. }
  split; [exact Et |]. rewrite Et.
  rewrite Ha in J1.
  destruct (ComplexityManager.analysisIntervalId (fst once)) as [h |] eqn:Eh; [| discriminate].
  split; [now rewrite <- (length_map fst), J2 |].
  split; [exact Ha |].
  split.
  - intros Hidle. rewrite Hidle in I1.
    unfold ComplexityManager.stopMonitoring.
    destruct (ComplexityManager.analysisIntervalId st) eqn:Ei; [discriminate |].
    destruct st; cbn in *. now subst.
  - assert (Es : ComplexityManager.analysisIntervalId (fst stopped) = None).
    { subst stopped. unfold ComplexityManager.stopMonitoring. rewrite Eh. reflexivity. }
    rewrite Es in K1, K2. apply map_eq_nil in K2. repeat split; assumption.
Qed.

Lemma startMonitoring_idempotent_stopMonitoring_safe_witness :
  monitoring ComplexityManager.initial noTimers /\
  let once := ComplexityManager.startMonitoring OutputCanvas noOptions
                ComplexityManager.initial noTimers in
  ComplexityManager.startMonitoring (SourceCanvas 1) noOptions (fst once) (snd once) = once /\
  length (analysisTimers (snd once)) = 1%nat.
Proof.
  split; [exact mon_initial |].
  destruct (startMonitoring_idempotent_stopMonitoring_safe
              OutputCanvas noOptions (SourceCanvas 1) noOptions
              ComplexityManager.initial noTimers mon_initial) as (H1 & H2 & _).
  cbv zeta in *. split; [exact H1 |]. rewrite H1 in H2. exact H2.
Defined.

(** ** Stream validation *)

Lemma errorTag_distinct c1 c2 : errorTag c1 = errorTag c2 -> c1 = c2.
Proof. destruct c1, c2; intros E; try reflexivity; discriminate E. Qed.

Lemma performValidation_shortCircuit now stream minStable timeout audio :
  Stabilizer.performValidation now stream minStable timeout audio =
  match shortCircuit stream audio with
  | Some cause => inl (Stabilizer.failure (errorTag cause))
  | None => inr {| Stabilizer.startTime := now; Stabilizer.frames := 0;
                   Stabilizer.lastFrameTime := 0; Stabilizer.needed := minStable;
                   Stabilizer.timeoutAfter := timeout; Stabilizer.attached := true |}
  end.
Proof.
  unfold Stabilizer.performValidation, shortCircuit.
  destruct (Stabilizer.active stream); [| reflexivity]. cbn [negb].
  destruct (Stabilizer.videoTracks stream) as [| first rest]; [reflexivity |].
  cbn [length Nat.eqb].
  destruct audio, (Stabilizer.audioTracks stream) as [| a0 more]; cbn [andb length Nat.eqb];
    try reflexivity; destruct first; reflexivity.
Qed.

(** C5: [validateStreamStability] fails at once, with no play-back sink and
    no timeout created, exactly when the stream is inactive, or has no video
    track, or audio is required and it has no audio track, or its first video
    track is not live; the result then has [isStable = false], [frameCount = 0]
    and the error tag of the cause, and the four tags are distinct.  In every
    other case the call gets a sink with its timeout pending and is not yet
    resolved. *)
Theorem validate_short_circuits now stream options v :
  let audio := default true (Stabilizer.validateAudio options) in
  let v' := Stabilizer.validateStreamStability now stream options v in
  (exists call,
     Stabilizer.calls v' = Stabilizer.calls v ++ [call] /\
     match shortCircuit stream audio with
     | Some cause =>
       Stabilizer.sink call = None /\
       Stabilizer.resolved call =
         Some {| Stabilizer.isStable := false; Stabilizer.frameCount := 0;
                 Stabilizer.timeElapsed := 0; Stabilizer.error := Some (errorTag cause) |}
     | None =>
       Stabilizer.resolved call = None /\
       exists s, Stabilizer.sink call = Some s /\ Stabilizer.attached s = true
     end) /\
  (shortCircuit stream audio <> None <->
   Stabilizer.active stream = false \/
   Stabilizer.videoTracks stream = [] \/
   (audio = true /\ Stabilizer.audioTracks stream = []) \/
   (exists rest, Stabilizer.videoTracks stream = Stabilizer.ended :: rest)) /\
  (forall c1 c2, errorTag c1 = errorTag c2 -> c1 = c2).
Proof.
  intros audio v'. split; [| split; [| exact errorTag_distinct]].
  - subst v'. unfold Stabilizer.validateStreamStability. cbn [Stabilizer.calls].
    fold audio. rewrite performValidation_shortCircuit.
    eexists. split; [reflexivity |].
    destruct (shortCircuit stream audio); cbn; [split; reflexivity |].
    split; [reflexivity |]. eexists. split; reflexivity.
  - unfold shortCircuit.
    destruct (Stabilizer.active stream); cbn [negb]; [| split; [now left | discriminate]].
    destruct (Stabilizer.videoTracks stream) as [| first rest];
      [split; [intros _; right; now left | discriminate] |].
    destruct audio, (Stabilizer.audioTracks stream) as [| a0 more]; cbn [andb];
      try (split; [intros _; right; right; now left | discriminate]);
      destruct first; split; try discriminate; try contradiction;
        try (intros _; right; right; right; now exists rest);
        intros [H | [H | [[H1 H2] | [r H]]]]; discriminate.
Qed.

(** C4, where the code departs from it: a live stream that never advances is validated
    twice, 10ms apart.  The second call aborts the first call's signal, yet no
    [timeupdate] event ever reads it: both timeouts fire and both calls
    resolve with "Validation timeout", none with "Validation aborted". *)
Theorem superseded_validation_times_out :
  let v := Stabilizer.run Stabilizer.initial Sample.twice_stalled in
  let timedOut :=
    {| Stabilizer.isStable := false; Stabilizer.frameCount := 0;
       Stabilizer.timeElapsed := 500; Stabilizer.error := Some "Validation timeout" |} in
  option_map (Stabilizer.isAborted v) (Stabilizer.calls v !! 0%nat) = Some true /\
  Stabilizer.outcomes v = [Some timedOut; Some timedOut] /\
  Stabilizer.isAbortedResult timedOut = false.
Proof. vm_compute. repeat split. Qed.

(** When frames do flow, the superseded call is resolved as aborted by its
    next [timeupdate] and the later call runs to a stable verdict. *)
Lemma superseded_validation_aborts_on_timeupdate :
  let v := Stabilizer.run Stabilizer.initial Sample.twice_flowing in
  map (option_map Stabilizer.error) (Stabilizer.outcomes v) =
    [Some (Some "Validation aborted"); Some None] /\
  map (option_map Stabilizer.isStable) (Stabilizer.outcomes v) = [Some false; Some true].
Proof. vm_compute. split; reflexivity. Qed.

(** A pending validation cannot stay pending: its timeout resolves it. *)
Lemma onTimeout_resolves now c s :
  Stabilizer.sink c = Some s -> Stabilizer.attached s = true ->
  Stabilizer.resolved c = None ->
  exists r, Stabilizer.resolved (Stabilizer.onTimeout now c) = Some r /\
            Stabilizer.error r = Some "Validation timeout".
Proof.
  intros Hs Ha Hr. unfold Stabilizer.onTimeout. rewrite Hs, Ha. cbn. rewrite Hr.
  eexists. split; reflexivity.
Qed.

(** ** Handing the stream over *)




(** ** Complexity analysis *)

Lemma fold_left_Qplus_map {A} (g : A -> Q) (l : list A) (a : Q) :
  fold_left (fun acc x => (acc + g x)%Q) l a = fold_left Qplus (map g l) a.
Proof. revert a. induction l as [| x l IH]; intros a; [reflexivity | apply IH]. Qed.

Lemma at_shift r g b a rest i :
  0 <= i ->
  ComplexityManager.at_ (r :: g :: b :: a :: rest) (i + 4) = ComplexityManager.at_ rest i.
Proof.
  intros Hi. unfold ComplexityManager.at_.
  replace (Z.to_nat (i + 4)) with (S (S (S (S (Z.to_nat i))))) by lia. reflexivity.
Qed.

Lemma gray_shift r g b a rest i :
  0 <= i ->
  ComplexityManager.gray (r :: g :: b :: a :: rest) (i + 4) = ComplexityManager.gray rest i.
Proof.
  intros Hi. unfold ComplexityManager.gray.
  replace (i + 4 + 1) with (i + 1 + 4) by lia. replace (i + 4 + 2) with (i + 2 + 4) by lia.
  rewrite !at_shift by lia. reflexivity.
Qed.

(** The luminance differences the loop of [calculateTemporalComplexity] adds
    up are those of the pixel lists. *)
Lemma stride_deltas (n : nat) : forall cur prev : list Z,
  length cur = (4 * n)%nat -> length prev = (4 * n)%nat ->
  map (fun k => Qabs (ComplexityManager.gray cur (4 * Z.of_nat k) -
                      ComplexityManager.gray prev (4 * Z.of_nat k)))
      (seq 0 n) =
  map (fun pq => Qabs (luminance (fst pq) - luminance (snd pq)))
      (combine (pixels cur) (pixels prev)).
Proof.
  induction n as [| n IH]; intros cur prev Hc Hp.
  - destruct cur; [| discriminate]. reflexivity.
  - destruct cur as [| r [| g [| b [| a rest]]]]; try (exfalso; cbn in Hc; lia).
    destruct prev as [| r' [| g' [| b' [| a' rest']]]]; try (exfalso; cbn in Hp; lia).
    cbn [seq map pixels combine fst snd]. f_equal.
    rewrite <- seq_shift, map_map. rewrite <- (IH rest rest') by (cbn in Hc, Hp; lia).
    apply map_ext. intros k.
    replace (4 * Z.of_nat (S k)) with (4 * Z.of_nat k + 4) by lia.
    rewrite !gray_shift by lia. reflexivity.
Qed.

Lemma pixels_length (n : nat) : forall d : list Z,
  length d = (4 * n)%nat -> length (pixels d) = n.
Proof.
  induction n as [| n IH]; intros d Hd.
  - destruct d; [reflexivity | discriminate].
  - destruct d as [| r [| g [| b [| a rest]]]]; try (exfalso; cbn in Hd; lia).
    cbn [pixels length]. f_equal. apply IH. cbn in Hd. lia.
Qed.

Lemma stride4_indices (n : nat) :
  ComplexityManager.stride4 (Z.of_nat (4 * n)) = map (fun k => 4 * Z.of_nat k) (seq 0 n).
Proof.
  unfold ComplexityManager.stride4, range.
  replace ((Z.of_nat (4 * n) + 3) / 4) with (Z.of_nat n).
  - rewrite Nat2Z.id, map_map. reflexivity.
  - apply Z.div_unique with (r := 3); lia.
Qed.

Lemma wellFormed_length img :
  wellFormed img ->
  length (ComplexityManager.data img) =
  (4 * Z.to_nat (ComplexityManager.iwidth img * ComplexityManager.iheight img))%nat.
Proof.
  unfold wellFormed, ComplexityManager.dataLength. intros (Hw & Hh & Hl).
  apply Nat2Z.inj. rewrite Hl, Nat2Z.inj_mul, Z2Nat.id by nia. reflexivity.
Qed.

(** On two well-formed samples of the same size, the loop of
    [calculateTemporalComplexity] computes the mean absolute luminance
    difference, divided by 255. *)
Lemma calculateTemporalComplexity_mean st img prev :
  ComplexityManager.previousFrameData st = Some prev ->
  sameSize prev img = true -> wellFormed prev -> wellFormed img ->
  (ComplexityManager.calculateTemporalComplexity st img ==
   meanAbsLuminanceDelta img prev / 255)%Q.
Proof.
  intros Hprev Hsize Wp Wi. unfold ComplexityManager.calculateTemporalComplexity.
  rewrite Hprev. unfold sameSize in Hsize. apply andb_prop in Hsize as [Ew Eh].
  rewrite Ew, Eh. cbn [negb orb].
  apply Z.eqb_eq in Ew, Eh.
  pose proof (wellFormed_length img Wi) as Li.
  pose proof (wellFormed_length prev Wp) as Lp. rewrite Ew, Eh in Lp.
  set (n := Z.to_nat (ComplexityManager.iwidth img * ComplexityManager.iheight img)) in *.
  unfold ComplexityManager.dataLength. rewrite Li, stride4_indices.
  rewrite fold_left_Qplus_map, map_map.
  rewrite (stride_deltas n _ _ Li Lp).
  unfold meanAbsLuminanceDelta, mean, total.
  rewrite length_map, length_combine, !(pixels_length n) by assumption.
  rewrite Nat.min_id.
  assert (E : (inject_Z (Z.of_nat (4 * n)) / 4 == inject_Z (Z.of_nat n))%Q).
  { rewrite Nat2Z.inj_mul, inject_Z_mult. change (inject_Z (Z.of_nat 4)) with 4%Q. field. }
  rewrite E. reflexivity.
Qed.

Lemma flat_map_length_const {A B} (f : A -> list B) (c : nat) (l : list A) :
  (forall x, length (f x) = c) -> length (flat_map f l) = (length l * c)%nat.
Proof.
  intros Hf. induction l as [| x l IH]; [reflexivity |].
  cbn [flat_map length]. rewrite length_app, Hf, IH. lia.
Qed.

Lemma range_length n : length (range n) = Z.to_nat n.
Proof. unfold range. now rewrite length_map, length_seq. Qed.

Lemma getImageData_wellFormed cv sw sh :
  0 <= sw -> 0 <= sh -> wellFormed (ComplexityManager.getImageData cv sw sh).
Proof.
  intros Hw Hh. unfold wellFormed, ComplexityManager.dataLength. cbn.
  split; [exact Hw |]. split; [exact Hh |].
  rewrite (flat_map_length_const _ (Z.to_nat sw * 4)%nat).
  - rewrite range_length. lia.
  - intros y. rewrite (flat_map_length_const _ 4%nat); [now rewrite range_length | reflexivity].
Qed.

(** The sample rectangle of a canvas with positive dimensions. *)
Lemma sample_scale w h :
  0 < w -> 0 < h ->
  let scale := (inject_Z (Z.min w h) / 128)%Q in
  Qeq_bool scale 0 = false /\
  0 <= Qfloor (inject_Z w / scale) /\ 0 <= Qfloor (inject_Z h / scale).
Proof.
  intros Hw Hh scale.
  assert (Hs : (0 < scale)%Q).
  { unfold scale. apply Qlt_shift_div_l; [reflexivity |]. rewrite Qmult_0_l.
    apply inject_Z_pos. lia. }
  split.
  - destruct (Qeq_bool scale 0) eqn:E; [| reflexivity].
    apply Qeq_bool_eq in E. rewrite E in Hs. discriminate.
  - split; rewrite <- (Qfloor_Z 0); apply Qfloor_resp_le; change (inject_Z 0) with 0%Q;
      apply Qle_shift_div_l; try exact Hs; rewrite Qmult_0_l;
      apply Qlt_le_weak, inject_Z_pos; assumption.
Qed.

Lemma Qltb_lt (a b : Q) : Qltb a b = true <-> (a < b)%Q.
Proof.
  unfold Qltb. rewrite negb_true_iff. split.
  - intros E. apply Qnot_le_lt. intros Hle. apply Qle_bool_iff in Hle. congruence.
  - intros Hlt. destruct (Qle_bool b a) eqn:E; [| reflexivity].
    apply Qle_bool_iff in E. exfalso. exact (Qlt_not_le _ _ Hlt E).
Qed.


(** Without a drawing context the analysis reports zero complexity, flagged
    low, and takes no sample. *)
Lemma analyzeFrameComplexity_without_context sqrt st canvas :
  ComplexityManager.has2d canvas = false ->
  ComplexityManager.analyzeFrameComplexity sqrt st canvas =
  Some ({| ComplexityManager.spatialComplexity := 0; ComplexityManager.temporalComplexity := 0;
           ComplexityManager.overallComplexity := 0; ComplexityManager.frameVariance := 0;
           ComplexityManager.isLowComplexity := true |}, st).
Proof. intros H. unfold ComplexityManager.analyzeFrameComplexity. now rewrite H. Qed.


(** *** Uniform frames *)

Lemma pixels_row (p : ComplexityManager.RGBA) {A} (l : list A) (more : list Z) :
  pixels (flat_map (fun _ => ComplexityManager.channels p) l ++ more) =
  repeat (ComplexityManager.red p, ComplexityManager.green p, ComplexityManager.blue p)
         (length l) ++ pixels more.
Proof.
  induction l as [| x l IH]; [reflexivity |].
  cbn [flat_map ComplexityManager.channels app pixels length repeat]. now rewrite IH.
Qed.

Lemma pixels_rows (p : ComplexityManager.RGBA) {A B} (rows : list A) (cols : list B) :
  pixels (flat_map (fun _ => flat_map (fun _ => ComplexityManager.channels p) cols) rows) =
  repeat (ComplexityManager.red p, ComplexityManager.green p, ComplexityManager.blue p)
         (length rows * length cols).
Proof.
  induction rows as [| y rows IH]; [reflexivity |].
  cbn [flat_map length Nat.mul]. rewrite pixels_row, IH, repeat_app. reflexivity.
Qed.

Lemma flat_map_ext_in {A B} (f g : A -> list B) (l : list A) :
  (forall x, In x l -> f x = g x) -> flat_map f l = flat_map g l.
Proof.
  intros H. induction l as [| x l IH]; [reflexivity |].
  cbn [flat_map]. rewrite (H x (or_introl eq_refl)), IH; [reflexivity |].
  intros y Hy. apply H. now right.
Qed.

Lemma range_bounds n x : In x (range n) -> 0 <= x < n.
Proof.
  unfold range. rewrite in_map_iff. intros (k & <- & Hk). apply in_seq in Hk. lia.
Qed.

(** The sample of a flat canvas is one colour throughout. *)
Lemma flat_sample_pixels level sw sh :
  sw <= 512 -> sh <= 512 ->
  pixels (ComplexityManager.data (ComplexityManager.getImageData (Sample.flat level) sw sh)) =
  repeat (level, level, level) (Z.to_nat sh * Z.to_nat sw).
Proof.
  intros Hw Hh. unfold ComplexityManager.getImageData. cbn [ComplexityManager.data].
  rewrite (flat_map_ext_in _
             (fun _ => flat_map (fun _ => ComplexityManager.channels
                                            (ComplexityManager.pixel (Sample.flat level) 0 0))
                                (range sw))).
  - rewrite pixels_rows, !range_length. reflexivity.
  - intros y Hy. apply range_bounds in Hy. apply flat_map_ext_in. intros x Hx.
    apply range_bounds in Hx. unfold ComplexityManager.readPixel.
    cbn [ComplexityManager.width ComplexityManager.height Sample.flat].
    destruct (Z.ltb_spec x 512); [| lia]. destruct (Z.ltb_spec y 512); [| lia]. reflexivity.
Qed.

(** Reading the luminance at a pixel index off the pixel list. *)
Lemma gray_pixel (n : nat) : forall (d : list Z) (k : nat),
  length d = (4 * n)%nat -> (k < n)%nat ->
  ComplexityManager.gray d (4 * Z.of_nat k) = luminance (nth k (pixels d) (0, 0, 0)).
Proof.
  induction n as [| n IH]; intros d k Hd Hk; [lia |].
  destruct d as [| r [| g [| b [| a rest]]]]; try (exfalso; cbn in Hd; lia).
  destruct k as [| k]; [reflexivity |].
  replace (4 * Z.of_nat (S k)) with (4 * Z.of_nat k + 4) by lia.
  rewrite gray_shift by lia. cbn [pixels nth]. apply IH; [cbn in Hd; lia | lia].
Qed.

Lemma gray_uniform (d : list Z) (p : Z * Z * Z) (n : nat) (i : Z) :
  length d = (4 * n)%nat -> pixels d = repeat p n -> 0 <= i < Z.of_nat n ->
  ComplexityManager.gray d (4 * i) = luminance p.
Proof.
  intros Hd Hp Hi. rewrite <- (Z2Nat.id i) by lia.
  rewrite (gray_pixel n) by (try assumption; lia).
  rewrite Hp. rewrite (nth_indep _ _ p) by (rewrite repeat_length; lia).
  now rewrite nth_repeat.
Qed.

Lemma fold_left_invariant {A B} (P : A -> Prop) (f : A -> B -> A) (l : list B) (a : A) :
  P a -> (forall acc x, In x l -> P acc -> P (f acc x)) -> P (fold_left f l a).
Proof.
  revert a. induction l as [| x l IH]; intros a Ha Hf; [exact Ha |].
  cbn [fold_left]. apply IH.
  - apply Hf; [now left | exact Ha].
  - intros acc y Hy. apply Hf. now right.
Qed.

Lemma range_from_bounds lo hi x : In x (range_from lo hi) -> lo <= x < hi.
Proof.
  unfold range_from. rewrite in_map_iff. intros (k & <- & Hk). apply range_bounds in Hk. lia.
Qed.

(** A frame of one colour has no edges: its spatial complexity is 0, for any
    square root that maps 0 to 0. *)
Lemma calculateSpatialComplexity_uniform (sqrt : Q -> Q) img p :
  (forall q, (q == 0)%Q -> (sqrt q == 0)%Q) ->
  wellFormed img ->
  pixels (ComplexityManager.data img) =
    repeat p (Z.to_nat (ComplexityManager.iwidth img * ComplexityManager.iheight img)) ->
  (ComplexityManager.calculateSpatialComplexity sqrt img == 0)%Q.
Proof.
  intros Hsqrt Wf Hp. pose proof (wellFormed_length img Wf) as Hl.
  destruct Wf as (Hw & Hh & _).
  set (w := ComplexityManager.iwidth img) in *.
  set (h := ComplexityManager.iheight img) in *.
  unfold ComplexityManager.calculateSpatialComplexity. fold w h.
  match goal with
  | |- context [fold_left ?f ?l ?a] =>
    assert (Hsum : (fst (fold_left f l a) == 0)%Q)
  end.
  { apply (fold_left_invariant (fun acc : Q * Z => (fst acc == 0)%Q)); [reflexivity |].
    intros acc y Hy Hacc. apply range_from_bounds in Hy.
    apply (fold_left_invariant (fun acc : Q * Z => (fst acc == 0)%Q)); [exact Hacc |].
    intros acc' x Hx Hacc'. apply range_from_bounds in Hx. cbn [fst].
    assert (G : forall k, 0 <= k < w * h ->
                ComplexityManager.gray (ComplexityManager.data img) (4 * k) = luminance p).
    { intros k Hk. apply (gray_uniform _ p (Z.to_nat (w * h))); [exact Hl | exact Hp |].
      rewrite Z2Nat.id; [exact Hk | apply Z.mul_nonneg_nonneg; assumption]. }
    replace ((y * w + x) * 4 + 4) with (4 * (y * w + x + 1)) by lia.
    replace ((y * w + x) * 4 + w * 4) with (4 * (y * w + x + w)) by lia.
    replace ((y * w + x) * 4) with (4 * (y * w + x)) by lia.
    rewrite !G by nia.
    rewrite Hacc', Qplus_0_l. apply Hsqrt.
    assert (Z0 : (Qabs (luminance p - luminance p) == 0)%Q).
    { assert (E : (luminance p - luminance p == 0)%Q) by ring. now rewrite E. }
    rewrite Z0. reflexivity. }
  destruct (fold_left _ _ _) as [edgeSum pixelCount]. cbn [fst] in Hsum.
  destruct (0 <? pixelCount); [| reflexivity].
  rewrite Hsum. unfold Qdiv. ring.
Qed.

Lemma total_repeat (d : Q) (n : nat) (a : Q) :
  (fold_left Qplus (repeat d n) a == a + inject_Z (Z.of_nat n) * d)%Q.
Proof.
  revert a. induction n as [| n IH]; intros a.
  - cbn. ring.
  - cbn [repeat fold_left]. rewrite IH, Nat2Z.inj_succ. unfold Z.succ.
    rewrite inject_Z_plus. change (inject_Z 1) with 1%Q. ring.
Qed.

(** Between two frames of one colour each, the mean absolute luminance
    difference is the difference of the two luminances. *)
Lemma meanAbsLuminanceDelta_uniform cur prev p q (m : nat) :
  (0 < m)%nat ->
  pixels (ComplexityManager.data cur) = repeat p m ->
  pixels (ComplexityManager.data prev) = repeat q m ->
  (meanAbsLuminanceDelta cur prev == Qabs (luminance p - luminance q))%Q.
Proof.
  intros Hm Hc Hp. destruct m as [| n]; [lia |]. unfold meanAbsLuminanceDelta, mean, total. rewrite Hc, Hp.
  assert (E : forall m, combine (repeat p m) (repeat q m) = repeat (p, q) m).
  { induction m as [| m IH]; [reflexivity |]. cbn [repeat combine]. now rewrite IH. }
  rewrite E, map_repeat, repeat_length, total_repeat. cbn [fst snd].
  field. rewrite Nat2Z.inj_succ. unfold Z.succ. rewrite inject_Z_plus.
  intros Hz. assert (Hpos : (0 <= inject_Z (Z.of_nat n))%Q).
  { change 0%Q with (inject_Z 0). rewrite <- Zle_Qle. lia. }
  change (inject_Z 1) with 1%Q in Hz. lra.
Qed.

(** ** Complexity injection *)

Lemma exactSqrt_zero (q : Q) : (q == 0)%Q -> (Sample.exactSqrt q == 0)%Q.
Proof.
  intros E. unfold Sample.exactSqrt.
  assert (Hn : Qnum q = 0) by (unfold Qeq in E; cbn in E; lia).
  rewrite Hn. reflexivity.
Qed.

(** What [injectComplexity] does once the frame has been analyzed: it injects
    exactly when the frame is flagged low and the intensity
    [min ((target - overall) * 2) maxIntensity] exceeds 0.01, with that
    intensity; otherwise the surface is returned as it was. *)
Lemma injectComplexity_decision sqrt st canvas options metrics st' :
  ComplexityManager.has2d canvas = true ->
  ComplexityManager.analyzeFrameComplexity sqrt st canvas = Some (metrics, st') ->
  let intensity :=
    ComplexityManager.injectionIntensity options
      (ComplexityManager.overallComplexity metrics) in
  ComplexityManager.injectComplexity sqrt st canvas options =
  Some (st',
        if ComplexityManager.isLowComplexity metrics && Qltb 0.01 intensity
        then ComplexityManager.applyComplexityInjection canvas
               (default adaptive (complexityType options)) intensity
        else canvas).
Proof.
  intros Hctx E intensity. unfold ComplexityManager.injectComplexity.
  rewrite Hctx, E. cbn [negb]. fold intensity.
  destruct (ComplexityManager.isLowComplexity metrics); [| reflexivity].
  destruct (Qltb 0.01 intensity); reflexivity.
Qed.

(** [minComplexityThreshold] is never read: whatever it is set to,
    [injectComplexity] does the same. *)
Lemma injectComplexity_ignores_threshold sqrt st canvas options threshold :
  ComplexityManager.injectComplexity sqrt st canvas (with_threshold threshold options) =
  ComplexityManager.injectComplexity sqrt st canvas options.
Proof. reflexivity. Qed.

(** The analysis of a grey frame (level 90) after a black one: no edges, and a
    luminance change of 90 in every pixel. *)
Lemma grey_after_black_metrics :
  exists metrics st',
    ComplexityManager.analyzeFrameComplexity Sample.exactSqrt Sample.seen_black (Sample.flat 90)
      = Some (metrics, st') /\
    (ComplexityManager.overallComplexity metrics == 3 # 17)%Q /\
    ComplexityManager.isLowComplexity metrics = true.
Proof.
  set (sample := ComplexityManager.getImageData (Sample.flat 90) 128 128).
  set (prev := ComplexityManager.getImageData (Sample.flat 0) 128 128).
  assert (Ws : wellFormed sample) by (apply getImageData_wellFormed; discriminate).
  assert (Wp : wellFormed prev) by (apply getImageData_wellFormed; discriminate).
  assert (Ps : pixels (ComplexityManager.data sample) =
               repeat (90, 90, 90) (Z.to_nat 128 * Z.to_nat 128))
    by (apply flat_sample_pixels; discriminate).
  assert (Pp : pixels (ComplexityManager.data prev) =
               repeat (0, 0, 0) (Z.to_nat 128 * Z.to_nat 128))
    by (apply flat_sample_pixels; discriminate).
  assert (Hsp : (ComplexityManager.calculateSpatialComplexity Sample.exactSqrt sample == 0)%Q).
  { apply (calculateSpatialComplexity_uniform _ _ (90, 90, 90) exactSqrt_zero Ws).
    rewrite Ps. subst sample.
    cbn [ComplexityManager.iwidth ComplexityManager.iheight ComplexityManager.getImageData].
    rewrite Z2Nat.inj_mul by discriminate. reflexivity. }
  assert (Hte : (ComplexityManager.calculateTemporalComplexity Sample.seen_black sample
                 == 6 # 17)%Q).
  { rewrite (calculateTemporalComplexity_mean Sample.seen_black sample prev eq_refl eq_refl Wp Ws).
    assert (Hm : (0 < Z.to_nat 128 * Z.to_nat 128)%nat) by (apply Nat.mul_pos_pos; lia).
    rewrite (meanAbsLuminanceDelta_uniform sample prev (90, 90, 90) (0, 0, 0) _ Hm Ps Pp).
    reflexivity. }
  assert (Hov : ((ComplexityManager.calculateSpatialComplexity Sample.exactSqrt sample +
                  ComplexityManager.calculateTemporalComplexity Sample.seen_black sample) / 2
                 == 3 # 17)%Q).
  { rewrite Hsp, Hte. reflexivity. }
  eexists _, _. split; [| split].
  - unfold ComplexityManager.analyzeFrameComplexity.
    cbn [Sample.flat ComplexityManager.has2d ComplexityManager.width ComplexityManager.height negb].
    change (Qeq_bool (inject_Z (Z.min 512 512) / 128) 0) with false. cbv iota.
    change (Qfloor (inject_Z 512 / (inject_Z (Z.min 512 512) / 128))) with 128.
    fold (Sample.flat 90). fold sample. reflexivity.
  - cbn [ComplexityManager.overallComplexity]. exact Hov.
  - cbn [ComplexityManager.isLowComplexity]. apply Qltb_lt. rewrite Hov. reflexivity.
Qed.

(** C3, where the code departs from it: with the options the orchestrator configures
    (target 0.3, threshold 0.15, maximum intensity 0.2, adaptive) a grey frame
    after a black one measures an overall complexity of 3/17, about 0.176,
    which is not below the threshold of 0.15; [injectComplexity] nevertheless
    perturbs the surface, at the full intensity 0.2 split over the three
    generators. *)
Theorem injectComplexity_above_threshold :
  exists metrics st' canvas' intensity,
    ComplexityManager.analyzeFrameComplexity Sample.exactSqrt Sample.seen_black (Sample.flat 90)
      = Some (metrics, st') /\
    (ComplexityManager.overallComplexity metrics == 3 # 17)%Q /\
    minComplexityThreshold Sample.tuned = Some 0.15%Q /\
    ~ (ComplexityManager.overallComplexity metrics < 0.15)%Q /\
    ComplexityManager.injectComplexity Sample.exactSqrt Sample.seen_black (Sample.flat 90)
      Sample.tuned = Some (st', canvas') /\
    ComplexityManager.overlays canvas' =
      [(ComplexityManager.injectNoise, (intensity * 0.3)%Q);
       (ComplexityManager.injectMovement, (intensity * 0.4)%Q);
       (ComplexityManager.injectDithering, (intensity * 0.3)%Q)] /\
    (intensity == 0.2)%Q.
Proof.
  destruct grey_after_black_metrics as (metrics & st' & E & Hov & Hlow).
  set (intensity := ComplexityManager.injectionIntensity Sample.tuned
                      (ComplexityManager.overallComplexity metrics)).
  assert (Hi : (intensity == 0.2)%Q).
  { unfold intensity, ComplexityManager.injectionIntensity. cbn [Sample.tuned targetComplexity
      maxIntensity default]. rewrite Hov. reflexivity. }
  assert (Hgo : Qltb 0.01 intensity = true) by (apply Qltb_lt; rewrite Hi; reflexivity).
  exists metrics, st', (ComplexityManager.applyComplexityInjection (Sample.flat 90) adaptive intensity),
    intensity.
  split; [exact E |]. split; [exact Hov |]. split; [reflexivity |].
  split; [rewrite Hov; discriminate |].
  split; [| split; [reflexivity | exact Hi]].
  rewrite (injectComplexity_decision Sample.exactSqrt Sample.seen_black (Sample.flat 90)
             Sample.tuned metrics st' eq_refl E). fold intensity.
  now rewrite Hlow, Hgo.
Qed.

(** * Further properties of the orchestrator *)

(** ** The foreground pump's bookkeeping *)

Lemma same_foreground_refl w : same_foreground w w.
Proof. repeat split. Qed.

Lemma same_foreground_trans w1 w2 w3 :
  same_foreground w1 w2 -> same_foreground w2 w3 -> same_foreground w1 w3.
Proof.
  unfold same_foreground. intros (A1 & A2 & A3 & A4) (B1 & B2 & B3 & B4).
  rewrite B1, B2, B3, B4. auto.
Qed.

Lemma frame_invariant_same w w' :
  same_foreground w w' -> frame_invariant w -> frame_invariant w'.
Proof.
  unfold same_foreground, frame_invariant. intros (A1 & A2 & A3 & A4) (F1 & F2).
  rewrite A1, A2, A3, A4. auto.
Qed.

Lemma stopMonitoring_frames st tm :
  frames (snd (ComplexityManager.stopMonitoring st tm)) = frames tm.
Proof.
  unfold ComplexityManager.stopMonitoring.
  destruct (ComplexityManager.analysisIntervalId st); reflexivity.
Qed.

Lemma startMonitoring_frames cv options st tm :
  frames (snd (ComplexityManager.startMonitoring cv options st tm)) = frames tm.
Proof.
  unfold ComplexityManager.startMonitoring.
  destruct (ComplexityManager.isAnalyzing st); reflexivity.
Qed.

Lemma stopBackgroundStreaming_foreground w : same_foreground w (stopBackgroundStreaming w).
Proof.
  unfold same_foreground, stopBackgroundStreaming.
  destruct (backgroundTimer (orch w)) as [h |];
    destruct (enabled (backgroundOptions (orch w))).
  - pose proof (stopMonitoring_frames (monitor w) (clearInterval h (timers w))) as Hf.
    destruct (ComplexityManager.stopMonitoring _ _). cbn in *. repeat split; auto.
  - cbn. repeat split; auto.
  - pose proof (stopMonitoring_frames (monitor w) (timers w)) as Hf.
    destruct (ComplexityManager.stopMonitoring _ _). cbn in *. repeat split; auto.
  - cbn. repeat split; auto.
Qed.

Lemma startBackgroundStreaming_foreground w : same_foreground w (startBackgroundStreaming w).
Proof.
  unfold same_foreground, startBackgroundStreaming.
  destruct (outputCanvas (orch w)) eqn:Ec; [| repeat split; auto].
  destruct (backgroundOptions (orch w)) as [opts |]; [| repeat split; auto].
  destruct (backgroundTimer (orch w)); [repeat split; auto |].
  destruct (enableComplexityManagement opts).
  - match goal with
    | |- context [ComplexityManager.startMonitoring ?c ?o ?m ?t] =>
      pose proof (startMonitoring_frames c o m t) as Hf;
      destruct (ComplexityManager.startMonitoring c o m t)
    end.
    cbn in *. repeat split; auto.
  - cbn. repeat split; auto.
Qed.

Lemma setBackgroundOptions_foreground options w :
  same_foreground w (setBackgroundOptions options w).
Proof.
  unfold setBackgroundOptions, updateBackgroundStreaming.
  cbn [orch with_orch backgroundOptions set_background].
  destruct options as [opts |].
  - cbn [orch with_orch documentHidden].
    set (w2 := with_orch _ _).
    apply (same_foreground_trans w w2); [repeat split |].
    destruct (documentHidden w);
      [apply startBackgroundStreaming_foreground | apply stopBackgroundStreaming_foreground].
  - set (w1 := with_orch _ _).
    apply (same_foreground_trans w w1); [repeat split |].
    apply stopBackgroundStreaming_foreground.
Qed.

Lemma ensureInitialized_frames ctxAvailable w :
  let w' := ensureInitialized ctxAvailable w in
  animationId (orch w') = animationId (orch w) /\
  frames (timers w') = frames (timers w) /\
  (outputCanvas (orch w) <> None -> outputCanvas (orch w') <> None) /\
  (outputCtx (orch w) <> None -> outputCtx (orch w') <> None).
Proof.
  unfold ensureInitialized. destruct (initialized (orch w)); [repeat split; auto |].
  destruct ctxAvailable; [| repeat split; auto]. cbn [negb].
  set (w1 := with_orch _ w).
  destruct (setBackgroundOptions_foreground (Some defaultBackgroundOptions) w1)
    as (A1 & A2 & A3 & A4).
  cbv zeta. rewrite A1, A2, A3, A4. subst w1. cbn. repeat split; auto; discriminate.
Qed.

Lemma ensureInitialized_invariant_frame ctxAvailable w :
  frame_invariant w -> frame_invariant (ensureInitialized ctxAvailable w).
Proof.
  intros (F1 & F2). destruct (ensureInitialized_frames ctxAvailable w) as (A1 & A2 & A3 & A4).
  cbv zeta in *. unfold frame_invariant. rewrite A1, A2. split; [exact F1 |].
  intros Ha. destruct (F2 Ha) as (Hc & Hx). auto.
Qed.

Lemma start_frame_invariant w : frame_invariant w -> frame_invariant (start w).
Proof.
  intros (F1 & F2). unfold start.
  destruct (animationId (orch w)) eqn:Ea; [split; [now rewrite Ea | now rewrite Ea] |].
  destruct (outputCanvas (orch w)) eqn:Ec; [| split; [now rewrite Ea | now rewrite Ea]].
  destruct (outputCtx (orch w)) eqn:Ex; [| split; [now rewrite Ea | now rewrite Ea]].
  unfold frame_invariant. cbn. rewrite F1, Ec, Ex. repeat split; discriminate.
Qed.

Lemma keeps_surface_trans o1 o2 o3 :
  keeps_surface o1 o2 -> keeps_surface o2 o3 -> keeps_surface o1 o3.
Proof. unfold keeps_surface. intros (A & B) (C & D). rewrite C, A. auto. Qed.

Lemma blitSource_surface dom s a o : keeps_surface o (blitSource dom s a o).
Proof. destruct (blitSource_fields dom s a o) as (Hc & Hx & _). split; assumption. Qed.

Lemma set_sources_surface c p f o : keeps_surface o (set_sources c p f o).
Proof. split; auto. Qed.

Lemma composite_surface dom now o : keeps_surface o (composite dom now o).
Proof.
  unfold composite.
  destruct (pendingSource o) as [p |], (crossfadeStartMs o) as [s |],
           (currentSource o) as [c |]; cbv zeta; try (split; auto; fail);
    repeat match goal with
           | |- context [if ?b then _ else _] => destruct b
           end;
    try (split; auto; fail);
    repeat first
      [ apply blitSource_surface
      | eapply keeps_surface_trans; [| apply set_sources_surface]
      | eapply keeps_surface_trans; [| apply blitSource_surface] ].
Qed.

Lemma armCrossfade_surface dom now o : keeps_surface o (armCrossfade dom now o).
Proof.
  unfold armCrossfade. destruct (pendingSource o); [| split; auto].
  destruct (isSourceReady _ _); [| split; auto].
  destruct (crossfadeStartMs o); split; auto.
Qed.

Lemma draw_frames dom now o tm :
  outputCanvas o <> None -> outputCtx o <> None ->
  animationId (fst (draw dom now o tm)) = Some (nextHandle tm) /\
  frames (snd (draw dom now o tm)) = nextHandle tm :: frames tm /\
  outputCanvas (fst (draw dom now o tm)) = outputCanvas o /\
  outputCtx (fst (draw dom now o tm)) <> None.
Proof.
  intros Hc Hx. unfold draw.
  destruct (outputCanvas o) as [cv |] eqn:Ec; [| contradiction].
  destruct (outputCtx o) as [ctx |] eqn:Ex; [| contradiction].
  cbv zeta. unfold requestAnimationFrame. cbn [fst snd animationId set_animationId frames
    outputCanvas outputCtx requestFrame set_surface].
  split; [reflexivity |]. split; [reflexivity |].
  assert (K : keeps_surface (clearSurface cv ctx o)
                (composite dom now (armCrossfade dom now (clearSurface cv ctx o)))).
  { eapply keeps_surface_trans; [apply armCrossfade_surface | apply composite_surface]. }
  destruct K as (C2 & X2). cbn [clearSurface outputCanvas outputCtx set_ctx] in C2, X2.
  specialize (X2 ltac:(discriminate)). unfold markFrame.
  destruct (outputCtx (composite dom now _)); [| contradiction].
  cbn. split; [now rewrite C2 | discriminate].
Qed.

Lemma animationFrame_frame_invariant dom now w :
  frame_invariant w -> frame_invariant (animationFrame dom now w).
Proof.
  intros (F1 & F2). unfold animationFrame. rewrite F1.
  destruct (animationId (orch w)) as [id |] eqn:Ea.
  - destruct (F2 ltac:(discriminate)) as (Hc & Hx).
    cbn [held fold_left fst snd].
    set (tm0 := {| nextHandle := _; intervals := _; frames := [] |}).
    destruct (draw_frames dom now (orch w) tm0 Hc Hx) as (A1 & A2 & A3 & A4).
    destruct (draw dom now (orch w) tm0) as [o tm]. cbn [fst snd] in *.
    unfold frame_invariant. cbn. rewrite A1, A2, A3. repeat split; auto.
  - cbn [held fold_left]. unfold frame_invariant. cbn. rewrite Ea. split; [reflexivity |].
    intros H. contradiction.
Qed.

Lemma stop_frames w :
  frame_invariant w ->
  animationId (orch (stop w)) = None /\ frames (timers (stop w)) = [] /\
  outputCanvas (orch (stop w)) = outputCanvas (orch w) /\
  outputCtx (orch (stop w)) = outputCtx (orch w).
Proof.
  intros (F1 & F2). unfold stop.
  set (w1 := match animationId (orch w) with Some _ => _ | None => _ end).
  destruct (stopBackgroundStreaming_foreground w1) as (A1 & A2 & A3 & A4).
  rewrite A1, A2, A3, A4. subst w1.
  destruct (animationId (orch w)) as [id |] eqn:Ea; cbn.
  - rewrite F1. cbn. rewrite Pos.eqb_refl. repeat split.
  - rewrite Ea, F1. repeat split.
Qed.

Lemma reachable_frame_invariant w : reachable w -> frame_invariant w.
Proof.
  induction 1 as [| ctx source w _ IH | dom now w _ IH | dom hidden w _ IH
                  | options w _ IH | w _ IH | w _ IH | ctx w _ IH | w _ IH | w _ IH
                  | w _ IH _].
  - split; [reflexivity | intros H; contradiction].
  - apply (ensureInitialized_invariant_frame ctx) in IH. unfold setSource.
    set (w1 := ensureInitialized ctx w) in *. cbv zeta. cbn [animationId set_sources].
    set (w2 := with_orch _ w1).
    assert (I2 : frame_invariant w2) by (revert IH; apply frame_invariant_same; repeat split).
    destruct (animationId (orch w1)); [exact I2 | now apply start_frame_invariant].
  - now apply animationFrame_frame_invariant.
  - unfold visibilityChange. cbn [orch].
    set (w1 := {| orch := orch w; documentHidden := hidden |}).
    assert (I1 : frame_invariant w1) by (revert IH; apply frame_invariant_same; repeat split).
    destruct (visibilityHandler (orch w)); [| exact I1].
    unfold onVisibilityChange. destruct (backgroundOptions (orch w1)); [| exact I1].
    destruct (documentHidden w1).
    + revert I1. apply frame_invariant_same, startBackgroundStreaming_foreground.
    + cbv zeta.
      set (w2 := start (stopBackgroundStreaming w1)).
      assert (I2 : frame_invariant w2).
      { apply start_frame_invariant. revert I1.
        apply frame_invariant_same, stopBackgroundStreaming_foreground. }
      destruct (currentSource (orch w2)) as [s |]; [destruct (kind s) |];
        try destruct (paused (dom (element s))); cbn [orch outputStream];
        destruct (outputStream (orch w2)); revert I2;
        apply frame_invariant_same; repeat split.
  - revert IH. apply frame_invariant_same, setBackgroundOptions_foreground.
  - destruct (stop_frames w IH) as (A1 & A2 & _).
    unfold frame_invariant. rewrite A1, A2. split; [reflexivity | intros H; contradiction].
  - unfold kickTimeout. destruct (kickChains w); [exact IH |].
    revert IH. apply frame_invariant_same; repeat split.
  - now apply ensureInitialized_invariant_frame.
  - now apply start_frame_invariant.
  - destruct (stop_frames w IH) as (A1 & A2 & _).
    unfold destroy, frame_invariant. cbn. rewrite A1, A2.
    split; [reflexivity | intros H; contradiction].
  - revert IH. apply frame_invariant_same; repeat split.
Qed.

(** ** The interval timers' bookkeeping *)

Lemma map_fst_filter_handle {B} (h : Handle) (l : list (Handle * B)) :
  map fst (filter (fun e => negb (Pos.eqb (fst e) h)) l) =
  filter (fun x => negb (Pos.eqb x h)) (map fst l).
Proof.
  induction l as [| [x y] l IH]; [reflexivity |].
  simpl. destruct (negb (x =? h)%positive); simpl; now rewrite <- IH.
Qed.

(** Clearing timers keeps the remaining handles distinct. *)
Lemma handles_distinct_filter (keep : Handle * (Task * Z) -> bool)
      (running : list (Handle * (Task * Z))) :
  NoDup (map fst running) -> NoDup (map fst (filter keep running)).
Proof.
  induction running as [| a l IH]; intros H; [constructor |].
  cbn [map] in H. inversion H as [| x xs Hn Hd]; subst. cbn [filter].
  destruct (keep a); [| now apply IH]. cbn [map]. constructor; [| now apply IH].
  intros Hin. apply Hn. apply in_map_iff in Hin as (y & Ey & Hy).
  apply filter_In in Hy as (Hy & _). apply in_map_iff. now exists y.
Qed.

Lemma isAnalysisTask_not_background e : isAnalysisTask e = negb (isBackgroundTask e).
Proof. unfold isAnalysisTask, isBackgroundTask. now destruct (fst (snd e)). Qed.

(** With distinct handles no handle is both a background and an analysis
    timer's. *)
Lemma handles_disjoint (l : list (Handle * (Task * Z))) (h : Handle) :
  NoDup (map fst l) ->
  In h (map fst (filter isBackgroundTask l)) -> In h (map fst (filter isAnalysisTask l)) ->
  False.
Proof.
  induction l as [| e l IH]; intros Hn Hb Ha; [contradiction |].
  cbn [map] in Hn. inversion Hn as [| x xs Hx Hd]; subst.
  cbn [filter] in Hb, Ha. rewrite isAnalysisTask_not_background in Ha.
  assert (Hsub : forall p, In h (map fst (filter p l)) -> In h (map fst l)).
  { intros p Hin. apply in_map_iff in Hin as (y & Ey & Hy).
    apply filter_In in Hy as (Hy & _). apply in_map_iff. now exists y. }
  destruct (isBackgroundTask e); cbn [negb map] in Hb, Ha.
  - destruct Hb as [Eh | Hb].
    + subst h. apply Hx. now apply (Hsub _ Ha).
    + apply IH; auto.
  - destruct Ha as [Eh | Ha].
    + subst h. apply Hx. now apply (Hsub _ Hb).
    + apply IH; auto.
Qed.

(** Handing out handles, or touching only the animation frames, keeps the
    bookkeeping. *)
Lemma bookkeeping_frames tm tm' background m :
  intervals tm' = intervals tm -> (nextHandle tm <= nextHandle tm')%positive ->
  timer_bookkeeping tm background m -> timer_bookkeeping tm' background m.
Proof.
  intros Ei Hn (T1 & T2 & T3 & (M1 & M2) & T5).
  unfold timer_bookkeeping, monitor_invariant, analysisTimers in *. rewrite Ei.
  repeat split; auto.
  eapply Forall_impl; [| exact T1]. cbn. intros e He. lia.
Qed.

Lemma bookkeeping_setInterval_background tm m period :
  10 <= period ->
  timer_bookkeeping tm None m ->
  timer_bookkeeping (snd (setInterval BackgroundTask period tm)) (Some (nextHandle tm)) m.
Proof.
  intros Hp (T1 & T2 & T3 & (M1 & M2) & T5).
  unfold timer_bookkeeping, monitor_invariant, analysisTimers in *.
  cbn [setInterval snd intervals nextHandle filter isBackgroundTask isAnalysisTask fst map held].
  split; [| split; [| split; [| split; [split |]]]].
  - constructor; [cbn; lia |]. eapply Forall_impl; [| exact T1]. cbn. intros e He. lia.
  - constructor; [| exact T2]. intros Hin. apply in_map_iff in Hin as (e & Ee & He).
    rewrite Forall_forall in T1. specialize (T1 e He).
    destruct e as [x y]. cbn in Ee, T1. subst x. lia.
  - cbn [held] in T3. now rewrite T3.
  - exact M1.
  - exact M2.
  - constructor; [intros _; exact Hp | exact T5].
Qed.

Lemma bookkeeping_startMonitoring cv options tm background m :
  timer_bookkeeping tm background m ->
  timer_bookkeeping (snd (ComplexityManager.startMonitoring cv options m tm)) background
                    (fst (ComplexityManager.startMonitoring cv options m tm)).
Proof.
  intros H. unfold ComplexityManager.startMonitoring.
  destruct (ComplexityManager.isAnalyzing m) eqn:Ea; [exact H |].
  destruct H as (T1 & T2 & T3 & (M1 & M2) & T5). rewrite Ea in M1.
  destruct (ComplexityManager.analysisIntervalId m) eqn:Ei; [discriminate M1 |].
  unfold timer_bookkeeping, monitor_invariant, analysisTimers in *.
  cbn [setInterval snd fst intervals nextHandle filter isBackgroundTask isAnalysisTask map
       ComplexityManager.isAnalyzing ComplexityManager.analysisIntervalId].
  split; [| split; [| split; [| split; [split |]]]].
  - constructor; [cbn; lia |]. eapply Forall_impl; [| exact T1]. cbn. intros e He. lia.
  - constructor; [| exact T2]. intros Hin. apply in_map_iff in Hin as (e & Ee & He).
    rewrite Forall_forall in T1. specialize (T1 e He).
    destruct e as [x y]. cbn in Ee, T1. subst x. lia.
  - exact T3.
  - reflexivity.
  - now rewrite M2.
  - constructor; [discriminate | exact T5].
Qed.

Lemma Forall_filter_keep {A} (P : A -> Prop) (p : A -> bool) (l : list A) :
  Forall P l -> Forall P (filter p l).
Proof.
  intros H. apply Forall_forall. intros x Hx. apply filter_In in Hx as (Hx & _).
  rewrite Forall_forall in H. now apply H.
Qed.

Lemma filter_other_handle (h : Handle) (l : list Handle) :
  ~ In h l -> filter (fun x => negb (Pos.eqb x h)) l = l.
Proof.
  induction l as [| x l IH]; intros Hn; [reflexivity |].
  simpl. destruct (Pos.eqb_spec x h) as [-> | Hne]; [exfalso; apply Hn; now left |].
  simpl. rewrite IH; [reflexivity |]. intros Hin. apply Hn. now right.
Qed.

(** Clearing one timer leaves the timers of the other kind as they were. *)
Lemma bookkeeping_clearInterval tm h (p q : Handle * (Task * Z) -> bool) :
  NoDup (map fst (intervals tm)) ->
  (forall l, NoDup (map fst l) -> In h (map fst (filter p l)) ->
             In h (map fst (filter q l)) -> False) ->
  map fst (filter p (intervals tm)) = [h] ->
  map fst (filter p (intervals (clearInterval h tm))) = [] /\
  map fst (filter q (intervals (clearInterval h tm))) = map fst (filter q (intervals tm)).
Proof.
  intros Hn Hdis Hp. cbn [clearInterval intervals].
  rewrite !(filter_swap _ (fun e => negb (fst e =? h)%positive)).
  split.
  - transitivity (filter (fun x => negb (Pos.eqb x h)) (map fst (filter p (intervals tm)))).
    + apply map_fst_filter_handle.
    + rewrite Hp. simpl. now rewrite Pos.eqb_refl.
  - transitivity (filter (fun x => negb (Pos.eqb x h)) (map fst (filter q (intervals tm)))).
    + apply map_fst_filter_handle.
    + apply filter_other_handle. intros Hin. apply (Hdis _ Hn); [| exact Hin].
      rewrite Hp. now left.
Qed.

Lemma handles_disjoint_sym (l : list (Handle * (Task * Z))) (h : Handle) :
  NoDup (map fst l) ->
  In h (map fst (filter isAnalysisTask l)) -> In h (map fst (filter isBackgroundTask l)) ->
  False.
Proof. intros Hn Ha Hb. exact (handles_disjoint l h Hn Hb Ha). Qed.

Lemma bookkeeping_clear_background tm h m :
  timer_bookkeeping tm (Some h) m -> timer_bookkeeping (clearInterval h tm) None m.
Proof.
  intros (T1 & T2 & T3 & (M1 & M2) & T5).
  destruct (bookkeeping_clearInterval tm h isBackgroundTask isAnalysisTask T2
              (fun l => handles_disjoint l h) T3) as (Eb & Ea).
  unfold timer_bookkeeping, monitor_invariant, analysisTimers in *.
  rewrite Eb, Ea. cbn [clearInterval intervals nextHandle held].
  repeat split; auto using Forall_filter_keep, handles_distinct_filter.
Qed.

Lemma bookkeeping_stopMonitoring tm background m :
  timer_bookkeeping tm background m ->
  timer_bookkeeping (snd (ComplexityManager.stopMonitoring m tm)) background
                    (fst (ComplexityManager.stopMonitoring m tm)).
Proof.
  intros (T1 & T2 & T3 & (M1 & M2) & T5). unfold ComplexityManager.stopMonitoring.
  destruct (ComplexityManager.analysisIntervalId m) as [h |] eqn:Ei.
  - destruct (bookkeeping_clearInterval tm h isAnalysisTask isBackgroundTask T2
                (fun l => handles_disjoint_sym l h) M2) as (Ea & Eb).
    unfold timer_bookkeeping, monitor_invariant, analysisTimers in *.
    cbn [fst snd ComplexityManager.isAnalyzing ComplexityManager.analysisIntervalId].
    rewrite Ea, Eb. cbn [clearInterval intervals nextHandle].
    repeat split; auto using Forall_filter_keep, handles_distinct_filter.
  - unfold timer_bookkeeping, monitor_invariant in *.
    cbn [fst snd ComplexityManager.isAnalyzing ComplexityManager.analysisIntervalId].
    repeat split; auto.
Qed.

Lemma startBackgroundStreaming_timers w :
  timers_invariant w -> timers_invariant (startBackgroundStreaming w).
Proof.
  unfold timers_invariant, startBackgroundStreaming. intros H.
  destruct (outputCanvas (orch w)); [| exact H].
  destruct (backgroundOptions (orch w)) as [opts |]; [| exact H].
  destruct (backgroundTimer (orch w)) eqn:Et; [now rewrite Et |].
  destruct (enableComplexityManagement opts).
  - match goal with
    | |- context [ComplexityManager.startMonitoring ?c ?o ?m ?t] =>
      pose proof (bookkeeping_startMonitoring c o t None m H) as H1;
      destruct (ComplexityManager.startMonitoring c o m t) as [m1 tm1]
    end.
    cbn [fst snd] in H1.
    apply (bookkeeping_setInterval_background tm1 m1 (Z.max 10 (1000 / default 30 (fps opts))))
      in H1; [| lia].
    exact H1.
  - apply (bookkeeping_setInterval_background _ _ (Z.max 10 (1000 / default 30 (fps opts))))
      in H; [| lia].
    exact H.
Qed.

Lemma stopBackgroundStreaming_timers w :
  timers_invariant w -> timers_invariant (stopBackgroundStreaming w).
Proof.
  unfold timers_invariant, stopBackgroundStreaming. intros H.
  destruct (backgroundTimer (orch w)) as [h |] eqn:Et.
  - apply bookkeeping_clear_background in H.
    destruct (enabled (backgroundOptions (orch w))).
    + apply bookkeeping_stopMonitoring in H.
      destruct (ComplexityManager.stopMonitoring _ _). exact H.
    + exact H.
  - destruct (enabled (backgroundOptions (orch w))).
    + apply bookkeeping_stopMonitoring in H.
      destruct (ComplexityManager.stopMonitoring _ _). cbn. rewrite Et. exact H.
    + cbn. rewrite Et. exact H.
Qed.

Lemma start_timers w : timers_invariant w -> timers_invariant (start w).
Proof.
  unfold timers_invariant, start. intros H.
  destruct (animationId (orch w)); [exact H |].
  destruct (outputCanvas (orch w)); [| exact H].
  destruct (outputCtx (orch w)); [| exact H].
  cbn. revert H. apply bookkeeping_frames; [reflexivity | cbn; lia].
Qed.

Lemma draw_timers dom now o tm :
  intervals (snd (draw dom now o tm)) = intervals tm /\
  (nextHandle tm <= nextHandle (snd (draw dom now o tm)))%positive /\
  backgroundTimer (fst (draw dom now o tm)) = backgroundTimer o.
Proof.
  pose proof (draw_background dom now o tm) as Hb. unfold background in Hb.
  injection Hb as Hb _ _. split; [| split; [| exact Hb]].
  - unfold draw. destruct (outputCanvas o); [| reflexivity].
    destruct (outputCtx o); reflexivity.
  - unfold draw. destruct (outputCanvas o); [| cbn; lia].
    destruct (outputCtx o); cbn; lia.
Qed.

Lemma animationFrame_timers dom now w :
  timers_invariant w -> timers_invariant (animationFrame dom now w).
Proof.
  unfold timers_invariant, animationFrame. intros H.
  set (tm0 := {| nextHandle := _; intervals := _; frames := [] |}).
  assert (H0 : timer_bookkeeping tm0 (backgroundTimer (orch w)) (monitor w))
    by (revert H; apply bookkeeping_frames; [reflexivity | cbn; lia]).
  assert (G : forall (pending : list Handle) o tm,
             timer_bookkeeping tm (backgroundTimer o) (monitor w) ->
             timer_bookkeeping
               (snd (fold_left (fun acc _ => draw dom now (fst acc) (snd acc)) pending (o, tm)))
               (backgroundTimer
                  (fst (fold_left (fun acc _ => draw dom now (fst acc) (snd acc)) pending (o, tm))))
               (monitor w)).
  { induction pending as [| p rest IH]; intros o tm Hk; [exact Hk |].
    cbn [fold_left fst snd]. destruct (draw_timers dom now o tm) as (Ei & Hn & Eb).
    destruct (draw dom now o tm) as [o1 tm1]. cbn [fst snd] in *.
    apply IH. rewrite Eb. revert Hk. now apply bookkeeping_frames. }
  specialize (G (frames (timers w)) (orch w) tm0 H0).
  destruct (fold_left _ _ _) as [o tm]. exact G.
Qed.

Lemma stop_timers w : timers_invariant w -> timers_invariant (stop w).
Proof.
  intros H. unfold stop. apply stopBackgroundStreaming_timers.
  destruct (animationId (orch w)); [| exact H].
  unfold timers_invariant in *. cbn. revert H. apply bookkeeping_frames; [reflexivity | cbn; lia].
Qed.

Lemma setBackgroundOptions_timers options w :
  timers_invariant w -> timers_invariant (setBackgroundOptions options w).
Proof.
  intros H. unfold setBackgroundOptions, updateBackgroundStreaming.
  cbn [orch with_orch backgroundOptions set_background].
  destruct options as [opts |].
  - cbn [orch with_orch documentHidden]. destruct (documentHidden w);
      [apply startBackgroundStreaming_timers | apply stopBackgroundStreaming_timers]; exact H.
  - apply stopBackgroundStreaming_timers. exact H.
Qed.

Lemma ensureInitialized_timers ctxAvailable w :
  timers_invariant w -> timers_invariant (ensureInitialized ctxAvailable w).
Proof.
  intros H. unfold ensureInitialized. destruct (initialized (orch w)); [exact H |].
  destruct ctxAvailable; [| exact H]. cbn [negb]. apply setBackgroundOptions_timers. exact H.
Qed.

Lemma reachable_timers_invariant w : reachable w -> timers_invariant w.
Proof.
  induction 1 as [| ctx source w _ IH | dom now w _ IH | dom hidden w _ IH
                  | options w _ IH | w _ IH | w _ IH | ctx w _ IH | w _ IH | w _ IH
                  | w _ IH _].
  - unfold timers_invariant, timer_bookkeeping, monitor_invariant. cbn.
    repeat split; constructor.
  - apply (ensureInitialized_timers ctx) in IH. unfold setSource.
    set (w1 := ensureInitialized ctx w) in *. cbv zeta. cbn [animationId set_sources].
    destruct (animationId (orch w1)); [exact IH | apply start_timers; exact IH].
  - now apply animationFrame_timers.
  - unfold visibilityChange. cbn [orch].
    set (w1 := {| orch := orch w; documentHidden := hidden |}).
    assert (I1 : timers_invariant w1) by exact IH.
    destruct (visibilityHandler (orch w)); [| exact I1].
    unfold onVisibilityChange. destruct (backgroundOptions (orch w1)); [| exact I1].
    destruct (documentHidden w1); [now apply startBackgroundStreaming_timers |].
    cbv zeta.
    set (w2 := start (stopBackgroundStreaming w1)).
    assert (I2 : timers_invariant w2)
      by (apply start_timers, stopBackgroundStreaming_timers; exact I1).
    destruct (currentSource (orch w2)) as [s |]; [destruct (kind s) |];
      try destruct (paused (dom (element s))); cbn [orch outputStream];
      destruct (outputStream (orch w2)); exact I2.
  - now apply setBackgroundOptions_timers.
  - now apply stop_timers.
  - unfold kickTimeout. destruct (kickChains w); exact IH.
  - now apply ensureInitialized_timers.
  - now apply start_timers.
  - apply stop_timers in IH. exact IH.
  - exact IH.
Qed.

Lemma held_length (h : option Handle) : (length (held h) <= 1)%nat.
Proof. destruct h; cbn; lia. Qed.

(** X1: the foreground pump never doubles.  In every reachable world the
    pending animation-frame callbacks are exactly the one whose handle the
    orchestrator holds: at most one callback is pending, and the pump is
    active exactly when a handle is held. *)
Theorem single_pending_animation_frame w :
  reachable w ->
  frames (timers w) = held (animationId (orch w)) /\
  (length (frames (timers w)) <= 1)%nat /\
  (foregroundActive w = true <-> animationId (orch w) <> None).
Proof.
  intros Hr. destruct (reachable_frame_invariant w Hr) as (F1 & _).
  split; [exact F1 |]. split; [rewrite F1; apply held_length |].
  unfold foregroundActive. rewrite F1.
  destruct (animationId (orch w)) as [id |]; cbn.
  - rewrite Pos.eqb_refl. split; [discriminate | reflexivity].
  - split; [discriminate | intros H; contradiction].
Qed.

Lemma single_pending_animation_frame_witness :
  reachable Sample.camera_hidden /\
  (length (frames (timers Sample.camera_hidden)) <= 1)%nat.
Proof.
  split; [exact camera_hidden_reachable |].
  exact (proj1 (proj2 (single_pending_animation_frame Sample.camera_hidden
                         camera_hidden_reachable))).
Defined.

Lemma existsb_handle (h : Handle) (l : list (Handle * (Task * Z))) :
  In h (map fst l) -> existsb (fun e => Pos.eqb (fst e) h) l = true.
Proof.
  intros Hin. apply in_map_iff in Hin as (e & Ee & He).
  apply existsb_exists. exists e. split; [exact He |].
  destruct e as [x y]. cbn in Ee |- *. subst x. apply Pos.eqb_refl.
Qed.

Lemma filter_map_subset {A B} (f : A -> B) (p : A -> bool) (l : list A) (x : B) :
  In x (map f (filter p l)) -> In x (map f l).
Proof.
  intros Hin. apply in_map_iff in Hin as (y & Ey & Hy).
  apply filter_In in Hy as (Hy & _). apply in_map_iff. now exists y.
Qed.



Lemma stopBackgroundStreaming_monitor w :
  enabled (backgroundOptions (orch w)) = true ->
  ComplexityManager.isAnalyzing (monitor (stopBackgroundStreaming w)) = false /\
  ComplexityManager.analysisIntervalId (monitor (stopBackgroundStreaming w)) = None.
Proof.
  intros He. unfold stopBackgroundStreaming. rewrite He.
  destruct (backgroundTimer (orch w)); unfold ComplexityManager.stopMonitoring;
    destruct (ComplexityManager.analysisIntervalId (monitor w)); split; reflexivity.
Qed.

Lemma stop_idempotent w : stop (stop w) = stop w.
Proof.
  destruct w as [o tm m hid res kc].
  destruct o as [cv ctx str aid cur pend fade dur init bt bo vh bl].
  destruct m as [prev hist mx an iid].
  destruct bo as [[rate [|] copts hook] |], aid, bt, iid; reflexivity.
Qed.

(** X3: [stop] halts both pumps and is idempotent.  After [stop] on a
    reachable world no animation-frame callback is pending and no background
    interval timer is left; when the background options enable complexity
    management the analysis timer is gone too; a second [stop] changes
    nothing. *)
Theorem stop_halts_both_pumps w :
  reachable w ->
  let w' := stop w in
  animationId (orch w') = None /\ frames (timers w') = [] /\
  backgroundTimer (orch w') = None /\
  filter isBackgroundTask (intervals (timers w')) = [] /\
  (enabled (backgroundOptions (orch w)) = true ->
   ComplexityManager.isAnalyzing (monitor w') = false /\ analysisTimers (timers w') = []) /\
  stop w' = w'.
Proof.
  intros Hr w'.
  destruct (stop_frames w (reachable_frame_invariant w Hr)) as (A1 & A2 & _).
  destruct (stop_background w) as (Sb & _). unfold background in Sb. injection Sb as Et _ _.
  destruct (reachable_timers_invariant (stop w) (reach_stop w Hr)) as (_ & _ & T3 & (M1 & M2) & _).
  fold w' in A1, A2, Et, T3, M1, M2.
  split; [exact A1 |]. split; [exact A2 |]. split; [exact Et |].
  split; [rewrite Et in T3; now apply map_eq_nil in T3 |].
  split; [| apply stop_idempotent].
  intros He. subst w'. unfold stop in *.
  match goal with
  | |- context [stopBackgroundStreaming ?x] =>
    assert (He' : enabled (backgroundOptions (orch x)) = true)
      by (destruct (animationId (orch w)); exact He);
    destruct (stopBackgroundStreaming_monitor x He') as (Ha & Ei)
  end.
  split; [exact Ha |]. rewrite Ei in M2. now apply map_eq_nil in M2.
Qed.

Lemma stop_halts_both_pumps_witness :
  reachable Sample.camera_hidden /\
  frames (timers (stop Sample.camera_hidden)) = [] /\
  filter isBackgroundTask (intervals (timers (stop Sample.camera_hidden))) = [] /\
  stop (stop Sample.camera_hidden) = stop Sample.camera_hidden.
Proof.
  split; [exact camera_hidden_reachable |].
  destruct (stop_halts_both_pumps Sample.camera_hidden camera_hidden_reachable)
    as (_ & H2 & _ & H4 & _ & H6).
  split; [exact H2 |]. split; [exact H4 | exact H6].
Defined.

Lemma destroy_idempotent w : destroy (destroy w) = destroy w.
Proof.
  destruct w as [o tm m hid res kc].
  destruct o as [cv ctx str aid cur pend fade dur init bt bo vh bl].
  destruct m as [prev hist mx an iid].
  destruct bo as [[rate [|] copts hook] |], aid, bt, iid; reflexivity.
Qed.


Lemma same_registry_trans o1 o2 o3 :
  same_registry o1 o2 -> same_registry o2 o3 -> same_registry o1 o3.
Proof.
  unfold same_registry. intros (A1 & A2 & A3 & A4 & A5) (B1 & B2 & B3 & B4 & B5).
  rewrite B1, B2, B3, B4, B5. auto.
Qed.

Lemma stopBackgroundStreaming_registry w : same_registry (orch w) (orch (stopBackgroundStreaming w)).
Proof.
  unfold stopBackgroundStreaming.
  destruct (backgroundTimer (orch w)); destruct (enabled (backgroundOptions (orch w)));
    try destruct (ComplexityManager.stopMonitoring _ _); repeat split.
Qed.

Lemma startBackgroundStreaming_registry w :
  same_registry (orch w) (orch (startBackgroundStreaming w)).
Proof.
  unfold startBackgroundStreaming.
  destruct (outputCanvas (orch w)); [| repeat split].
  destruct (backgroundOptions (orch w)) as [opts |]; [| repeat split].
  destruct (backgroundTimer (orch w)); [repeat split |].
  destruct (enableComplexityManagement opts); [| repeat split].
  destruct (ComplexityManager.startMonitoring _ _ _ _). repeat split.
Qed.

Lemma setBackgroundOptions_registry options w :
  same_registry (orch w) (orch (setBackgroundOptions options w)).
Proof.
  unfold setBackgroundOptions, updateBackgroundStreaming.
  cbn [orch with_orch backgroundOptions set_background].
  destruct options as [opts |].
  - cbn [orch with_orch documentHidden].
    set (w2 := with_orch _ _).
    apply (same_registry_trans (orch w) (orch w2)); [repeat split |].
    destruct (documentHidden w);
      [apply startBackgroundStreaming_registry | apply stopBackgroundStreaming_registry].
  - set (w1 := with_orch _ _).
    apply (same_registry_trans (orch w) (orch w1)); [repeat split |].
    apply stopBackgroundStreaming_registry.
Qed.

Lemma start_registry w : same_registry (orch w) (orch (start w)).
Proof.
  unfold start.
  destruct (animationId (orch w)), (outputCanvas (orch w)), (outputCtx (orch w)); repeat split.
Qed.

Lemma start_surface w :
  outputCanvas (orch (start w)) = outputCanvas (orch w) /\
  outputCtx (orch (start w)) = outputCtx (orch w).
Proof.
  unfold start.
  destruct (animationId (orch w)), (outputCanvas (orch w)) eqn:Ec, (outputCtx (orch w)) eqn:Ex;
    cbn; auto.
Qed.

(** What [ensureInitialized] establishes when a context is available. *)
Lemma ensureInitialized_builds w :
  initialized (orch w) = false ->
  let w' := ensureInitialized true w in
  initialized (orch w') = true /\ outputCanvas (orch w') <> None /\
  outputCtx (orch w') <> None /\ outputStream (orch w') <> None /\
  currentSource (orch w') = currentSource (orch w) /\
  pendingSource (orch w') = pendingSource (orch w).
Proof.
  intros Hi. unfold ensureInitialized. rewrite Hi. cbn [negb].
  set (w1 := with_orch _ w).
  destruct (setBackgroundOptions_foreground (Some defaultBackgroundOptions) w1)
    as (_ & _ & B3 & B4).
  destruct (setBackgroundOptions_registry (Some defaultBackgroundOptions) w1)
    as (C1 & C2 & C3 & _ & C5).
  cbv zeta. rewrite B3, B4, C1, C2, C3, C5. subst w1. cbn.
  repeat split; discriminate.
Qed.

Lemma ensureInitialized_registry ctxAvailable w :
  currentSource (orch (ensureInitialized ctxAvailable w)) = currentSource (orch w) /\
  pendingSource (orch (ensureInitialized ctxAvailable w)) = pendingSource (orch w) /\
  crossfadeStartMs (orch (ensureInitialized ctxAvailable w)) = crossfadeStartMs (orch w).
Proof.
  unfold ensureInitialized. destruct (initialized (orch w)); [repeat split |].
  destruct ctxAvailable; [| repeat split]. cbn [negb].
  set (w1 := with_orch _ w).
  destruct (setBackgroundOptions_registry (Some defaultBackgroundOptions) w1)
    as (_ & C2 & C3 & C4 & _).
  rewrite C2, C3, C4. repeat split.
Qed.

(** What [setSource] does to the registrations and to the foreground pump. *)
Lemma setSource_effect ctxAvailable source w :
  let w1 := ensureInitialized ctxAvailable w in
  let w' := setSource ctxAvailable source w in
  pendingSource (orch w') = Some source /\ crossfadeStartMs (orch w') = None /\
  currentSource (orch w') = currentSource (orch w) /\
  initialized (orch w') = initialized (orch w1) /\
  outputCanvas (orch w') = outputCanvas (orch w1) /\
  outputCtx (orch w') = outputCtx (orch w1) /\
  (outputCanvas (orch w1) <> None -> outputCtx (orch w1) <> None ->
   animationId (orch w') <> None).
Proof.
  intros w1 w'. subst w'. unfold setSource. fold w1. cbv zeta.
  cbn [animationId set_sources].
  destruct (ensureInitialized_registry ctxAvailable w) as (R1 & _). fold w1 in R1.
  set (w2 := with_orch _ w1).
  destruct (animationId (orch w1)) eqn:Ea.
  - subst w2. cbn. rewrite R1, Ea. repeat split; auto; discriminate.
  - destruct (start_registry w2) as (D0 & D1 & D2 & D3 & _).
    destruct (start_surface w2) as (E1 & E2).
    rewrite D0, D1, D2, D3, E1, E2.
    assert (Hs : outputCanvas (orch w1) <> None -> outputCtx (orch w1) <> None ->
                 animationId (orch (start w2)) <> None)
      by (intros Hc Hx; apply start_animationId; subst w2; cbn; assumption).
    repeat split; try exact Hs; subst w2; cbn; auto.
Qed.

(** X4: [destroy] releases everything and can be undone by registering a
    source.  After [destroy] on a reachable world the orchestrator is
    uninitialised, holds no canvas, context, stream or source, has no
    visibility listener, no pending animation frame and no background timer,
    and a later visibility change no longer reaches it; a second [destroy]
    changes nothing; and [setSource] afterwards builds a fresh surface,
    queues the source and restarts the foreground pump. *)
Theorem destroy_releases_and_setSource_revives dom hidden source w :
  reachable w ->
  let w' := destroy w in
  let o' := orch w' in
  let revived := setSource true source w' in
  (initialized o' = false /\ outputCanvas o' = None /\ outputCtx o' = None /\
   outputStream o' = None /\ currentSource o' = None /\ pendingSource o' = None /\
   visibilityHandler o' = false) /\
  (animationId o' = None /\ frames (timers w') = [] /\ backgroundTimer o' = None /\
   filter isBackgroundTask (intervals (timers w')) = []) /\
  orch (visibilityChange dom hidden w') = o' /\
  destroy w' = w' /\
  (initialized (orch revived) = true /\ outputCanvas (orch revived) <> None /\
   pendingSource (orch revived) = Some source /\ currentSource (orch revived) = None /\
   foregroundActive revived = true).
Proof.
  intros Hr w' o' revived.
  assert (Hr' : reachable w') by (apply reach_destroy; exact Hr).
  destruct (reachable_timers_invariant w' Hr') as (_ & _ & T3 & _).
  destruct (reachable_frame_invariant w' Hr') as (F1 & _).
  destruct (stop_frames w (reachable_frame_invariant w Hr)) as (A1 & _).
  destruct (stop_background w) as (Sb & _). unfold background in Sb. injection Sb as A3 _ _.
  assert (Ea : animationId o' = None) by (subst o' w'; unfold destroy; cbn; exact A1).
  assert (Et : backgroundTimer o' = None) by (subst o' w'; unfold destroy; cbn; exact A3).
  split; [subst o' w'; unfold destroy; cbn; repeat split |].
  split.
  { split; [exact Ea |]. split; [fold o' in F1; rewrite Ea in F1; exact F1 |].
    split; [exact Et |]. fold o' in T3. rewrite Et in T3. now apply map_eq_nil in T3. }
  split; [subst o' w'; unfold visibilityChange, destroy; reflexivity |].
  split; [apply destroy_idempotent |].
  assert (Hrev : reachable revived) by (apply reach_setSource; exact Hr').
  destruct (reachable_frame_invariant revived Hrev) as (G1 & _).
  assert (Ei : initialized (orch w') = false) by (subst w'; reflexivity).
  destruct (ensureInitialized_builds w' Ei) as (B1 & B2 & B3 & _).
  destruct (setSource_effect true source w') as (S1 & _ & S3 & S4 & S5 & S6 & S7).
  cbv zeta in *. fold revived in S1, S3, S4, S5, S6, S7.
  rewrite S4, S5, S1, S3.
  split; [exact B1 |]. split; [exact B2 |]. split; [reflexivity |].
  split; [subst w'; reflexivity |].
  specialize (S7 B2 B3). unfold foregroundActive. rewrite G1.
  destruct (animationId (orch revived)); [cbn; now rewrite Pos.eqb_refl | contradiction].
Qed.

Lemma destroy_releases_and_setSource_revives_witness :
  reachable Sample.camera_hidden /\
  frames (timers (destroy Sample.camera_hidden)) = [] /\
  foregroundActive (setSource true Sample.sketchSource (destroy Sample.camera_hidden)) = true.
Proof.
  split; [exact camera_hidden_reachable |].
  destruct (destroy_releases_and_setSource_revives Sample.page true Sample.sketchSource
              Sample.camera_hidden camera_hidden_reachable)
    as (_ & (_ & H2 & _) & _ & _ & (_ & _ & _ & _ & H5)).
  split; [exact H2 | exact H5].
Defined.

(** ** Registering sources *)

Lemma surface_invariant_same w w' :
  initialized (orch w') = initialized (orch w) ->
  outputCanvas (orch w') = outputCanvas (orch w) ->
  (outputCtx (orch w) <> None -> outputCtx (orch w') <> None) ->
  surface_invariant w -> surface_invariant w'.
Proof.
  unfold surface_invariant. intros Ei Ec Ex H Hi. rewrite Ei in Hi.
  destruct (H Hi) as (Hc & Hx). rewrite Ec. auto.
Qed.

Lemma blitSource_initialized dom s a o : initialized (blitSource dom s a o) = initialized o.
Proof.
  destruct (blitSource_cases dom s a o) as [E | (c & v & _ & _ & _ & _ & E)];
    rewrite E; reflexivity.
Qed.

Lemma composite_initialized dom now o : initialized (composite dom now o) = initialized o.
Proof.
  unfold composite.
  destruct (pendingSource o) as [p |], (crossfadeStartMs o) as [s |],
           (currentSource o) as [c |]; cbv zeta; try reflexivity;
    repeat match goal with
           | |- context [if ?b then _ else _] => destruct b
           end;
    cbn [initialized set_sources]; rewrite ?blitSource_initialized; reflexivity.
Qed.

Lemma draw_initialized dom now o tm : initialized (fst (draw dom now o tm)) = initialized o.
Proof.
  unfold draw. destruct (outputCanvas o) as [cv |]; [| reflexivity].
  destruct (outputCtx o) as [ctx |]; [| reflexivity].
  cbv zeta. unfold requestAnimationFrame. cbn [fst].
  transitivity (initialized (composite dom now (armCrossfade dom now (clearSurface cv ctx o)))).
  - unfold markFrame. destruct (outputCtx _); reflexivity.
  - rewrite composite_initialized. unfold armCrossfade.
    destruct (pendingSource _); [| reflexivity].
    destruct (isSourceReady _ _); [| reflexivity].
    destruct (crossfadeStartMs _); reflexivity.
Qed.

Lemma draw_keeps_surface dom now o tm :
  outputCanvas (fst (draw dom now o tm)) = outputCanvas o /\
  (outputCtx o <> None -> outputCtx (fst (draw dom now o tm)) <> None).
Proof.
  destruct (outputCanvas o) as [cv |] eqn:Ec.
  - destruct (outputCtx o) as [ctx |] eqn:Ex.
    + destruct (draw_frames dom now o tm) as (_ & _ & A3 & A4);
        [rewrite Ec; discriminate | rewrite Ex; discriminate |].
      rewrite A3, Ec. split; auto.
    + unfold draw. rewrite Ec, Ex. cbn. rewrite Ec, Ex. split; auto.
  - unfold draw. rewrite Ec. cbn. rewrite Ec. split; auto.
Qed.

Lemma animationFrame_surface dom now w :
  surface_invariant w -> surface_invariant (animationFrame dom now w).
Proof.
  unfold animationFrame.
  set (tm0 := {| nextHandle := _; intervals := _; frames := [] |}).
  assert (G : forall (pending : list Handle) o tm,
             let o' := fst (fold_left (fun acc _ => draw dom now (fst acc) (snd acc))
                                      pending (o, tm)) in
             initialized o' = initialized o /\ outputCanvas o' = outputCanvas o /\
             (outputCtx o <> None -> outputCtx o' <> None)).
  { induction pending as [| p rest IH]; intros o tm; [cbn; auto |].
    cbn [fold_left fst snd].
    pose proof (draw_initialized dom now o tm) as Hi.
    destruct (draw_keeps_surface dom now o tm) as (Hc & Hx).
    destruct (draw dom now o tm) as [o1 tm1]. cbn [fst snd] in *.
    destruct (IH o1 tm1) as (Ji & Jc & Jx). cbv zeta.
    rewrite Ji, Jc, Hi, Hc. auto. }
  specialize (G (frames (timers w)) (orch w) tm0). cbv zeta in G.
  destruct (fold_left _ _ _) as [o tm]. cbn [fst] in G. destruct G as (Gi & Gc & Gx).
  apply surface_invariant_same; assumption.
Qed.

Lemma ensureInitialized_surface ctxAvailable w :
  surface_invariant w -> surface_invariant (ensureInitialized ctxAvailable w).
Proof.
  intros H. destruct (initialized (orch w)) eqn:Ei.
  - unfold ensureInitialized. rewrite Ei. exact H.
  - destruct ctxAvailable.
    + destruct (ensureInitialized_builds w Ei) as (_ & B2 & B3 & _). intros _. split; assumption.
    + unfold ensureInitialized. rewrite Ei. exact H.
Qed.

Lemma stop_frames_surface w :
  outputCanvas (orch (stop w)) = outputCanvas (orch w) /\
  outputCtx (orch (stop w)) = outputCtx (orch w) /\
  initialized (orch (stop w)) = initialized (orch w).
Proof.
  unfold stop.
  set (w1 := match animationId (orch w) with Some _ => _ | None => _ end).
  destruct (stopBackgroundStreaming_foreground w1) as (_ & _ & A3 & A4).
  destruct (stopBackgroundStreaming_registry w1) as (R1 & _).
  rewrite A3, A4, R1. subst w1. destruct (animationId (orch w)); repeat split.
Qed.

Lemma reachable_surface_invariant w : reachable w -> surface_invariant w.
Proof.
  induction 1 as [| ctx source w _ IH | dom now w _ IH | dom hidden w _ IH
                  | options w _ IH | w _ IH | w _ IH | ctx w _ IH | w _ IH | w _ IH
                  | w _ IH _].
  - intros H. discriminate H.
  - apply (ensureInitialized_surface ctx) in IH.
    destruct (setSource_effect ctx source w) as (_ & _ & _ & S4 & S5 & S6 & _).
    cbv zeta in *. revert IH. apply surface_invariant_same; auto. now rewrite S6.
  - now apply animationFrame_surface.
  - unfold visibilityChange. cbn [orch].
    set (w1 := {| orch := orch w; documentHidden := hidden |}).
    assert (I1 : surface_invariant w1) by exact IH.
    destruct (visibilityHandler (orch w)); [| exact I1].
    unfold onVisibilityChange. destruct (backgroundOptions (orch w1)); [| exact I1].
    destruct (documentHidden w1).
    + destruct (startBackgroundStreaming_foreground w1) as (_ & _ & A3 & A4).
      destruct (startBackgroundStreaming_registry w1) as (R1 & _).
      revert I1. apply surface_invariant_same; auto. now rewrite A4.
    + cbv zeta.
      set (w2 := start (stopBackgroundStreaming w1)).
      assert (I2 : surface_invariant w2).
      { destruct (stopBackgroundStreaming_foreground w1) as (_ & _ & A3 & A4).
        destruct (stopBackgroundStreaming_registry w1) as (R1 & _).
        destruct (start_surface (stopBackgroundStreaming w1)) as (E1 & E2).
        destruct (start_registry (stopBackgroundStreaming w1)) as (D1 & _).
        revert I1. apply surface_invariant_same.
        - subst w2. now rewrite D1, R1.
        - subst w2. now rewrite E1, A3.
        - subst w2. now rewrite E2, A4. }
      destruct (currentSource (orch w2)) as [s |]; [destruct (kind s) |];
        try destruct (paused (dom (element s))); cbn [orch outputStream];
        destruct (outputStream (orch w2)); revert I2;
        apply surface_invariant_same; auto.
  - destruct (setBackgroundOptions_foreground options w) as (_ & _ & A3 & A4).
    destruct (setBackgroundOptions_registry options w) as (R1 & _).
    revert IH. apply surface_invariant_same; auto. now rewrite A4.
  - destruct (stop_frames_surface w) as (A3 & A4 & Ai).
    revert IH. apply surface_invariant_same; auto. now rewrite A4.
  - unfold kickTimeout. destruct (kickChains w); [exact IH |].
    revert IH. apply surface_invariant_same; auto.
  - cbn. now apply ensureInitialized_surface.
  - destruct (start_surface w) as (E1 & E2). destruct (start_registry w) as (D1 & _).
    revert IH. apply surface_invariant_same; auto. now rewrite E2.
  - intros H. discriminate H.
  - revert IH. apply surface_invariant_same; auto.
Qed.

Lemma ensureInitialized_initialized w : initialized (orch (ensureInitialized true w)) = true.
Proof.
  destruct (initialized (orch w)) eqn:Ei.
  - unfold ensureInitialized. now rewrite Ei.
  - now destruct (ensureInitialized_builds w Ei) as (B1 & _).
Qed.

(** X5: registering a source.  On a reachable world, [setSource] (with a
    drawing context available) leaves the orchestrator initialised with the
    source queued as the pending one, the crossfade clock cleared and the
    current source untouched, and the foreground pump running.  A source
    registered while another is still pending simply replaces it. *)
Theorem setSource_queues_and_starts source later w :
  reachable w ->
  let w' := setSource true source w in
  initialized (orch w') = true /\
  pendingSource (orch w') = Some source /\ crossfadeStartMs (orch w') = None /\
  currentSource (orch w') = currentSource (orch w) /\
  foregroundActive w' = true /\
  pendingSource (orch (setSource true later w')) = Some later /\
  currentSource (orch (setSource true later w')) = currentSource (orch w).
Proof.
  intros Hr w'.
  assert (Hr1 : reachable (ensureInitialized true w)) by exact (reach_getStream true w Hr).
  pose proof (ensureInitialized_initialized w) as Hi.
  destruct (reachable_surface_invariant _ Hr1 Hi) as (Hc & Hx).
  destruct (setSource_effect true source w) as (S1 & S2 & S3 & S4 & _ & _ & S7).
  destruct (setSource_effect true later w') as (L1 & _ & L3 & _).
  cbv zeta in *. fold w' in S1, S2, S3, S4, S7.
  destruct (reachable_frame_invariant w' (reach_setSource true source w Hr)) as (F1 & _).
  split; [now rewrite S4 |]. split; [exact S1 |]. split; [exact S2 |]. split; [exact S3 |].
  split; [| split; [exact L1 | now rewrite L3]].
  specialize (S7 Hc Hx). unfold foregroundActive. rewrite F1.
  destruct (animationId (orch w')); [cbn; now rewrite Pos.eqb_refl | contradiction].
Qed.

Lemma setSource_queues_and_starts_witness :
  reachable Sample.camera_live /\
  pendingSource (orch (setSource true Sample.sketchSource Sample.camera_live)) =
    Some Sample.sketchSource /\
  foregroundActive (setSource true Sample.sketchSource Sample.camera_live) = true.
Proof.
  assert (Hr : reachable Sample.camera_live)
    by (apply reach_animationFrame, reach_setSource, reach_initial).
  destruct (setSource_queues_and_starts Sample.sketchSource Sample.cameraSource
              Sample.camera_live Hr) as (_ & H2 & _ & _ & H5 & _).
  split; [exact Hr |]. split; [exact H2 | exact H5].
Defined.

(** ** Ticks *)



(** ** What a tick paints *)

Lemma blitSource_paints dom s a o c :
  outputCtx o = Some c ->
  exists c' ops,
    outputCtx (blitSource dom s a o) = Some c' /\ paints c c' ops /\
    globalCompositeOperation c' = globalCompositeOperation c /\
    Forall visibleImage ops /\ (length ops <= 1)%nat /\
    outputCanvas (blitSource dom s a o) = outputCanvas o /\
    outputStream (blitSource dom s a o) = outputStream o.
Proof.
  intros Hc.
  destruct (blitSource_cases dom s a o) as [E | (c0 & v & Ec & Ev & _ & _ & E)]; rewrite E.
  - exists c, []. unfold paints. cbn. rewrite app_nil_r. repeat split; auto.
  - rewrite Hc in Ec. injection Ec as <-. cbn [outputCtx set_ctx outputCanvas outputStream log_blit].
    destruct (destination _ _ _ _) as [[[dx dy] dw] dh].
    destruct (drawable (dom (element s))) eqn:Hd.
    + rewrite drawWithAlpha_draws by exact Hd.
      eexists _, [DrawImage (element s) (Qmax 0 (Qmin 1 a)) dx dy dw dh].
      split; [reflexivity |]. unfold paints. cbn. repeat split; auto.
      constructor; [apply clamp_unit | constructor].
    + rewrite drawWithAlpha_raises by exact Hd.
      exists c, []. unfold paints. cbn. rewrite app_nil_r. repeat split; auto.
Qed.

Lemma composite_paints dom now o c :
  outputCtx o = Some c ->
  exists c' ops,
    outputCtx (composite dom now o) = Some c' /\ paints c c' ops /\
    globalCompositeOperation c' = globalCompositeOperation c /\
    Forall visibleImage ops /\ (length ops <= 2)%nat /\
    outputCanvas (composite dom now o) = outputCanvas o /\
    outputStream (composite dom now o) = outputStream o.
Proof.
  intros Hc.
  assert (Hnone : exists c' ops,
             outputCtx o = Some c' /\ paints c c' ops /\
             globalCompositeOperation c' = globalCompositeOperation c /\
             Forall visibleImage ops /\ (length ops <= 2)%nat /\
             outputCanvas o = outputCanvas o /\ outputStream o = outputStream o).
  { exists c, []. unfold paints. rewrite app_nil_r. cbn. repeat split; auto. }
  assert (Hone : forall s a, exists c' ops,
             outputCtx (blitSource dom s a o) = Some c' /\ paints c c' ops /\
             globalCompositeOperation c' = globalCompositeOperation c /\
             Forall visibleImage ops /\ (length ops <= 2)%nat /\
             outputCanvas (blitSource dom s a o) = outputCanvas o /\
             outputStream (blitSource dom s a o) = outputStream o).
  { intros s a. destruct (blitSource_paints dom s a o c Hc)
      as (c' & ops & E & P & G & F & L & Cv & St).
    exists c', ops. repeat split; auto; try apply P; lia. }
  assert (Htwo : forall s1 a1 s2 a2, exists c' ops,
             outputCtx (blitSource dom s2 a2 (blitSource dom s1 a1 o)) = Some c' /\
             paints c c' ops /\
             globalCompositeOperation c' = globalCompositeOperation c /\
             Forall visibleImage ops /\ (length ops <= 2)%nat /\
             outputCanvas (blitSource dom s2 a2 (blitSource dom s1 a1 o)) = outputCanvas o /\
             outputStream (blitSource dom s2 a2 (blitSource dom s1 a1 o)) = outputStream o).
  { intros s1 a1 s2 a2.
    destruct (blitSource_paints dom s1 a1 o c Hc)
      as (c1 & ops1 & E1 & (A1 & P1) & G1 & F1 & L1 & Cv1 & St1).
    destruct (blitSource_paints dom s2 a2 _ c1 E1)
      as (c2 & ops2 & E2 & (A2 & P2) & G2 & F2 & L2 & Cv2 & St2).
    exists c2, (ops1 ++ ops2). split; [exact E2 |].
    split; [split; [congruence | rewrite P2, P1, app_assoc; reflexivity] |].
    split; [congruence |]. split; [apply Forall_app; auto |].
    split; [rewrite length_app; lia |]. split; congruence. }
  unfold composite.
  destruct (pendingSource o) as [p |], (crossfadeStartMs o) as [started |],
           (currentSource o) as [cur |]; auto.
  - destruct (Qgeb _ 1); [| apply Htwo].
    destruct (Htwo cur (1 - Qmin 1 ((now - started) / crossfadeDurationMs o))%Q
                   p (Qmin 1 ((now - started) / crossfadeDurationMs o)))
      as (c' & ops & E & rest).
    exists c', ops. cbn [outputCtx outputCanvas outputStream set_sources]. auto.
  - destruct (isSourceReady dom p); [| exact Hnone].
    destruct (Hone p 1%Q) as (c' & ops & E & rest).
    exists c', ops. cbn [outputCtx outputCanvas outputStream set_sources]. auto.
  - destruct (isSourceReady dom p); [| exact Hnone].
    destruct (Hone p 1%Q) as (c' & ops & E & rest).
    exists c', ops. cbn [outputCtx outputCanvas outputStream set_sources]. auto.
Qed.

Lemma armCrossfade_surface_same dom now o :
  outputCtx (armCrossfade dom now o) = outputCtx o /\
  outputCanvas (armCrossfade dom now o) = outputCanvas o /\
  outputStream (armCrossfade dom now o) = outputStream o.
Proof.
  unfold armCrossfade. destruct (pendingSource o) as [p |]; [| auto].
  destruct (isSourceReady dom p); [| auto]. destruct (crossfadeStartMs o); auto.
Qed.

(** X7: what a tick paints.  With its surface in place, every tick first
    fills the whole surface with black, then draws at most two source images,
    each with an alpha between 0 and 1, and last the marker pixel in the
    bottom-right corner; it leaves the context's global alpha as it found it
    and the compositing mode at "source-over", asks the video track for one
    frame and queues exactly one next tick, whose handle it keeps. *)
Theorem draw_paints_black_sources_marker dom now o tm cv ctx :
  outputCanvas o = Some cv -> outputCtx o = Some ctx ->
  exists ctx' images,
    outputCtx (fst (draw dom now o tm)) = Some ctx' /\
    paints ctx ctx'
      ([FillRect "#000000" (globalAlpha ctx) 0 0 (cwidth cv) (cheight cv)] ++ images ++
       [FillRect "rgba(255, 0, 0, 0.01)" (globalAlpha ctx)
                 (cwidth cv - 1) (cheight cv - 1) 1 1]) /\
    Forall visibleImage images /\ (length images <= 2)%nat /\
    globalCompositeOperation ctx' = "source-over" /\
    outputCanvas (fst (draw dom now o tm)) = Some cv /\
    outputStream (fst (draw dom now o tm)) = option_map S (outputStream o) /\
    animationId (fst (draw dom now o tm)) = Some (nextHandle tm) /\
    frames (snd (draw dom now o tm)) = nextHandle tm :: frames tm.
Proof.
  intros Hcv Hctx. unfold draw. rewrite Hcv, Hctx. cbv zeta.
  unfold requestAnimationFrame. cbn [fst snd frames].
  set (c1 := fillRect 0 0 (cwidth cv) (cheight cv) (set_fill "source-over" "#000000" ctx)).
  assert (E1 : outputCtx (armCrossfade dom now (clearSurface cv ctx o)) = Some c1).
  { destruct (armCrossfade_surface_same dom now (clearSurface cv ctx o)) as (E & _).
    rewrite E. reflexivity. }
  destruct (armCrossfade_surface_same dom now (clearSurface cv ctx o)) as (_ & Cv1 & St1).
  destruct (composite_paints dom now _ c1 E1)
    as (c2 & images & E2 & (A2 & P2) & G2 & F2 & L2 & Cv2 & St2).
  set (o2 := composite dom now (armCrossfade dom now (clearSurface cv ctx o))) in *.
  unfold markFrame. rewrite E2.
  cbn [outputCtx outputCanvas outputStream animationId set_animationId requestFrame
       set_surface set_ctx].
  eexists _, images. split; [reflexivity |].
  split; [| split; [exact F2 | split; [exact L2 | split; [exact G2 |]]]].
  - unfold paints. cbn. rewrite A2, P2. subst c1. cbn. rewrite <- !app_assoc.
    split; reflexivity.
  - rewrite Cv2, Cv1, St2, St1. cbn. auto.
Qed.

Lemma draw_paints_black_sources_marker_witness :
  exists ctx' images,
    outputCtx (fst (draw Sample.page 0 Sample.idle noTimers)) = Some ctx' /\
    painted ctx' =
      [FillRect "#000000" 1 0 0 512 512] ++ images ++
      [FillRect "rgba(255, 0, 0, 0.01)" 1 511 511 1 1] /\
    (length images <= 2)%nat.
Proof.
  assert (Hcv : outputCanvas Sample.idle = Some Sample.surface) by (vm_compute; reflexivity).
  assert (Hctx : outputCtx Sample.idle = Some Sample.blank) by (vm_compute; reflexivity).
  destruct (draw_paints_black_sources_marker Sample.page 0 Sample.idle noTimers
              Sample.surface Sample.blank Hcv Hctx)
    as (ctx' & images & E & (_ & P) & _ & L & _).
  exists ctx', images. split; [exact E |]. split; [exact P | exact L].
Defined.

(** ** Readiness and drawing *)



(** ** Complexity management switched off *)

Lemma stopBackgroundStreaming_disabled w :
  enabled (backgroundOptions (orch w)) = false ->
  monitor (stopBackgroundStreaming w) = monitor w /\
  backgroundOptions (orch (stopBackgroundStreaming w)) = backgroundOptions (orch w).
Proof.
  intros He. unfold stopBackgroundStreaming. rewrite He.
  destruct (backgroundTimer (orch w)); split; reflexivity.
Qed.

Lemma startBackgroundStreaming_disabled w :
  enabled (backgroundOptions (orch w)) = false ->
  monitor (startBackgroundStreaming w) = monitor w /\
  backgroundOptions (orch (startBackgroundStreaming w)) = backgroundOptions (orch w).
Proof.
  intros He. unfold startBackgroundStreaming.
  destruct (outputCanvas (orch w)); [| split; reflexivity].
  destruct (backgroundOptions (orch w)) as [opts |] eqn:Eo; [| split; auto].
  destruct (backgroundTimer (orch w)); [split; auto |].
  cbn in He. rewrite He. cbn. split; [reflexivity | exact Eo].
Qed.

Lemma start_monitor w :
  monitor (start w) = monitor w /\
  backgroundOptions (orch (start w)) = backgroundOptions (orch w).
Proof.
  unfold start.
  destruct (animationId (orch w)), (outputCanvas (orch w)), (outputCtx (orch w));
    split; reflexivity.
Qed.

Lemma stop_disabled w :
  enabled (backgroundOptions (orch w)) = false ->
  monitor (stop w) = monitor w /\
  backgroundOptions (orch (stop w)) = backgroundOptions (orch w).
Proof.
  intros He. unfold stop.
  destruct (animationId (orch w)) as [id |]; [| apply stopBackgroundStreaming_disabled; exact He].
  cbv zeta. set (w1 := Build_World _ _ _ _ _ _).
  apply (stopBackgroundStreaming_disabled w1). exact He.
Qed.

Lemma onVisibilityChange_disabled dom w :
  enabled (backgroundOptions (orch w)) = false ->
  monitor (onVisibilityChange dom w) = monitor w.
Proof.
  intros He. unfold onVisibilityChange.
  destruct (backgroundOptions (orch w)) as [opts |] eqn:Eo; [| reflexivity].
  rewrite <- Eo in He.
  destruct (documentHidden w); [apply startBackgroundStreaming_disabled; exact He |].
  destruct (stopBackgroundStreaming_disabled w He) as (M1 & _).
  destruct (start_monitor (stopBackgroundStreaming w)) as (M2 & _).
  set (w1 := start (stopBackgroundStreaming w)) in *.
  assert (M3 : monitor w1 = monitor w) by congruence. clearbody w1.
  destruct (currentSource (orch w1)) as [s |];
    [destruct (kind s); [| destruct (paused (dom (element s)))] |];
    cbn [orch outputStream]; destruct (outputStream (orch w1)); exact M3.
Qed.

(** X9: switching complexity management off never stops the monitor.
    [stopBackgroundStreaming] decides whether to stop the complexity monitor
    from the options in force when it runs.  So once the options are cleared
    or set with complexity management off, the monitor is as it was, and it
    stays so through [stop], [destroy] and visibility changes: a monitor that
    was analyzing keeps its analysis timer running. *)
Theorem disabled_management_leaves_monitor_running options dom hidden w :
  reachable w -> enabled options = false ->
  let w' := setBackgroundOptions options w in
  backgroundOptions (orch w') = options /\
  monitor w' = monitor w /\ monitor (stop w') = monitor w /\
  monitor (destroy w') = monitor w /\
  monitor (visibilityChange dom hidden w') = monitor w /\
  (ComplexityManager.isAnalyzing (monitor w) = true ->
   analysisTimers (timers (destroy w')) <> []).
Proof.
  intros Hr He w'.
  assert (H1 : backgroundOptions (orch w') = options /\ monitor w' = monitor w).
  { subst w'. unfold setBackgroundOptions, updateBackgroundStreaming.
    cbn [orch with_orch backgroundOptions set_background].
    destruct options as [opts |].
    - cbn [orch with_orch documentHidden]. set (w2 := with_orch _ _).
      assert (He2 : enabled (backgroundOptions (orch w2)) = false) by exact He.
      destruct (documentHidden w).
      + destruct (startBackgroundStreaming_disabled w2 He2) as (M & B).
        split; [exact B | exact M].
      + destruct (stopBackgroundStreaming_disabled w2 He2) as (M & B).
        split; [exact B | exact M].
    - set (w1 := with_orch _ _).
      assert (He1 : enabled (backgroundOptions (orch w1)) = false) by reflexivity.
      destruct (stopBackgroundStreaming_disabled w1 He1) as (M & B).
      split; [exact B | exact M]. }
  destruct H1 as (B1 & M1).
  assert (He' : enabled (backgroundOptions (orch w')) = false) by (rewrite B1; exact He).
  destruct (stop_disabled w' He') as (M2 & _).
  assert (M3 : monitor (destroy w') = monitor w)
    by (unfold destroy; cbn [monitor with_orch]; congruence).
  split; [exact B1 |]. split; [exact M1 |]. split; [congruence |]. split; [exact M3 |].
  split.
  - unfold visibilityChange. cbn [orch].
    destruct (visibilityHandler (orch w')); [| exact M1].
    rewrite onVisibilityChange_disabled by exact He'. exact M1.
  - intros Ha.
    assert (Hr' : reachable (destroy w'))
      by (apply reach_destroy, reach_setBackgroundOptions; exact Hr).
    destruct (reachable_timers_invariant _ Hr') as (_ & _ & _ & (I1 & I2) & _).
    rewrite M3 in I1, I2. rewrite Ha in I1.
    destruct (ComplexityManager.analysisIntervalId (monitor w)); [| discriminate].
    intros E. rewrite E in I2. discriminate.
Qed.

Lemma disabled_management_leaves_monitor_running_witness :
  reachable Sample.camera_hidden /\
  ComplexityManager.isAnalyzing (monitor Sample.camera_hidden) = true /\
  ComplexityManager.isAnalyzing
    (monitor (destroy (setBackgroundOptions None Sample.camera_hidden))) = true /\
  analysisTimers (timers (destroy (setBackgroundOptions None Sample.camera_hidden))) <> [].
Proof.
  assert (Ha : ComplexityManager.isAnalyzing (monitor Sample.camera_hidden) = true)
    by (vm_compute; reflexivity).
  destruct (disabled_management_leaves_monitor_running None Sample.page false
              Sample.camera_hidden camera_hidden_reachable eq_refl)
    as (_ & _ & _ & M3 & _ & T).
  split; [exact camera_hidden_reachable |]. split; [exact Ha |].
  split; [rewrite M3; exact Ha | exact (T Ha)].
Defined.

(** ** Coming back to the foreground *)

Lemma kick_chain w n :
  outputStream (orch w) = Some n -> kickChains w = [] ->
  let w5 := kickTimeout (kickTimeout (kickTimeout (kickTimeout (kick 0 w)))) in
  outputStream (orch (kick 0 w)) = Some (S n) /\
  outputStream (orch w5) = Some (5 + n)%nat /\
  kickChains w5 = [] /\ kickTimeout w5 = w5 /\ resumed w5 = resumed w.
Proof.
  destruct w as [o tm m hid res kc].
  destruct o as [cv ctx str aid cur pend fade dur init bt bo vh bl].
  cbn [orch outputStream kickChains]. intros -> ->. cbv zeta.
  repeat split; reflexivity.
Qed.

Lemma stopBackgroundStreaming_page w :
  resumed (stopBackgroundStreaming w) = resumed w /\
  kickChains (stopBackgroundStreaming w) = kickChains w.
Proof.
  unfold stopBackgroundStreaming.
  destruct (backgroundTimer (orch w)), (enabled (backgroundOptions (orch w)));
    cbv zeta; try destruct (ComplexityManager.stopMonitoring _ _); split; reflexivity.
Qed.

Lemma start_page w : resumed (start w) = resumed w /\ kickChains (start w) = kickChains w.
Proof.
  unfold start.
  destruct (animationId (orch w)), (outputCanvas (orch w)), (outputCtx (orch w));
    split; reflexivity.
Qed.

(** X10: coming back to the foreground.  When the page becomes visible again
    while the listener is installed and the output stream exists, the
    listener asks a paused current video to play, requests one frame on the
    track at once and one more on each of the next four kick timeouts, five
    in all; after that no kick is pending and a further timeout changes
    nothing. *)
Theorem visible_again_kicks_five_frames dom w n :
  reachable w -> visibilityHandler (orch w) = true ->
  outputStream (orch w) = Some n -> kickChains w = [] ->
  let w1 := visibilityChange dom false w in
  let w5 := kickTimeout (kickTimeout (kickTimeout (kickTimeout w1))) in
  outputStream (orch w1) = Some (S n) /\
  outputStream (orch w5) = Some (5 + n)%nat /\
  kickChains w5 = [] /\ kickTimeout w5 = w5 /\
  resumed w1 =
    resumed w ++
    match currentSource (orch w) with
    | Some s =>
      match kind s with
      | video => if paused (dom (element s)) then [element s] else []
      | canvas => []
      end
    | None => []
    end /\
  resumed w5 = resumed w1.
Proof.
  intros Hr Hv Hs Hk.
  destruct (reachable_pump_invariant w Hr) as (_ & _ & P3). specialize (P3 Hv).
  unfold visibilityChange. cbn [orch]. rewrite Hv.
  set (w0 := Build_World _ _ _ _ _ _).
  unfold onVisibilityChange. cbn [orch documentHidden w0].
  destruct (backgroundOptions (orch w)) as [opts |]; [clear P3 | contradiction].
  fold w0.
  destruct (stopBackgroundStreaming_registry w0) as (_ & C1 & _ & _ & S1).
  destruct (start_registry (stopBackgroundStreaming w0)) as (_ & C2 & _ & _ & S2).
  destruct (stopBackgroundStreaming_page w0) as (R1 & K1).
  destruct (start_page (stopBackgroundStreaming w0)) as (R2 & K2).
  set (w1 := start (stopBackgroundStreaming w0)) in *.
  assert (Hs1 : outputStream (orch w1) = Some n) by (rewrite S2, S1; exact Hs).
  assert (Hc1 : currentSource (orch w1) = currentSource (orch w)) by (rewrite C2, C1; reflexivity).
  assert (Hk1 : kickChains w1 = []) by (rewrite K2, K1; exact Hk).
  assert (Hr1 : resumed w1 = resumed w) by (rewrite R2, R1; reflexivity).
  clearbody w1. clear C1 C2 S1 S2 R1 R2 K1 K2. rewrite Hc1. cbv zeta.
  assert (Hplain : forall w2, outputStream (orch w2) = Some n -> kickChains w2 = [] ->
            forall extra, resumed w2 = resumed w ++ extra ->
            let w3 := match outputStream (orch w2) with Some _ => kick 0 w2 | None => w2 end in
            let w5 := kickTimeout (kickTimeout (kickTimeout (kickTimeout w3))) in
            outputStream (orch w3) = Some (S n) /\
            outputStream (orch w5) = Some (5 + n)%nat /\
            kickChains w5 = [] /\ kickTimeout w5 = w5 /\
            resumed w3 = resumed w ++ extra /\ resumed w5 = resumed w3).
  { intros w2 Hs2 Hk2 extra Hr2. cbv zeta. rewrite Hs2.
    destruct (kick_chain w2 n Hs2 Hk2) as (A1 & A2 & A3 & A4 & A5). cbv zeta in *.
    repeat split; auto. }
  destruct (currentSource (orch w)) as [s |].
  - destruct (kind s).
    + apply Hplain; auto. now rewrite app_nil_r.
    + destruct (paused (dom (element s))).
      * apply Hplain; cbn; auto. now rewrite Hr1.
      * apply Hplain; auto. now rewrite app_nil_r.
  - apply Hplain; auto. now rewrite app_nil_r.
Qed.

Lemma visible_again_kicks_five_frames_witness :
  reachable Sample.camera_hidden /\
  outputStream (orch (visibilityChange Sample.page false Sample.camera_hidden)) = Some 2%nat /\
  kickChains (kickTimeout (kickTimeout (kickTimeout (kickTimeout
     (visibilityChange Sample.page false Sample.camera_hidden))))) = [].
Proof.
  assert (Hv : visibilityHandler (orch Sample.camera_hidden) = true) by (vm_compute; reflexivity).
  assert (Hs : outputStream (orch Sample.camera_hidden) = Some 1%nat) by (vm_compute; reflexivity).
  assert (Hk : kickChains Sample.camera_hidden = []) by (vm_compute; reflexivity).
  destruct (visible_again_kicks_five_frames Sample.page Sample.camera_hidden 1
              camera_hidden_reachable Hv Hs Hk) as (H1 & _ & H3 & _).
  split; [exact camera_hidden_reachable |]. split; [exact H1 | exact H3].
Defined.

(** ** The output stream *)

Lemma keeps_stream_refl o : keeps_stream o o.
Proof. repeat split; auto. Qed.

Lemma keeps_stream_trans o1 o2 o3 :
  keeps_stream o1 o2 -> keeps_stream o2 o3 -> keeps_stream o1 o3.
Proof.
  intros (A1 & A2 & A3) (B1 & B2 & B3). unfold keeps_stream.
  rewrite B1, B2. split; [exact A1 |]. split; [exact A2 |].
  split; intros H; [apply A3, B3, H | apply B3, A3, H].
Qed.

Lemma keeps_stream_invariant w w' :
  keeps_stream (orch w) (orch w') -> stream_invariant w -> stream_invariant w'.
Proof.
  unfold stream_invariant. intros (A1 & A2 & A3). rewrite A1, A2.
  destruct (initialized (orch w)).
  - intros H E. apply H, A3, E.
  - intros (Hc & Hs). split; [exact Hc | apply A3, Hs].
Qed.

Lemma keeps_stream_registry o o' :
  same_registry o o' -> outputCanvas o' = outputCanvas o -> keeps_stream o o'.
Proof.
  intros (R1 & _ & _ & _ & R5) Hc. unfold keeps_stream. rewrite R1, R5, Hc.
  repeat split; auto.
Qed.

Lemma requestFrame_keeps_stream o : keeps_stream o (requestFrame o).
Proof.
  unfold keeps_stream, requestFrame. cbn.
  destruct (outputStream o); cbn; repeat split; auto; discriminate.
Qed.

Lemma stopBackgroundStreaming_keeps_stream w :
  keeps_stream (orch w) (orch (stopBackgroundStreaming w)).
Proof.
  apply keeps_stream_registry; [apply stopBackgroundStreaming_registry |].
  now destruct (stopBackgroundStreaming_foreground w) as (_ & _ & A3 & _).
Qed.

Lemma startBackgroundStreaming_keeps_stream w :
  keeps_stream (orch w) (orch (startBackgroundStreaming w)).
Proof.
  apply keeps_stream_registry; [apply startBackgroundStreaming_registry |].
  now destruct (startBackgroundStreaming_foreground w) as (_ & _ & A3 & _).
Qed.

Lemma setBackgroundOptions_keeps_stream options w :
  keeps_stream (orch w) (orch (setBackgroundOptions options w)).
Proof.
  apply keeps_stream_registry; [apply setBackgroundOptions_registry |].
  now destruct (setBackgroundOptions_foreground options w) as (_ & _ & A3 & _).
Qed.

Lemma start_keeps_stream w : keeps_stream (orch w) (orch (start w)).
Proof.
  apply keeps_stream_registry; [apply start_registry |].
  now destruct (start_surface w).
Qed.

Lemma stop_keeps_stream w : keeps_stream (orch w) (orch (stop w)).
Proof.
  unfold stop.
  set (w1 := match animationId (orch w) with Some _ => _ | None => _ end).
  apply (keeps_stream_trans _ (orch w1)); [| apply stopBackgroundStreaming_keeps_stream].
  subst w1. destruct (animationId (orch w)); repeat split; auto.
Qed.

Lemma draw_keeps_stream dom now o tm : keeps_stream o (fst (draw dom now o tm)).
Proof.
  split; [apply draw_initialized |]. split; [apply draw_keeps_surface |].
  unfold draw. destruct (outputCanvas o) as [cv |]; [| reflexivity].
  destruct (outputCtx o) as [ctx |]; [| reflexivity].
  cbv zeta. unfold requestAnimationFrame. cbn [fst outputStream set_animationId].
  destruct (armCrossfade_surface_same dom now (clearSurface cv ctx o)) as (E1 & _ & S1).
  destruct (composite_paints dom now _ _ E1) as (c2 & ops & E2 & _ & _ & _ & _ & _ & S2).
  unfold markFrame. rewrite E2. cbn [requestFrame set_surface outputStream set_ctx].
  rewrite S2, S1. cbn [outputStream clearSurface set_ctx].
  destruct (outputStream o); cbn; split; auto; discriminate.
Qed.

Lemma animationFrame_keeps_stream dom now w :
  keeps_stream (orch w) (orch (animationFrame dom now w)).
Proof.
  unfold animationFrame.
  set (tm0 := {| nextHandle := _; intervals := _; frames := [] |}).
  assert (G : forall (pending : list Handle) o tm,
             keeps_stream o (fst (fold_left (fun acc _ => draw dom now (fst acc) (snd acc))
                                            pending (o, tm)))).
  { induction pending as [| p rest IH]; intros o tm; [apply keeps_stream_refl |].
    cbn [fold_left fst snd].
    pose proof (draw_keeps_stream dom now o tm) as Hd.
    destruct (draw dom now o tm) as [o1 tm1]. cbn [fst snd] in *.
    exact (keeps_stream_trans _ _ _ Hd (IH o1 tm1)). }
  specialize (G (frames (timers w)) (orch w) tm0).
  destruct (fold_left _ _ _) as [o tm]. exact G.
Qed.

Lemma kick_keeps_stream kicks w : keeps_stream (orch w) (orch (kick kicks w)).
Proof. apply requestFrame_keeps_stream. Qed.

Lemma onVisibilityChange_keeps_stream dom w :
  keeps_stream (orch w) (orch (onVisibilityChange dom w)).
Proof.
  unfold onVisibilityChange.
  destruct (backgroundOptions (orch w)); [| apply keeps_stream_refl].
  destruct (documentHidden w); [apply startBackgroundStreaming_keeps_stream |].
  cbv zeta. set (w1 := start (stopBackgroundStreaming w)).
  assert (H1 : keeps_stream (orch w) (orch w1)).
  { apply (keeps_stream_trans _ (orch (stopBackgroundStreaming w)));
      [apply stopBackgroundStreaming_keeps_stream | apply start_keeps_stream]. }
  clearbody w1.
  assert (H2 : forall w2, orch w2 = orch w1 ->
            keeps_stream (orch w)
              (orch match outputStream (orch w2) with Some _ => kick 0 w2 | None => w2 end)).
  { intros w2 E. destruct (outputStream (orch w2)).
    - apply (keeps_stream_trans _ (orch w2)); [now rewrite E | apply kick_keeps_stream].
    - now rewrite E. }
  destruct (currentSource (orch w1)) as [s |];
    [destruct (kind s); [| destruct (paused (dom (element s)))] |]; now apply H2.
Qed.

Lemma ensureInitialized_stream ctxAvailable w :
  stream_invariant w -> stream_invariant (ensureInitialized ctxAvailable w).
Proof.
  intros H. destruct (initialized (orch w)) eqn:Ei.
  - unfold ensureInitialized. rewrite Ei. exact H.
  - destruct ctxAvailable.
    + destruct (ensureInitialized_builds w Ei) as (B1 & _ & _ & B4 & _).
      unfold stream_invariant. cbv zeta in B1. rewrite B1. exact B4.
    + unfold ensureInitialized. rewrite Ei. exact H.
Qed.

Lemma setSource_after_ensure ctxAvailable source w :
  keeps_stream (orch (ensureInitialized ctxAvailable w)) (orch (setSource ctxAvailable source w)).
Proof.
  unfold setSource. cbv zeta. cbn [animationId set_sources].
  set (w1 := ensureInitialized ctxAvailable w).
  set (w2 := with_orch _ w1).
  assert (H2 : keeps_stream (orch w1) (orch w2)) by (subst w2; repeat split; auto).
  destruct (animationId (orch w1)); [exact H2 |].
  exact (keeps_stream_trans _ _ _ H2 (start_keeps_stream w2)).
Qed.

Lemma reachable_stream_invariant w : reachable w -> stream_invariant w.
Proof.
  induction 1 as [| ctx source w _ IH | dom now w _ IH | dom hidden w _ IH
                  | options w _ IH | w _ IH | w _ IH | ctx w _ IH | w _ IH | w _ IH
                  | w _ IH _].
  - split; reflexivity.
  - apply (ensureInitialized_stream ctx) in IH. revert IH.
    apply keeps_stream_invariant, setSource_after_ensure.
  - revert IH. apply keeps_stream_invariant, animationFrame_keeps_stream.
  - unfold visibilityChange. cbn [orch].
    set (w1 := {| orch := orch w; documentHidden := hidden |}).
    assert (I1 : stream_invariant w1) by exact IH.
    destruct (visibilityHandler (orch w)); [| exact I1].
    revert I1. apply keeps_stream_invariant, onVisibilityChange_keeps_stream.
  - revert IH. apply keeps_stream_invariant, setBackgroundOptions_keeps_stream.
  - revert IH. apply keeps_stream_invariant, stop_keeps_stream.
  - unfold kickTimeout. destruct (kickChains w) as [| kicks rest]; [exact IH |].
    revert IH. apply keeps_stream_invariant.
    match goal with |- keeps_stream _ (orch (kick _ ?x)) => exact (kick_keeps_stream kicks x) end.
  - now apply ensureInitialized_stream.
  - revert IH. apply keeps_stream_invariant, start_keeps_stream.
  - split; reflexivity.
  - revert IH. apply keeps_stream_invariant. apply requestFrame_keeps_stream.
Qed.

Lemma ensureInitialized_idempotent ctxAvailable w :
  ensureInitialized ctxAvailable (ensureInitialized ctxAvailable w) =
  ensureInitialized ctxAvailable w.
Proof.
  destruct (initialized (orch w)) eqn:Ei.
  - assert (E : ensureInitialized ctxAvailable w = w)
      by (unfold ensureInitialized; now rewrite Ei).
    now rewrite !E.
  - destruct ctxAvailable.
    + pose proof (ensureInitialized_initialized w) as Hi.
      unfold ensureInitialized at 1. now rewrite Hi.
    + assert (E : ensureInitialized false w = w)
        by (unfold ensureInitialized; now rewrite Ei).
      now rewrite !E.
Qed.

(** X11: the output stream is built once, and only with a drawing context.
    On a reachable world [getStream] (with a context available) returns a
    stream, and asking again returns the same one without building anything;
    on an initialised orchestrator it changes nothing.  Without a context an
    uninitialised orchestrator stays so: [getStream] returns no stream, and
    [setSource] still records the source as pending but starts no pump.  A
    later [getStream] with a context builds the stream and keeps the source
    pending with the pump still idle; the next [setSource] starts it. *)
Theorem getStream_builds_once source w :
  reachable w ->
  snd (getStream true w) <> None /\
  getStream true (fst (getStream true w)) = getStream true w /\
  (initialized (orch w) = true ->
   forall ctxAvailable, getStream ctxAvailable w = (w, outputStream (orch w))) /\
  (initialized (orch w) = false ->
   getStream false w = (w, None) /\
   let w' := setSource false source w in
   initialized (orch w') = false /\ pendingSource (orch w') = Some source /\
   foregroundActive w' = false /\
   pendingSource (orch (fst (getStream true w'))) = Some source /\
   foregroundActive (fst (getStream true w')) = false /\
   foregroundActive (setSource true source (fst (getStream true w'))) = true).
Proof.
  intros Hr.
  assert (Hr1 : reachable (ensureInitialized true w)) by exact (reach_getStream true w Hr).
  pose proof (reachable_stream_invariant _ Hr1) as H1.
  unfold stream_invariant in H1. rewrite ensureInitialized_initialized in H1.
  unfold getStream. cbv zeta. cbn [fst snd].
  split; [exact H1 |]. split; [now rewrite ensureInitialized_idempotent |].
  split.
  - intros Hi ctxAvailable. unfold ensureInitialized. now rewrite Hi.
  - intros Hi.
    pose proof (reachable_stream_invariant w Hr) as H0.
    unfold stream_invariant in H0. rewrite Hi in H0. destruct H0 as (Hc & Hs).
    assert (E0 : ensureInitialized false w = w) by (unfold ensureInitialized; now rewrite Hi).
    split; [now rewrite E0, Hs |].
    assert (Hr' : reachable (setSource false source w)) by now apply reach_setSource.
    destruct (setSource_effect false source w) as (S1 & _ & _ & S4 & S5 & _).
    cbv zeta in S1, S4, S5. rewrite E0 in S4, S5. rewrite Hi in S4. rewrite Hc in S5.
    set (w' := setSource false source w) in *.
    assert (Ha : forall v, reachable v -> animationId (orch v) = None -> foregroundActive v = false)
      by (intros v _ Ev; unfold foregroundActive; now rewrite Ev).
    assert (Hn : forall v, reachable v -> outputCanvas (orch v) = None ->
                           animationId (orch v) = None).
    { intros v Hv Ev. destruct (reachable_frame_invariant v Hv) as (_ & F2).
      destruct (animationId (orch v)); [| reflexivity].
      destruct F2 as (F2 & _); [discriminate | contradiction]. }
    pose proof (Hn w' Hr' S5) as A1.
    split; [exact S4 |]. split; [exact S1 |]. split; [now apply Ha |].
    destruct (ensureInitialized_registry true w') as (_ & P1 & _).
    assert (Hr2 : reachable (ensureInitialized true w')) by exact (reach_getStream true w' Hr').
    assert (A2 : animationId (orch (ensureInitialized true w')) = None).
    { unfold ensureInitialized. rewrite S4. cbn [negb].
      destruct (setBackgroundOptions_foreground (Some defaultBackgroundOptions)
                  (with_orch (set_surface (Some {| cwidth := 512; cheight := 512 |})
                     (Some {| globalAlpha := 1; globalCompositeOperation := "source-over";
                              fillStyle := "#000000"; painted := [] |})
                     (Some 0%nat) true (orch w')) w')) as (F1 & _).
      rewrite F1. exact A1. }
    split; [now rewrite P1 |]. split; [now apply Ha |].
    assert (Hr3 : reachable (setSource true source (ensureInitialized true w')))
      by now apply reach_setSource.
    destruct (setSource_effect true source (ensureInitialized true w'))
      as (_ & _ & _ & _ & _ & _ & T7).
    cbv zeta in T7. rewrite ensureInitialized_idempotent in T7.
    destruct (reachable_surface_invariant _ Hr2 (ensureInitialized_initialized w')) as (Hc2 & Hx2).
    specialize (T7 Hc2 Hx2).
    destruct (reachable_frame_invariant _ Hr3) as (G1 & _).
    unfold foregroundActive. rewrite G1.
    destruct (animationId (orch (setSource true source (ensureInitialized true w'))));
      [cbn; now rewrite Pos.eqb_refl | contradiction].
Qed.

Lemma getStream_builds_once_witness :
  reachable start_world /\
  getStream false start_world = (start_world, None) /\
  snd (getStream true start_world) <> None.
Proof.
  destruct (getStream_builds_once Sample.cameraSource start_world reach_initial)
    as (H1 & _ & _ & H4).
  destruct (H4 eq_refl) as (H5 & _).
  split; [exact reach_initial |]. split; [exact H5 | exact H1].
Defined.

(** ** The complexity history *)






(** ** The average complexity *)




(** ** Normalised metrics *)



Lemma Qsquare_nonneg (q : Q) : (0 <= q * q)%Q.
Proof.
  destruct (Qlt_le_dec q 0) as [Hn | Hp].
  - assert (E : (q * q == (- q) * (- q))%Q) by ring. rewrite E.
    apply Qmult_le_0_compat; lra.
  - apply Qmult_le_0_compat; lra.
Qed.

Lemma fold_sum_bounds {A} (g : A -> Q) (hi : Q) (l : list A) :
  (forall x, (0 <= g x <= hi)%Q) ->
  forall a : Q,
    (a <= fold_left (fun acc x => acc + g x) l a)%Q /\
    (fold_left (fun acc x => acc + g x) l a <= a + hi * inject_Z (Z.of_nat (length l)))%Q.
Proof.
  intros Hg. induction l as [| x l IH]; intros a.
  - cbn [fold_left length]. change (inject_Z (Z.of_nat 0)) with 0%Q. split; lra.
  - cbn [fold_left length]. destruct (IH (a + g x)%Q) as (I1 & I2).
    destruct (Hg x) as (G1 & G2).
    rewrite Nat2Z.inj_succ, <- Z.add_1_r, inject_Z_plus.
    change (inject_Z 1) with 1%Q. split; lra.
Qed.








(** ** What the analysis looks at *)

Lemma getImageData_block sw sh a b :
  sameBlock sw sh a b ->
  ComplexityManager.getImageData a sw sh = ComplexityManager.getImageData b sw sh.
Proof.
  intros (_ & Hw & Hh & Hp). unfold ComplexityManager.getImageData. f_equal.
  apply flat_map_ext_in. intros y Hy. apply flat_map_ext_in. intros x Hx.
  apply range_bounds in Hy, Hx.
  unfold ComplexityManager.readPixel. now rewrite Hw, Hh, Hp.
Qed.

Lemma sample_side (w m : Z) :
  0 < m -> Qfloor (inject_Z w / (inject_Z m / 128)) = 128 * w / m.
Proof.
  intros Hm. rewrite Zdiv_Qdiv. apply Qfloor_comp.
  rewrite inject_Z_mult. change (inject_Z 128) with 128%Q.
  assert (Hq : (0 < inject_Z m)%Q) by now apply inject_Z_pos.
  field. lra.
Qed.

Lemma analyzeFrameComplexity_block sqrt st a b :
  0 < ComplexityManager.width a -> 0 < ComplexityManager.height a ->
  let m := Z.min (ComplexityManager.width a) (ComplexityManager.height a) in
  sameBlock (128 * ComplexityManager.width a / m) (128 * ComplexityManager.height a / m) a b ->
  ComplexityManager.analyzeFrameComplexity sqrt st a =
  ComplexityManager.analyzeFrameComplexity sqrt st b.
Proof.
  intros Hw Hh m Hb. pose proof Hb as (Hc & Ew & Eh & _).
  unfold ComplexityManager.analyzeFrameComplexity. rewrite <- Hc, <- Ew, <- Eh.
  destruct (ComplexityManager.has2d a); [| reflexivity]. cbn [negb].
  destruct (Qeq_bool _ 0); [reflexivity |]. fold m.
  assert (Hm : 0 < m) by (subst m; lia).
  rewrite !(sample_side _ m Hm).
  rewrite (getImageData_block _ _ a b Hb). reflexivity.
Qed.

(** X15: the analysis looks at the top-left block only.  The sample is not
    a reduction of the whole canvas: it is the rectangle of
    [128 * width / min] by [128 * height / min] canvas pixels at the top-left
    corner, whose smaller side is 128.  Two canvases of the same size that
    show the same pixels inside that rectangle get the same analysis,
    whatever they show elsewhere; for a square canvas the rectangle is the
    top-left 128 x 128 block. *)
Theorem analysis_reads_top_left_block sqrt st a b :
  0 < ComplexityManager.width a -> 0 < ComplexityManager.height a ->
  let m := Z.min (ComplexityManager.width a) (ComplexityManager.height a) in
  let sw := 128 * ComplexityManager.width a / m in
  let sh := 128 * ComplexityManager.height a / m in
  sameBlock sw sh a b ->
  ComplexityManager.analyzeFrameComplexity sqrt st a =
    ComplexityManager.analyzeFrameComplexity sqrt st b /\
  Z.min sw sh = 128 /\
  (ComplexityManager.width a = ComplexityManager.height a -> sw = 128 /\ sh = 128).
Proof.
  intros Hw Hh m sw sh Hb.
  split; [now apply analyzeFrameComplexity_block |].
  assert (Hself : forall v, 0 < v -> 128 * v / v = 128) by (intros; apply Z.div_mul; lia).
  assert (Hge : forall u v, 0 < u -> u <= v -> 128 <= 128 * v / u).
  { intros u v Hu Hv. rewrite <- (Hself u Hu) at 1. apply Z.div_le_mono; lia. }
  subst sw sh m.
  set (w := ComplexityManager.width a) in *. set (h := ComplexityManager.height a) in *.
  split.
  - destruct (Z.le_ge_cases w h) as [Hle | Hle].
    + replace (Z.min w h) with w by lia. rewrite Hself by lia. apply Z.min_l, Hge; lia.
    + replace (Z.min w h) with h by lia. rewrite Hself by lia. apply Z.min_r, Hge; lia.
  - intros E. rewrite <- E, Z.min_id, Hself by lia. auto.
Qed.

Lemma analysis_reads_top_left_block_witness :
  let busy :=
    {| ComplexityManager.width := 512; ComplexityManager.height := 512;
       ComplexityManager.has2d := true;
       ComplexityManager.pixel := fun x y =>
         if (x <? 128) && (y <? 128)
         then ComplexityManager.pixel (Sample.flat 90) x y
         else ComplexityManager.pixel (Sample.flat ((x + y) mod 256)) x y;
       ComplexityManager.overlays := [] |} in
  ComplexityManager.analyzeFrameComplexity Sample.exactSqrt Sample.seen_black (Sample.flat 90) =
  ComplexityManager.analyzeFrameComplexity Sample.exactSqrt Sample.seen_black busy.
Proof.
  intros busy.
  assert (Hb : sameBlock 128 128 (Sample.flat 90) busy).
  { repeat split. intros x y Hx Hy. subst busy. cbn [ComplexityManager.pixel].
    destruct (Z.ltb_spec x 128); [| lia]. destruct (Z.ltb_spec y 128); [| lia]. reflexivity. }
  assert (Hw : 0 < ComplexityManager.width (Sample.flat 90)) by reflexivity.
  assert (Hh : 0 < ComplexityManager.height (Sample.flat 90)) by reflexivity.
  exact (proj1 (analysis_reads_top_left_block Sample.exactSqrt Sample.seen_black
                  (Sample.flat 90) busy Hw Hh Hb)).
Defined.

(** X16: a canvas that does not change has no temporal complexity.  When an
    analysis succeeds and the next analysis finds the same pixels inside the
    sample block, the second one measures temporal complexity 0, the same
    spatial complexity and frame variance as the first, and an overall
    complexity of half the spatial one. *)
Theorem unchanged_canvas_has_no_temporal_complexity sqrt st a b m1 st1 :
  ComplexityManager.has2d a = true ->
  0 < ComplexityManager.width a -> 0 < ComplexityManager.height a ->
  let m := Z.min (ComplexityManager.width a) (ComplexityManager.height a) in
  sameBlock (128 * ComplexityManager.width a / m) (128 * ComplexityManager.height a / m) a b ->
  ComplexityManager.analyzeFrameComplexity sqrt st a = Some (m1, st1) ->
  exists m2 st2,
    ComplexityManager.analyzeFrameComplexity sqrt st1 b = Some (m2, st2) /\
    (ComplexityManager.temporalComplexity m2 == 0)%Q /\
    ComplexityManager.spatialComplexity m2 = ComplexityManager.spatialComplexity m1 /\
    ComplexityManager.frameVariance m2 = ComplexityManager.frameVariance m1 /\
    (ComplexityManager.overallComplexity m2 == ComplexityManager.spatialComplexity m1 / 2)%Q.
Proof.
  intros Hctx Hw Hh m Hb Ea.
  rewrite <- (analyzeFrameComplexity_block sqrt st1 a b Hw Hh Hb).
  destruct (sample_scale _ _ Hw Hh) as (Hsc & Hsw & Hsh). cbv zeta in Hsc, Hsw, Hsh.
  unfold ComplexityManager.analyzeFrameComplexity in *. rewrite Hctx in *. cbn [negb] in *.
  rewrite Hsc in *.
  set (sample := ComplexityManager.getImageData a _ _) in *.
  injection Ea as <- <-. eexists _, _. split; [reflexivity |].
  cbn [ComplexityManager.temporalComplexity ComplexityManager.spatialComplexity
       ComplexityManager.frameVariance ComplexityManager.overallComplexity].
  assert (Ht : (ComplexityManager.calculateTemporalComplexity
                  {| ComplexityManager.previousFrameData := Some sample;
                     ComplexityManager.complexityHistory :=
                       ComplexityManager.pushHistory st
                         ((ComplexityManager.calculateSpatialComplexity sqrt sample +
                           ComplexityManager.calculateTemporalComplexity st sample) / 2);
                     ComplexityManager.maxHistorySize := ComplexityManager.maxHistorySize st;
                     ComplexityManager.isAnalyzing := ComplexityManager.isAnalyzing st;
                     ComplexityManager.analysisIntervalId :=
                       ComplexityManager.analysisIntervalId st |} sample == 0)%Q).
  { unfold ComplexityManager.calculateTemporalComplexity.
    cbn [ComplexityManager.previousFrameData]. rewrite !Z.eqb_refl. cbn [negb orb]. cbv zeta.
    set (g := fun i => Qabs (ComplexityManager.gray (ComplexityManager.data sample) i -
                             ComplexityManager.gray (ComplexityManager.data sample) i)).
    assert (Hg : forall i, (0 <= g i <= 0)%Q).
    { intros i. subst g. cbv beta.
      assert (E : (ComplexityManager.gray (ComplexityManager.data sample) i -
                   ComplexityManager.gray (ComplexityManager.data sample) i == 0)%Q) by ring.
      rewrite E. split; discriminate. }
    destruct (fold_sum_bounds g 0 (ComplexityManager.stride4
                (ComplexityManager.dataLength sample)) Hg 0%Q) as (B1 & B2).
    set (D := fold_left _ _ 0%Q) in *.
    assert (E : (D == 0)%Q) by lra. rewrite E. reflexivity. }
  split; [exact Ht |]. split; [reflexivity |]. split; [reflexivity |].
  rewrite Ht. field.
Qed.

Lemma unchanged_canvas_has_no_temporal_complexity_witness :
  exists m1 st1 m2 st2,
    ComplexityManager.analyzeFrameComplexity Sample.exactSqrt Sample.seen_black
      (Sample.flat 90) = Some (m1, st1) /\
    ComplexityManager.analyzeFrameComplexity Sample.exactSqrt st1 (Sample.flat 90) =
      Some (m2, st2) /\
    (ComplexityManager.temporalComplexity m2 == 0)%Q.
Proof.
  assert (E : exists m1 st1,
             ComplexityManager.analyzeFrameComplexity Sample.exactSqrt Sample.seen_black
               (Sample.flat 90) = Some (m1, st1)).
  { unfold ComplexityManager.analyzeFrameComplexity.
    change (ComplexityManager.has2d (Sample.flat 90)) with true. cbn [negb].
    change (ComplexityManager.width (Sample.flat 90)) with 512.
    change (ComplexityManager.height (Sample.flat 90)) with 512.
    destruct (sample_scale 512 512 ltac:(lia) ltac:(lia)) as (Hs & _). cbv zeta in Hs.
    rewrite Hs. eexists _, _. reflexivity. }
  destruct E as (m1 & st1 & E1).
  exists m1, st1.
  assert (Hb : sameBlock (128 * 512 / Z.min 512 512) (128 * 512 / Z.min 512 512)
                         (Sample.flat 90) (Sample.flat 90)) by (repeat split).
  destruct (unchanged_canvas_has_no_temporal_complexity Sample.exactSqrt Sample.seen_black
              (Sample.flat 90) (Sample.flat 90) m1 st1 eq_refl ltac:(reflexivity)
              ltac:(reflexivity) Hb E1) as (m2 & st2 & E2 & T & _).
  exists m2, st2. split; [exact E1 |]. split; [exact E2 | exact T].
Defined.

(** ** Verdicts of a validation *)

Lemma onTimeUpdate_invariant aborted now t c :
  call_invariant c -> call_invariant (Stabilizer.onTimeUpdate aborted now t c).
Proof.
  unfold Stabilizer.onTimeUpdate. intros H.
  destruct (Stabilizer.sink c) as [s |] eqn:Es; [| exact H].
  destruct (Stabilizer.attached s) eqn:Ea; cbn [negb]; [| exact H].
  pose proof H as H0. unfold call_invariant in H0. rewrite Es in H0.
  destruct (Stabilizer.resolved c) as [r |] eqn:Er.
  { destruct H0 as (_ & H0 & _). rewrite Ea in H0. discriminate H0. }
  destruct H0 as (s0 & E0 & _ & Hf). injection E0 as <-.
  destruct aborted.
  - unfold call_invariant. cbn. rewrite Er. cbn. repeat split; try discriminate. all: lia.
  - destruct (Qeq_bool t (Stabilizer.lastFrameTime s)); cbn [negb]; [exact H |].
    cbn [Stabilizer.frames Stabilizer.needed].
    destruct (Z.leb_spec (Stabilizer.needed s) (Stabilizer.frames s + 1)) as [Hle | Hgt].
    + unfold call_invariant. cbn. rewrite Er. cbn. repeat split; auto. lia.
    + unfold call_invariant. cbn. rewrite Er. eexists. split; [reflexivity |].
      cbn. split; [reflexivity | lia].
Qed.

Lemma onTimeout_invariant now c :
  call_invariant c -> call_invariant (Stabilizer.onTimeout now c).
Proof.
  unfold Stabilizer.onTimeout. intros H.
  destruct (Stabilizer.sink c) as [s |] eqn:Es; [| exact H].
  destruct (Stabilizer.attached s) eqn:Ea; cbn [negb]; [| exact H].
  pose proof H as H0. unfold call_invariant in H0. rewrite Es in H0.
  destruct (Stabilizer.resolved c) as [r |] eqn:Er.
  { destruct H0 as (_ & H0 & _). rewrite Ea in H0. discriminate H0. }
  destruct H0 as (s0 & E0 & _ & Hf). injection E0 as <-.
  unfold call_invariant. cbn. rewrite Er. cbn. repeat split; try discriminate. all: lia.
Qed.

Lemma onPlayRejected_invariant now c :
  call_invariant c -> call_invariant (Stabilizer.onPlayRejected now c).
Proof.
  unfold Stabilizer.onPlayRejected. intros H.
  destruct (Stabilizer.sink c) as [s |] eqn:Es; [| exact H].
  pose proof H as H0. unfold call_invariant in H0. rewrite Es in H0.
  destruct (Stabilizer.resolved c) as [r |] eqn:Er.
  - unfold call_invariant. cbn. rewrite Er. destruct H0 as (H1 & H2 & H3). auto.
  - destruct H0 as (s0 & E0 & _ & Hf). injection E0 as <-.
    unfold call_invariant. cbn. rewrite Er. cbn. repeat split; try discriminate. all: lia.
Qed.

Lemma updateCall_calls n f v c :
  Stabilizer.calls v !! n = Some c ->
  Stabilizer.calls (Stabilizer.updateCall n f v) = <[n := f c]> (Stabilizer.calls v).
Proof. intros E. unfold Stabilizer.updateCall. now rewrite E. Qed.

Lemma step_invariant v e :
  Forall call_invariant (Stabilizer.calls v) ->
  Forall call_invariant (Stabilizer.calls (Stabilizer.step v e)).
Proof.
  intros H.
  assert (Hupd : forall n f, (forall c, call_invariant c -> call_invariant (f c)) ->
            Forall call_invariant (Stabilizer.calls (Stabilizer.updateCall n f v))).
  { intros n f Hf. unfold Stabilizer.updateCall.
    destruct (Stabilizer.calls v !! n) as [c |] eqn:E; [| exact H].
    cbn. apply Forall_insert; [exact H |]. apply Hf.
    exact (Forall_lookup_1 _ _ _ _ H E). }
  destruct e as [now stream options | n now t | n now | n now | n | sid |].
  - unfold Stabilizer.step, Stabilizer.validateStreamStability. cbn [Stabilizer.calls].
    apply Forall_app. split; [exact H |]. constructor; [| constructor].
    unfold Stabilizer.performValidation.
    destruct (negb _); [cbn; repeat split; discriminate |].
    destruct (_ =? _)%nat; [cbn; repeat split; discriminate |].
    destruct (_ && _); [cbn; repeat split; discriminate |].
    destruct (Stabilizer.videoTracks stream) as [| [|] rest];
      try (cbn; repeat split; discriminate);
      unfold call_invariant; cbn; eexists; (split; [reflexivity |]); cbn; split; auto; lia.
  - apply Hupd. intros c. apply onTimeUpdate_invariant.
  - apply Hupd. intros c. apply onTimeout_invariant.
  - apply Hupd. intros c. apply onPlayRejected_invariant.
  - unfold Stabilizer.step, Stabilizer.resume.
    destruct (Stabilizer.calls v !! n) as [c |] eqn:E; [| exact H].
    destruct (Stabilizer.resolved c) as [r |] eqn:Er; [| exact H].
    destruct (Stabilizer.returned c); [exact H |].
    cbn. apply Forall_insert; [exact H |].
    pose proof (Forall_lookup_1 _ _ _ _ H E) as Hc.
    unfold call_invariant in *. cbn. rewrite Er in *. exact Hc.
  - unfold Stabilizer.step, Stabilizer.cancelValidation.
    destruct (Stabilizer.pendingValidations v !! sid); exact H.
  - exact H.
Qed.

Lemma run_snoc v es e :
  Stabilizer.run v (es ++ [e]) = Stabilizer.step (Stabilizer.run v es) e.
Proof. unfold Stabilizer.run. now rewrite fold_left_app. Qed.

Lemma run_invariant es :
  Forall call_invariant (Stabilizer.calls (Stabilizer.run Stabilizer.initial es)).
Proof.
  induction es as [| e es IH] using rev_ind; [constructor |].
  rewrite run_snoc. now apply step_invariant.
Qed.

(** A resolved promise keeps its value whatever is delivered next. *)
Lemma step_final v e n c r :
  Stabilizer.calls v !! n = Some c -> Stabilizer.resolved c = Some r ->
  exists c', Stabilizer.calls (Stabilizer.step v e) !! n = Some c' /\
             Stabilizer.resolved c' = Some r.
Proof.
  intros E Er.
  assert (Hn : (n < length (Stabilizer.calls v))%nat) by (eapply lookup_lt_Some; exact E).
  assert (Hupd : forall m f, (forall c0, Stabilizer.resolved c0 = Some r ->
                                         Stabilizer.resolved (f c0) = Some r) ->
            exists c', Stabilizer.calls (Stabilizer.updateCall m f v) !! n = Some c' /\
                       Stabilizer.resolved c' = Some r).
  { intros m f Hf. unfold Stabilizer.updateCall.
    destruct (Stabilizer.calls v !! m) as [c0 |] eqn:E0; [| now exists c].
    cbn. destruct (Nat.eq_dec m n) as [-> | Hne].
    - rewrite list_lookup_insert_eq by exact Hn. eexists. split; [reflexivity |].
      apply Hf. rewrite E in E0. now injection E0 as <-.
    - rewrite list_lookup_insert_ne by exact Hne. now exists c. }
  destruct e as [now stream options | m now t | m now | m now | m | sid |].
  - exists c. split; [| exact Er].
    unfold Stabilizer.step, Stabilizer.validateStreamStability. cbn [Stabilizer.calls].
    rewrite lookup_app_l by exact Hn. exact E.
  - apply Hupd. intros c0 E0. unfold Stabilizer.onTimeUpdate.
    destruct (Stabilizer.sink c0) as [s |]; [| exact E0].
    destruct (negb _); [exact E0 |].
    destruct (Stabilizer.isAborted v c0); [cbn; now rewrite E0 |].
    destruct (negb _); [| exact E0].
    destruct (_ <=? _); cbn; now rewrite ?E0.
  - apply Hupd. intros c0 E0. unfold Stabilizer.onTimeout.
    destruct (Stabilizer.sink c0) as [s |]; [| exact E0].
    destruct (negb _); [exact E0 |]. cbn. now rewrite E0.
  - apply Hupd. intros c0 E0. unfold Stabilizer.onPlayRejected.
    destruct (Stabilizer.sink c0) as [s |]; [| exact E0]. cbn. now rewrite E0.
  - unfold Stabilizer.step, Stabilizer.resume.
    destruct (Stabilizer.calls v !! m) as [c0 |] eqn:E0; [| now exists c].
    destruct (Stabilizer.resolved c0) as [r0 |] eqn:Er0; [| now exists c].
    destruct (Stabilizer.returned c0); [now exists c |].
    cbn. destruct (Nat.eq_dec m n) as [-> | Hne].
    + rewrite list_lookup_insert_eq by exact Hn. eexists. split; [reflexivity |].
      cbn. rewrite E in E0. injection E0 as <-. congruence.
    + rewrite list_lookup_insert_ne by exact Hne. now exists c.
  - exists c. split; [| exact Er]. unfold Stabilizer.step, Stabilizer.cancelValidation.
    destruct (Stabilizer.pendingValidations v !! sid); exact E.
  - now exists c.
Qed.

(** X17: a validation always settles, and settles once.  After any sequence
    of events, a call whose promise is still unresolved has its play-back
    sink attached, so its timeout is pending, and when that timeout fires the
    promise resolves with "Validation timeout"; a promise that has resolved
    keeps its result whatever event is delivered next. *)
Theorem validation_settles_once es n c :
  Stabilizer.calls (Stabilizer.run Stabilizer.initial es) !! n = Some c ->
  (Stabilizer.resolved c = None ->
   (exists s, Stabilizer.sink c = Some s /\ Stabilizer.attached s = true) /\
   forall now, exists c' r,
     Stabilizer.calls (Stabilizer.run Stabilizer.initial (es ++ [Stabilizer.Timeout n now])) !! n
       = Some c' /\
     Stabilizer.resolved c' = Some r /\ Stabilizer.isStable r = false /\
     Stabilizer.error r = Some "Validation timeout") /\
  (forall r, Stabilizer.resolved c = Some r ->
   forall e, exists c',
     Stabilizer.calls (Stabilizer.run Stabilizer.initial (es ++ [e])) !! n = Some c' /\
     Stabilizer.resolved c' = Some r).
Proof.
  intros E. pose proof (Forall_lookup_1 _ _ _ _ (run_invariant es) E) as Hc.
  split.
  - intros Er. unfold call_invariant in Hc. rewrite Er in Hc.
    destruct Hc as (s & Es & Ea & _). split; [now exists s |].
    intros now. rewrite run_snoc. cbn [Stabilizer.step].
    rewrite (updateCall_calls _ _ _ _ E).
    rewrite list_lookup_insert_eq by (eapply lookup_lt_Some; exact E).
    unfold Stabilizer.onTimeout. rewrite Es, Ea. cbn [negb].
    unfold Stabilizer.resolve. rewrite Er.
    eexists _, _. split; [reflexivity |]. repeat split.
  - intros r Er e. rewrite run_snoc. now apply step_final with (c := c).
Qed.

Lemma validation_settles_once_witness :
  exists c,
    Stabilizer.calls (Stabilizer.run Stabilizer.initial
      [Stabilizer.Validate 0 Sample.stalled Sample.quick]) !! 0%nat = Some c /\
    Stabilizer.resolved c = None /\
    exists c' r,
      Stabilizer.calls (Stabilizer.run Stabilizer.initial
        ([Stabilizer.Validate 0 Sample.stalled Sample.quick] ++ [Stabilizer.Timeout 0 500]))
        !! 0%nat = Some c' /\
      Stabilizer.resolved c' = Some r /\ Stabilizer.error r = Some "Validation timeout".
Proof.
  eexists. split; [reflexivity |]. split; [reflexivity |].
  destruct (validation_settles_once [Stabilizer.Validate 0 Sample.stalled Sample.quick]
              0%nat _ eq_refl) as (H & _).
  destruct (H eq_refl) as (_ & Ht). destruct (Ht 500) as (c' & r & E1 & E2 & _ & E4).
  exists c', r. split; [exact E1 |]. split; [exact E2 | exact E4].
Defined.

(** X18: what a verdict says.  After any sequence of events, a resolved
    validation is stable exactly when its result carries no error.  A stable
    verdict reports exactly the number of frames that were required, and one
    frame at least even when none were required; a failed verdict of a call
    that got as far as playing the stream reports fewer frames than that,
    and one that failed before (inactive stream, missing or ended tracks)
    reports none. *)
Theorem verdict_counts_frames es n c r :
  Stabilizer.calls (Stabilizer.run Stabilizer.initial es) !! n = Some c ->
  Stabilizer.resolved c = Some r ->
  (Stabilizer.isStable r = true <-> Stabilizer.error r = None) /\
  match Stabilizer.sink c with
  | Some s =>
    Stabilizer.attached s = false /\
    if Stabilizer.isStable r
    then Stabilizer.frameCount r = Z.max (Stabilizer.needed s) 1
    else 0 <= Stabilizer.frameCount r < Z.max (Stabilizer.needed s) 1
  | None => Stabilizer.isStable r = false /\ Stabilizer.frameCount r = 0
  end.
Proof.
  intros E Er. pose proof (Forall_lookup_1 _ _ _ _ (run_invariant es) E) as Hc.
  unfold call_invariant in Hc. rewrite Er in Hc. exact Hc.
Qed.

Lemma verdict_counts_frames_witness :
  exists c r,
    Stabilizer.calls (Stabilizer.run Stabilizer.initial Sample.twice_flowing) !! 1%nat = Some c /\
    Stabilizer.resolved c = Some r /\
    (Stabilizer.isStable r = true <-> Stabilizer.error r = None).
Proof.
  eexists _, _. split; [reflexivity |]. split; [reflexivity |].
  exact (proj1 (verdict_counts_frames Sample.twice_flowing 1%nat _ _ eq_refl eq_refl)).
Defined.

(** ** Cancelling validations *)

Lemma cancelAllValidations_aborted v c :
  c ∈ Stabilizer.abortedSignals (Stabilizer.cancelAllValidations v) <->
  c ∈ Stabilizer.abortedSignals v \/
  exists sid, Stabilizer.pendingValidations v !! sid = Some c.
Proof.
  unfold Stabilizer.cancelAllValidations. cbn [Stabilizer.abortedSignals].
  apply (map_fold_weak_ind
           (fun (r : gset nat) (m : gmap string nat) =>
              c ∈ r <-> c ∈ Stabilizer.abortedSignals v \/ exists sid, m !! sid = Some c)).
  - split; [now left |]. intros [H | (sid & H)]; [exact H |].
    rewrite lookup_empty in H. discriminate.
  - intros i x m r Hi IH. rewrite elem_of_union, elem_of_singleton, IH. split.
    + intros [-> | [H | (sid & H)]].
      * right. exists i. apply lookup_insert_eq.
      * now left.
      * right. exists sid. rewrite lookup_insert_ne; [exact H |].
        intros ->. rewrite Hi in H. discriminate.
    + intros [H | (sid & H)]; [right; now left |].
      destruct (decide (i = sid)) as [-> | Hne].
      * rewrite lookup_insert_eq in H. injection H as ->. now left.
      * rewrite lookup_insert_ne in H by exact Hne. right. right. now exists sid.
Qed.

(** X19: cancelling everything.  [cancelAllValidations] empties the map of
    pending validations and aborts exactly the controllers that were in it:
    a signal is aborted afterwards if and only if it was aborted before or
    its controller was pending.  The calls themselves are untouched until
    their next [timeupdate], which then resolves a call that was pending
    with "Validation aborted"; cancelling again, all or by stream id,
    changes nothing. *)
Theorem cancelAllValidations_aborts_pending v :
  let v' := Stabilizer.cancelAllValidations v in
  Stabilizer.pendingValidations v' = ∅ /\
  Stabilizer.calls v' = Stabilizer.calls v /\
  (forall c, c ∈ Stabilizer.abortedSignals v' <->
             c ∈ Stabilizer.abortedSignals v \/
             exists sid, Stabilizer.pendingValidations v !! sid = Some c) /\
  (forall c s now t,
     Stabilizer.pendingValidations v !! Stabilizer.streamId c = Some (Stabilizer.controller c) ->
     Stabilizer.sink c = Some s -> Stabilizer.attached s = true ->
     Stabilizer.resolved c = None ->
     Stabilizer.resolved (Stabilizer.onTimeUpdate (Stabilizer.isAborted v' c) now t c) =
     Some {| Stabilizer.isStable := false; Stabilizer.frameCount := Stabilizer.frames s;
             Stabilizer.timeElapsed := now - Stabilizer.startTime s;
             Stabilizer.error := Some "Validation aborted" |}) /\
  Stabilizer.cancelAllValidations v' = v' /\
  (forall sid, Stabilizer.cancelValidation sid v' = v').
Proof.
  intros v'. split; [reflexivity |]. split; [reflexivity |].
  split; [intros c; apply cancelAllValidations_aborted |]. split; [| split].
  - intros c s now t Hp Es Ea Er.
    assert (Hab : Stabilizer.isAborted v' c = true).
    { unfold Stabilizer.isAborted. apply bool_decide_eq_true.
      apply cancelAllValidations_aborted. right. now exists (Stabilizer.streamId c). }
    rewrite Hab. unfold Stabilizer.onTimeUpdate. rewrite Es, Ea. cbn. now rewrite Er.
  - subst v'. unfold Stabilizer.cancelAllValidations at 1.
    cbn [Stabilizer.pendingValidations Stabilizer.cancelAllValidations
         Stabilizer.abortedSignals Stabilizer.nextController Stabilizer.calls].
    rewrite map_fold_empty. reflexivity.
  - intros sid. subst v'. unfold Stabilizer.cancelValidation.
    cbn [Stabilizer.pendingValidations Stabilizer.cancelAllValidations].
    now rewrite lookup_empty.
Qed.

(** ** A superseded call and the pending map *)

Lemma handler_controller v n f :
  (forall c, Stabilizer.controller (f c) = Stabilizer.controller c) ->
  Stabilizer.pendingValidations (Stabilizer.updateCall n f v) = Stabilizer.pendingValidations v /\
  Stabilizer.abortedSignals (Stabilizer.updateCall n f v) = Stabilizer.abortedSignals v /\
  Stabilizer.nextController (Stabilizer.updateCall n f v) = Stabilizer.nextController v.
Proof.
  intros _. unfold Stabilizer.updateCall.
  destruct (Stabilizer.calls v !! n); repeat split.
Qed.

Lemma updateCall_fresh v n f : controllers_fresh v -> controllers_fresh (Stabilizer.updateCall n f v).
Proof.
  unfold controllers_fresh, Stabilizer.updateCall.
  destruct (Stabilizer.calls v !! n); auto.
Qed.

Lemma step_fresh v e : controllers_fresh v -> controllers_fresh (Stabilizer.step v e).
Proof.
  intros (Hp & Ha).
  destruct e as [now stream options | n now t | n now | n now | n | sid |];
    try (apply updateCall_fresh; split; assumption).
  - unfold Stabilizer.step, Stabilizer.validateStreamStability, controllers_fresh.
    cbn [Stabilizer.pendingValidations Stabilizer.abortedSignals Stabilizer.nextController].
    split.
    + intros sid c H. destruct (decide (Stabilizer.id stream = sid)) as [<- | Hne].
      * rewrite lookup_insert_eq in H. injection H as <-. lia.
      * rewrite lookup_insert_ne in H by exact Hne. apply Hp in H. lia.
    + intros c H.
      destruct (Stabilizer.pendingValidations v !! Stabilizer.id stream) as [c0 |] eqn:E0.
      * apply elem_of_union in H as [H | H].
        -- apply elem_of_singleton in H as ->. apply Hp in E0. lia.
        -- apply Ha in H. lia.
      * apply Ha in H. lia.
  - unfold Stabilizer.step, Stabilizer.resume.
    destruct (Stabilizer.calls v !! n) as [c |]; [| split; assumption].
    destruct (Stabilizer.resolved c); [| split; assumption].
    destruct (Stabilizer.returned c); [split; assumption |].
    split; cbn; [| exact Ha]. intros sid c0 H.
    apply lookup_delete_Some in H as (_ & H). now apply Hp in H.
  - unfold Stabilizer.step, Stabilizer.cancelValidation.
    destruct (Stabilizer.pendingValidations v !! sid) as [c |] eqn:E; [| split; assumption].
    split; cbn.
    + intros sid0 c0 H. apply lookup_delete_Some in H as (_ & H). now apply Hp in H.
    + intros c0 H. apply elem_of_union in H as [H | H]; [| now apply Ha].
      apply elem_of_singleton in H as ->. now apply Hp in E.
  - split.
    + intros sid c H. cbn in H. rewrite lookup_empty in H. discriminate.
    + intros c H. apply cancelAllValidations_aborted in H as [H | (sid & H)];
        [now apply Ha | now apply Hp in H].
Qed.

Lemma run_fresh es : controllers_fresh (Stabilizer.run Stabilizer.initial es).
Proof.
  induction es as [| e es IH] using rev_ind.
  - split; [intros sid c H; cbn in H; rewrite lookup_empty in H; discriminate |].
    intros c H. cbn in H. now apply not_elem_of_empty in H.
  - rewrite run_snoc. now apply step_fresh.
Qed.

(** X20: a superseded call takes the newer call's map entry with it.  Every
    call of [validateStreamStability] ends with
    [pendingValidations.delete(streamId)], whoever owns the entry.  So when a
    stream is validated twice and the first, superseded call times out and
    returns, the entry of the second call is gone although that call is
    still running: [cancelValidation] for the stream does nothing,
    [cancelAllValidations] does not abort it, and a third validation of the
    stream does not abort it either. *)
Theorem superseded_call_forgets_newer_validation es stream options t1 t2 t3 t4 :
  shortCircuit stream (default true (Stabilizer.validateAudio options)) = None ->
  let v0 := Stabilizer.run Stabilizer.initial es in
  let first := length (Stabilizer.calls v0) in
  let v := Stabilizer.run v0
             [Stabilizer.Validate t1 stream options; Stabilizer.Validate t2 stream options;
              Stabilizer.Timeout first t3; Stabilizer.Resume first] in
  Stabilizer.pendingValidations v !! Stabilizer.id stream = None /\
  Stabilizer.cancelValidation (Stabilizer.id stream) v = v /\
  exists newer s,
    Stabilizer.calls v !! S first = Some newer /\
    Stabilizer.streamId newer = Stabilizer.id stream /\
    Stabilizer.resolved newer = None /\
    Stabilizer.sink newer = Some s /\ Stabilizer.attached s = true /\
    Stabilizer.isAborted v newer = false /\
    Stabilizer.isAborted (Stabilizer.cancelAllValidations v) newer = false /\
    Stabilizer.isAborted (Stabilizer.validateStreamStability t4 stream options v) newer = false.
Proof.
  intros Hok v0 first v.
  destruct (run_fresh es) as (Hp & Ha). fold v0 in Hp, Ha.
  set (minStable := default 5 (Stabilizer.minStableFrames options)).
  set (timeout := default 3000 (Stabilizer.timeoutMs options)).
  set (sid := Stabilizer.id stream).
  set (c1 := Stabilizer.nextController v0) in *.
  set (s1 := {| Stabilizer.startTime := t1; Stabilizer.frames := 0;
                Stabilizer.lastFrameTime := 0; Stabilizer.needed := minStable;
                Stabilizer.timeoutAfter := timeout; Stabilizer.attached := true |}).
  set (s2 := {| Stabilizer.startTime := t2; Stabilizer.frames := 0;
                Stabilizer.lastFrameTime := 0; Stabilizer.needed := minStable;
                Stabilizer.timeoutAfter := timeout; Stabilizer.attached := true |}).
  set (call1 := Stabilizer.Build_Call sid c1 (Some s1) None false).
  set (call2 := Stabilizer.Build_Call sid (S c1) (Some s2) None false).
  set (v1 := Stabilizer.validateStreamStability t1 stream options v0).
  set (v2 := Stabilizer.validateStreamStability t2 stream options v1).
  set (v3 := Stabilizer.step v2 (Stabilizer.Timeout first t3)).
  set (v4 := Stabilizer.resume first v3).
  change v with v4. clear v.
  (* the first validation *)
  assert (P1 : Stabilizer.pendingValidations v1 = <[sid := c1]> (Stabilizer.pendingValidations v0))
    by reflexivity.
  assert (A1 : forall x, x ∈ Stabilizer.abortedSignals v1 -> (x < c1)%nat).
  { intros x H. change (Stabilizer.abortedSignals v1)
      with (match Stabilizer.pendingValidations v0 !! sid with
            | Some c => {[c]} ∪ Stabilizer.abortedSignals v0
            | None => Stabilizer.abortedSignals v0
            end) in H.
    destruct (Stabilizer.pendingValidations v0 !! sid) as [c0 |] eqn:E0; [| now apply Ha].
    apply elem_of_union in H as [H | H]; [| now apply Ha].
    apply elem_of_singleton in H as ->. now apply Hp in E0. }
  assert (C1 : Stabilizer.calls v1 = Stabilizer.calls v0 ++ [call1]).
  { subst v1. unfold Stabilizer.validateStreamStability.
    rewrite performValidation_shortCircuit, Hok. reflexivity. }
  assert (N1 : Stabilizer.nextController v1 = S c1) by reflexivity.
  clearbody v1.
  (* the second validation *)
  assert (P2 : Stabilizer.pendingValidations v2 = <[sid := S c1]> (Stabilizer.pendingValidations v0)).
  { change (Stabilizer.pendingValidations v2)
      with (<[sid := Stabilizer.nextController v1]> (Stabilizer.pendingValidations v1)).
    rewrite N1, P1.
    apply insert_insert_eq. }
  assert (A2 : forall x, x ∈ Stabilizer.abortedSignals v2 -> (x <= c1)%nat).
  { intros x H. change (Stabilizer.abortedSignals v2)
      with (match Stabilizer.pendingValidations v1 !! sid with
            | Some c => {[c]} ∪ Stabilizer.abortedSignals v1
            | None => Stabilizer.abortedSignals v1
            end) in H.
    rewrite P1, lookup_insert_eq in H.
    apply elem_of_union in H as [H | H]; [apply elem_of_singleton in H; lia |].
    apply A1 in H. lia. }
  assert (C2 : Stabilizer.calls v2 = Stabilizer.calls v0 ++ [call1; call2]).
  { subst v2. unfold Stabilizer.validateStreamStability.
    rewrite performValidation_shortCircuit, Hok. cbn [Stabilizer.calls].
    rewrite C1, N1, <- app_assoc. reflexivity. }
  clearbody v2. clear P1 A1 C1 N1.
  assert (L1 : Stabilizer.calls v2 !! first = Some call1).
  { rewrite C2, lookup_app_r by (subst first; lia).
    subst first. now rewrite Nat.sub_diag. }
  assert (L2 : Stabilizer.calls v2 !! S first = Some call2).
  { rewrite C2, lookup_app_r by (subst first; lia).
    subst first. replace (S _ - _)%nat with 1%nat by lia. reflexivity. }
  assert (Hlen : (first < length (Stabilizer.calls v2))%nat)
    by (eapply lookup_lt_Some; exact L1).
  (* the superseded call times out *)
  set (timedOut := Stabilizer.onTimeout t3 call1).
  assert (E3 : v3 = {| Stabilizer.pendingValidations := Stabilizer.pendingValidations v2;
                       Stabilizer.abortedSignals := Stabilizer.abortedSignals v2;
                       Stabilizer.nextController := Stabilizer.nextController v2;
                       Stabilizer.calls := <[first := timedOut]> (Stabilizer.calls v2) |}).
  { subst v3. cbn [Stabilizer.step]. unfold Stabilizer.updateCall. now rewrite L1. }
  clearbody v3. subst v3.
  (* and returns *)
  assert (E4 : Stabilizer.pendingValidations v4 = delete sid (Stabilizer.pendingValidations v0) /\
               Stabilizer.abortedSignals v4 = Stabilizer.abortedSignals v2 /\
               Stabilizer.calls v4 !! S first = Some call2).
  { subst v4. unfold Stabilizer.resume. cbn [Stabilizer.calls].
    rewrite list_lookup_insert_eq by exact Hlen.
    subst timedOut call1 s1. cbn.
    rewrite P2, delete_insert_eq. split; [reflexivity |]. split; [reflexivity |].
    rewrite !list_lookup_insert_ne by lia. exact L2. }
  clearbody v4. destruct E4 as (P4 & A4 & L4).
  assert (N4 : Stabilizer.pendingValidations v4 !! sid = None)
    by (rewrite P4; apply lookup_delete_eq).
  assert (F4 : S c1 ∉ Stabilizer.abortedSignals v4).
  { rewrite A4. intros H. apply A2 in H. lia. }
  split; [exact N4 |].
  split; [unfold Stabilizer.cancelValidation; now rewrite N4 |].
  exists call2, s2. split; [exact L4 |]. split; [reflexivity |]. split; [reflexivity |].
  split; [reflexivity |]. split; [reflexivity |].
  split; [| split]; unfold Stabilizer.isAborted; apply bool_decide_eq_false;
    cbn [Stabilizer.controller call2].
  - exact F4.
  - intros H. apply cancelAllValidations_aborted in H as [H | (sid0 & H)]; [now apply F4 |].
    rewrite P4 in H. apply lookup_delete_Some in H as (_ & H).
    apply Hp in H. fold c1 in H. lia.
  - unfold Stabilizer.validateStreamStability. cbn [Stabilizer.abortedSignals].
    fold sid. rewrite N4. exact F4.
Qed.

Lemma superseded_call_forgets_newer_validation_witness :
  shortCircuit Sample.stalled (default true (Stabilizer.validateAudio Sample.quick)) = None /\
  Stabilizer.pendingValidations
    (Stabilizer.run Stabilizer.initial
       [Stabilizer.Validate 0 Sample.stalled Sample.quick;
        Stabilizer.Validate 10 Sample.stalled Sample.quick;
        Stabilizer.Timeout 0 500; Stabilizer.Resume 0]) !! "canvas-stream" = None.
Proof.
  split; [reflexivity |].
  exact (proj1 (superseded_call_forgets_newer_validation [] Sample.stalled Sample.quick
                  0 10 500 600 eq_refl)).
Defined.

(** ** Deliveries of the hook *)

Lemma hook_reachable_budget h :
  hook_reachable h ->
  (length (UseStreamStabilizer.delivered h) + length (UseStreamStabilizer.pendingTimeouts h)
   <= UseStreamStabilizer.validations h)%nat /\
  Forall (eq 1000) (UseStreamStabilizer.pendingTimeouts h).
Proof.
  induction 1 as [| canvas ready captured verdict h _ (IH1 & IH2) | h _ (IH1 & IH2)
                  | h _ IH | h _ IH]; try exact IH.
  - split; [cbn; lia | constructor].
  - unfold UseStreamStabilizer.createStream.
    destruct (negb canvas || UseStreamStabilizer.streamCreatedRef h); [cbn [fst]; now split |].
    destruct verdict as [stable |]; [| cbn; split; [lia | exact IH2]].
    destruct ready, stable; cbn; rewrite ?length_app; cbn;
      (split; [lia | try exact IH2]).
    apply Forall_app. split; [exact IH2 | now constructor].
  - unfold UseStreamStabilizer.timeoutFires.
    destruct (UseStreamStabilizer.pendingTimeouts h) as [| p rest] eqn:Ep;
      [cbn; rewrite Ep; split; [exact IH1 | constructor] |].
    cbn in *. inversion IH2; subst.
    split; [| assumption]. rewrite length_app.
    destruct (UseStreamStabilizer.streamRef h) as [s |];
      [destruct (UseStreamStabilizer.tracksLive s) |]; cbn; lia.
Qed.

(** X21: at most one hand-over per validation.  In every state the hook can
    reach, the streams handed to [onStreamReady] together with the retries
    still pending never outnumber the validations requested, and every
    pending retry is a 1000ms timeout.  While a stream is marked as created,
    [createStream] returns null and changes nothing: no second capture, no
    validation, no hand-over. *)
Theorem hook_hands_over_at_most_once_per_validation canvas onStreamReady captured verdict h :
  hook_reachable h ->
  (length (UseStreamStabilizer.delivered h) + length (UseStreamStabilizer.pendingTimeouts h)
   <= UseStreamStabilizer.validations h)%nat /\
  Forall (eq 1000) (UseStreamStabilizer.pendingTimeouts h) /\
  (UseStreamStabilizer.streamCreatedRef h = true ->
   UseStreamStabilizer.createStream canvas onStreamReady captured verdict h = (h, None)) /\
  UseStreamStabilizer.createStream false onStreamReady captured verdict h = (h, None).
Proof.
  intros Hr. destruct (hook_reachable_budget h Hr) as (H1 & H2).
  split; [exact H1 |]. split; [exact H2 |]. split.
  - intros Hc. unfold UseStreamStabilizer.createStream. rewrite Hc.
    now rewrite orb_true_r.
  - reflexivity.
Qed.

Lemma hook_hands_over_at_most_once_per_validation_witness :
  let h := fst (UseStreamStabilizer.createStream true true Sample.captured (Some false)
                  UseStreamStabilizer.initial) in
  hook_reachable h /\
  (length (UseStreamStabilizer.delivered h) + length (UseStreamStabilizer.pendingTimeouts h)
   <= UseStreamStabilizer.validations h)%nat.
Proof.
  cbv zeta.
  assert (Hr : hook_reachable
                 (fst (UseStreamStabilizer.createStream true true Sample.captured (Some false)
                         UseStreamStabilizer.initial)))
    by (apply hook_createStream, hook_initial).
  split; [exact Hr |].
  exact (proj1 (hook_hands_over_at_most_once_per_validation true true Sample.captured None
                  _ Hr)).
Defined.

(** X22: a stale retry hands the next stream over again.  The retry armed
    for an unstable stream reads the hook's stream ref when it fires.  If the
    stream was stopped in the meantime and a new stream has been created and
    found stable, the new stream is handed to [onStreamReady] at creation
    and a second time when the old retry fires. *)
Theorem stale_retry_hands_new_stream_over_twice old new h :
  UseStreamStabilizer.streamCreatedRef h = false ->
  UseStreamStabilizer.pendingTimeouts h = [] ->
  UseStreamStabilizer.tracksLive new = true ->
  let unstable := fst (UseStreamStabilizer.createStream true true old (Some false) h) in
  let stopped := UseStreamStabilizer.stopStream unstable in
  let recreated := fst (UseStreamStabilizer.createStream true true new (Some true) stopped) in
  let fired := UseStreamStabilizer.timeoutFires recreated in
  UseStreamStabilizer.delivered recreated = UseStreamStabilizer.delivered h ++ [new] /\
  UseStreamStabilizer.pendingTimeouts recreated = [1000] /\
  UseStreamStabilizer.delivered fired = UseStreamStabilizer.delivered h ++ [new; new] /\
  UseStreamStabilizer.pendingTimeouts fired = [] /\
  UseStreamStabilizer.validations fired = S (S (UseStreamStabilizer.validations h)).
Proof.
  intros Hc Hp Hl. destruct new as [i l], h as [r c p d n]. cbn in Hc, Hp, Hl. subst c p l.
  cbn. rewrite <- !app_assoc. repeat split; reflexivity.
Qed.

Lemma stale_retry_hands_new_stream_over_twice_witness :
  let fresh := {| UseStreamStabilizer.sid := 8%nat; UseStreamStabilizer.tracksLive := true |} in
  UseStreamStabilizer.delivered
    (UseStreamStabilizer.timeoutFires
       (fst (UseStreamStabilizer.createStream true true fresh (Some true)
               (UseStreamStabilizer.stopStream
                  (fst (UseStreamStabilizer.createStream true true Sample.captured (Some false)
                          UseStreamStabilizer.initial)))))) = [fresh; fresh].
Proof.
  cbv zeta.
  exact (proj1 (proj2 (proj2
    (stale_retry_hands_new_stream_over_twice Sample.captured
       {| UseStreamStabilizer.sid := 8%nat; UseStreamStabilizer.tracksLive := true |}
       UseStreamStabilizer.initial eq_refl eq_refl eq_refl)))).
Defined.

(** ** What an injection draws *)



(** ** The noise generator *)

Lemma hash_unit mix x y z : (0 <= Noise.hash mix x y z <= 1)%Q.
Proof.
  unfold Noise.hash. change 2147483647 with (Z.ones 31).
  rewrite Z.land_ones by lia.
  pose proof (Z.mod_pos_bound (mix x y z) (2 ^ 31) ltac:(lia)) as Hm.
  set (m := mix x y z mod 2 ^ 31) in *.
  assert (Hd : (0 < inject_Z (Z.ones 31))%Q) by reflexivity.
  split.
  - apply Qle_shift_div_l; [exact Hd |]. rewrite Qmult_0_l.
    change 0%Q with (inject_Z 0). rewrite <- Zle_Qle. lia.
  - apply Qle_shift_div_r; [exact Hd |]. rewrite Qmult_1_l. rewrite <- Zle_Qle.
    change (Z.ones 31) with (2 ^ 31 - 1). lia.
Qed.

Lemma smoothstep_unit (t : Q) : (0 <= t <= 1)%Q -> (0 <= Noise.smoothstep t <= 1)%Q.
Proof.
  intros (H0 & H1). unfold Noise.smoothstep. split.
  - apply Qmult_le_0_compat; [apply Qsquare_nonneg | lra].
  - assert (H : (0 <= (1 - t) * (1 - t) * (1 + 2 * t))%Q)
      by (apply Qmult_le_0_compat; [apply Qsquare_nonneg | lra]).
    assert (E : ((1 - t) * (1 - t) * (1 + 2 * t) == 1 - t * t * (3 - 2 * t))%Q) by ring.
    rewrite E in H. lra.
Qed.

(** A blend of two values of the unit interval stays in it. *)
Lemma blend_unit (a b s : Q) :
  (0 <= a <= 1)%Q -> (0 <= b <= 1)%Q -> (0 <= s <= 1)%Q ->
  (0 <= a * (1 - s) + b * s <= 1)%Q.
Proof.
  intros (A0 & A1) (B0 & B1) (S0 & S1).
  assert (H1 : (0 <= a * (1 - s))%Q) by (apply Qmult_le_0_compat; lra).
  assert (H2 : (0 <= b * s)%Q) by (apply Qmult_le_0_compat; lra).
  assert (H3 : (0 <= (1 - a) * (1 - s))%Q) by (apply Qmult_le_0_compat; lra).
  assert (H4 : (0 <= (1 - b) * s)%Q) by (apply Qmult_le_0_compat; lra).
  assert (E3 : ((1 - a) * (1 - s) == (1 - s) - a * (1 - s))%Q) by ring.
  assert (E4 : ((1 - b) * s == s - b * s)%Q) by ring.
  rewrite E3 in H3. rewrite E4 in H4. split; lra.
Qed.

Lemma frac_unit (x : Q) : (0 <= x - inject_Z (Qfloor x) <= 1)%Q.
Proof.
  pose proof (Qfloor_le x) as H1. pose proof (Qlt_floor x) as H2.
  rewrite inject_Z_plus in H2. change (inject_Z 1) with 1%Q in H2. split; lra.
Qed.

Lemma smoothNoise_unit mix x y z : (0 <= Noise.smoothNoise mix x y z <= 1)%Q.
Proof.
  unfold Noise.smoothNoise. cbv zeta.
  pose proof (smoothstep_unit _ (frac_unit x)) as Sx.
  pose proof (smoothstep_unit _ (frac_unit y)) as Sy.
  pose proof (smoothstep_unit _ (frac_unit z)) as Sz.
  repeat apply blend_unit; try assumption; apply hash_unit.
Qed.

Lemma roundHalfEven_bounds (q : Q) (lo hi : Z) :
  (inject_Z lo <= q <= inject_Z hi)%Q -> lo <= Noise.roundHalfEven q <= hi.
Proof.
  intros (Hlo & Hhi). unfold Noise.roundHalfEven. cbv zeta.
  pose proof (Qfloor_le q) as F1. pose proof (Qlt_floor q) as F2.
  rewrite inject_Z_plus in F2. change (inject_Z 1) with 1%Q in F2.
  assert (Hf : lo <= Qfloor q).
  { rewrite <- (Qfloor_Z lo). now apply Qfloor_resp_le. }
  assert (Hc : Qfloor q <= hi).
  { rewrite <- (Qfloor_Z hi). now apply Qfloor_resp_le. }
  assert (Hup : (0 < q - inject_Z (Qfloor q))%Q -> Qfloor q + 1 <= hi).
  { intros Hpos. destruct (Z.eq_dec (Qfloor q) hi) as [E | N]; [| lia].
    rewrite E in Hpos. lra. }
  destruct (Qltb _ (1 # 2)) eqn:E1; [lia |].
  destruct (Qltb (1 # 2) _) eqn:E2.
  - apply Qltb_lt in E2. split; [lia |]. apply Hup. lra.
  - assert (Hhalf : (1 # 2 <= q - inject_Z (Qfloor q))%Q).
    { destruct (Qlt_le_dec (q - inject_Z (Qfloor q)) (1 # 2)) as [Hl | Hg]; [| exact Hg].
      apply Qltb_lt in Hl. rewrite Hl in E1. discriminate. }
    destruct (Z.even (Qfloor q)); [lia |]. split; [lia |]. apply Hup. lra.
Qed.

(** X24: the noise layer.  [smoothNoise] returns a value between 0 and 1
    whatever its arguments.  [injectNoise] with an intensity between 0 and 1
    therefore stores, at every pixel of the canvas, one grey level in all
    three colour channels, at most [255 * intensity] rounded up, with alpha
    [floor(50 * intensity)], at most 50 of 255 and 0 for an intensity below
    0.02: the pixels the canvas held before play no part in the result.
    Size and context are as before. *)
Theorem injectNoise_writes_faint_grey mix time intensity cv x y :
  (0 <= intensity <= 1)%Q ->
  0 <= x < ComplexityManager.width cv -> 0 <= y < ComplexityManager.height cv ->
  let p := ComplexityManager.pixel (Noise.injectNoise mix time intensity cv) x y in
  (0 <= Noise.smoothNoise mix (inject_Z x * 0.1) (inject_Z y * 0.1) time <= 1)%Q /\
  p = Noise.noisePixel mix time intensity x y /\
  ComplexityManager.green p = ComplexityManager.red p /\
  ComplexityManager.blue p = ComplexityManager.red p /\
  0 <= ComplexityManager.red p <= 255 /\
  (inject_Z (ComplexityManager.red p) <= 255 * intensity + 1)%Q /\
  ComplexityManager.opacity p = Qfloor (intensity * 50) /\
  0 <= ComplexityManager.opacity p <= 50 /\
  ((intensity < 0.02)%Q -> ComplexityManager.opacity p = 0) /\
  ComplexityManager.width (Noise.injectNoise mix time intensity cv) = ComplexityManager.width cv /\
  ComplexityManager.height (Noise.injectNoise mix time intensity cv) = ComplexityManager.height cv.
Proof.
  intros (I0 & I1) Hx Hy p.
  pose proof (smoothNoise_unit mix (inject_Z x * 0.1) (inject_Z y * 0.1) time) as (N0 & N1).
  assert (Ep : p = Noise.noisePixel mix time intensity x y).
  { subst p. unfold Noise.injectNoise. cbn [ComplexityManager.pixel].
    destruct (Z.leb_spec 0 x); [| lia]. destruct (Z.ltb_spec x (ComplexityManager.width cv)); [| lia].
    destruct (Z.leb_spec 0 y); [| lia]. destruct (Z.ltb_spec y (ComplexityManager.height cv)); [| lia].
    reflexivity. }
  split; [split; assumption |]. split; [exact Ep |]. rewrite Ep.
  unfold Noise.noisePixel. cbv zeta.
  cbn [ComplexityManager.red ComplexityManager.green ComplexityManager.blue
       ComplexityManager.opacity].
  set (n := Noise.smoothNoise mix (inject_Z x * 0.1) (inject_Z y * 0.1) time) in *.
  split; [reflexivity |]. split; [reflexivity |].
  assert (Hprod : (0 <= n * intensity <= intensity)%Q).
  { split; [apply Qmult_le_0_compat; assumption |].
    assert (H : (0 <= (1 - n) * intensity)%Q) by (apply Qmult_le_0_compat; lra).
    assert (E : ((1 - n) * intensity == intensity - n * intensity)%Q) by ring.
    rewrite E in H. lra. }
  assert (Hfl : 0 <= Qfloor (intensity * 50) <= 50).
  { split.
    - rewrite <- (Qfloor_Z 0). apply Qfloor_resp_le. change (inject_Z 0) with 0%Q. lra.
    - apply Z.le_trans with (Qfloor 50%Q); [apply Qfloor_resp_le; lra | reflexivity]. }
  assert (Ealpha : Noise.toUint8Clamp (inject_Z (Qfloor (intensity * 50))) =
                   Qfloor (intensity * 50)).
  { unfold Noise.toUint8Clamp.
    pose proof (roundHalfEven_bounds (inject_Z (Qfloor (intensity * 50)))
                  (Qfloor (intensity * 50)) (Qfloor (intensity * 50))
                  (conj (Qle_refl _) (Qle_refl _))) as Hr.
    lia. }
  split; [unfold Noise.toUint8Clamp; lia |]. split.
  - unfold Noise.toUint8Clamp.
    set (q := (n * intensity * 255)%Q).
    assert (Hq : (0 <= q <= 255 * intensity)%Q) by (subst q; split; lra).
    pose proof (Qfloor_le q) as F1.
    assert (Hr : Noise.roundHalfEven q <= Qfloor q + 1).
    { unfold Noise.roundHalfEven. cbv zeta.
      destruct (Qltb _ _); [lia |]. destruct (Qltb _ _); [lia |].
      destruct (Z.even _); lia. }
    assert (Hr0 : 0 <= Noise.roundHalfEven q).
    { apply (roundHalfEven_bounds q 0 255). change (inject_Z 0) with 0%Q.
      change (inject_Z 255) with 255%Q. split; lra. }
    replace (Z.max 0 (Z.min 255 (Noise.roundHalfEven q)))
      with (Z.min 255 (Noise.roundHalfEven q)) by lia.
    apply Qle_trans with (inject_Z (Noise.roundHalfEven q)); [rewrite <- Zle_Qle; lia |].
    apply Qle_trans with (inject_Z (Qfloor q + 1)); [rewrite <- Zle_Qle; exact Hr |].
    rewrite inject_Z_plus. change (inject_Z 1) with 1%Q. lra.
  - rewrite Ealpha. split; [reflexivity |]. split; [exact Hfl |]. split; [| split; reflexivity].
    intros Hsmall.
    assert (H1 : Qfloor (intensity * 50) < 1).
    { apply Z.lt_le_trans with (Qfloor 1); [| reflexivity].
      destruct (Z.lt_ge_cases (Qfloor (intensity * 50)) (Qfloor 1)) as [Hlt | Hge]; [exact Hlt |].
      exfalso. change (Qfloor 1) with 1 in Hge.
      pose proof (Qfloor_le (intensity * 50)) as F.
      assert (Hone : (1 <= inject_Z (Qfloor (intensity * 50)))%Q)
        by (change 1%Q with (inject_Z 1); rewrite <- Zle_Qle; exact Hge).
      lra. }
    lia.
Qed.

Lemma injectNoise_writes_faint_grey_witness :
  ComplexityManager.opacity
    (ComplexityManager.pixel
       (Noise.injectNoise (fun x y z => x + y + z) 0 (3 # 200) (Sample.flat 90)) 10 20) = 0.
Proof.
  assert (Hi : (0 <= 3 # 200 <= 1)%Q) by (split; discriminate).
  assert (Hx : 0 <= 10 < ComplexityManager.width (Sample.flat 90)) by (cbn; lia).
  assert (Hy : 0 <= 20 < ComplexityManager.height (Sample.flat 90)) by (cbn; lia).
  destruct (injectNoise_writes_faint_grey (fun x y z => x + y + z) 0 (3 # 200) (Sample.flat 90)
              10 20 Hi Hx Hy) as (_ & _ & _ & _ & _ & _ & _ & _ & Hz & _).
  apply Hz. reflexivity.
Defined.

(** ** Stopping is not final *)

Lemma held_active w :
  frame_invariant w -> animationId (orch w) <> None -> foregroundActive w = true.
Proof.
  intros (F1 & _) Ha. unfold foregroundActive. rewrite F1.
  destruct (animationId (orch w)); [cbn; now rewrite Pos.eqb_refl | contradiction].
Qed.

Lemma timer_active w :
  timers_invariant w -> backgroundTimer (orch w) <> None -> backgroundActive w = true.
Proof.
  intros (_ & _ & T3 & _) Ht. unfold backgroundActive.
  destruct (backgroundTimer (orch w)) as [h |]; [| contradiction].
  apply existsb_handle. apply (filter_map_subset fst isBackgroundTask). rewrite T3. now left.
Qed.

(** X25: [stop] halts the pumps but leaves the visibility listener in place.
    After [stop] on an initialised orchestrator with its listener installed,
    neither pump is active, while the listener, the background options and
    the registered sources are as before.  So the next visibility change
    starts a pump again: the foreground pump when the page becomes visible,
    the background timer when it becomes hidden. *)
Theorem stop_is_undone_by_visibility_change dom w :
  reachable w -> initialized (orch w) = true -> visibilityHandler (orch w) = true ->
  let stopped := stop w in
  (foregroundActive stopped = false /\ backgroundActive stopped = false) /\
  (visibilityHandler (orch stopped) = true /\
   backgroundOptions (orch stopped) = backgroundOptions (orch w) /\
   currentSource (orch stopped) = currentSource (orch w) /\
   pendingSource (orch stopped) = pendingSource (orch w)) /\
  foregroundActive (visibilityChange dom false stopped) = true /\
  backgroundActive (visibilityChange dom true stopped) = true.
Proof.
  intros Hr Hi Hv stopped.
  assert (Hrs : reachable stopped) by (apply reach_stop; exact Hr).
  destruct (stop_background w) as (Eb & _). fold stopped in Eb.
  unfold background in Eb. injection Eb as Et Eo Eh.
  destruct (stop_frames w (reachable_frame_invariant w Hr)) as (Ea & _). fold stopped in Ea.
  destruct (stop_frames_surface w) as (_ & _ & Ei). fold stopped in Ei.
  assert (Hsrc : currentSource (orch stopped) = currentSource (orch w) /\
                 pendingSource (orch stopped) = pendingSource (orch w)).
  { subst stopped. unfold stop.
    set (w1 := match animationId (orch w) with Some _ => _ | None => _ end).
    destruct (stopBackgroundStreaming_registry w1) as (_ & C & P & _).
    rewrite C, P. subst w1. destruct (animationId (orch w)); split; reflexivity. }
  rewrite Hi in Ei.
  destruct (reachable_surface_invariant stopped Hrs Ei) as (Hcv & Hctx).
  destruct (reachable_pump_invariant stopped Hrs) as (_ & _ & P3).
  rewrite Eh, Hv in P3. specialize (P3 eq_refl).
  split; [split |]; [unfold foregroundActive; now rewrite Ea
                    | unfold backgroundActive; now rewrite Et |].
  split; [rewrite Eh, Eo; destruct Hsrc; auto |].
  split.
  - apply held_active;
      [apply reachable_frame_invariant, reach_visibilityChange; exact Hrs |].
    unfold visibilityChange. cbn [orch]. rewrite Eh, Hv.
    set (w0 := Build_World _ _ _ _ _ _).
    destruct (onVisibilityChange_visible dom w0) as (_ & _ & Ha);
      [exact P3 | reflexivity |]. exact (Ha Hcv Hctx).
  - apply timer_active;
      [apply reachable_timers_invariant, reach_visibilityChange; exact Hrs |].
    unfold visibilityChange. cbn [orch]. rewrite Eh, Hv.
    set (w1 := Build_World _ _ _ _ _ _).
    assert (E : onVisibilityChange dom w1 = startBackgroundStreaming w1).
    { unfold onVisibilityChange. cbn [orch w1 documentHidden].
      destruct (backgroundOptions (orch stopped)); [reflexivity | contradiction]. }
    rewrite E.
    destruct (startBackgroundStreaming_background w1) as (_ & _ & _ & _ & _ & _ & St).
    apply St; [exact Hcv | exact P3].
Qed.

Lemma stop_is_undone_by_visibility_change_witness :
  reachable Sample.camera_live /\
  foregroundActive (stop Sample.camera_live) = false /\
  foregroundActive (visibilityChange Sample.page false (stop Sample.camera_live)) = true.
Proof.
  assert (Hr : reachable Sample.camera_live)
    by (apply reach_animationFrame, reach_setSource, reach_initial).
  assert (Hi : initialized (orch Sample.camera_live) = true) by (vm_compute; reflexivity).
  assert (Hv : visibilityHandler (orch Sample.camera_live) = true) by (vm_compute; reflexivity).
  destruct (stop_is_undone_by_visibility_change Sample.page Sample.camera_live Hr Hi Hv)
    as ((H1 & _) & _ & H3 & _).
  split; [exact Hr |]. split; [exact H1 | exact H3].
Defined.

(** ** Ticks without a fade *)



(** ** Validations of different streams *)

Lemma step_owned v e :
  controllers_fresh v -> pending_owned v -> pending_owned (Stabilizer.step v e).
Proof.
  intros (Fp & Fa) (Hinj & Hna).
  destruct e as [now stream options | n now t | n now | n now | n | sid |].
  - unfold Stabilizer.step, Stabilizer.validateStreamStability, pending_owned.
    cbn [Stabilizer.pendingValidations Stabilizer.abortedSignals].
    set (sid := Stabilizer.id stream). set (c := Stabilizer.nextController v).
    assert (Hnew : forall s x, Stabilizer.pendingValidations v !! s = Some x -> x <> c)
      by (intros s x H; apply Fp in H; fold c in H; lia).
    split.
    + intros s1 s2 x H1 H2.
      destruct (decide (sid = s1)) as [<- | N1], (decide (sid = s2)) as [<- | N2]; auto.
      * rewrite lookup_insert_eq in H1. injection H1 as <-.
        rewrite lookup_insert_ne in H2 by exact N2. now apply Hnew in H2.
      * rewrite lookup_insert_eq in H2. injection H2 as <-.
        rewrite lookup_insert_ne in H1 by exact N1. now apply Hnew in H1.
      * rewrite lookup_insert_ne in H1 by exact N1.
        rewrite lookup_insert_ne in H2 by exact N2. eauto.
    + intros s x H Hab.
      assert (Hx : x ∈ Stabilizer.abortedSignals v \/
                   Stabilizer.pendingValidations v !! sid = Some x).
      { destruct (Stabilizer.pendingValidations v !! sid) as [c0 |]; [| now left].
        apply elem_of_union in Hab as [Hab | Hab]; [| now left].
        apply elem_of_singleton in Hab as ->. now right. }
      destruct (decide (sid = s)) as [<- | N].
      * rewrite lookup_insert_eq in H. injection H as <-.
        destruct Hx as [Hx | Hx]; [apply Fa in Hx; fold c in Hx; lia | now apply Hnew in Hx].
      * rewrite lookup_insert_ne in H by exact N.
        destruct Hx as [Hx | Hx]; [now apply (Hna s x) | apply N; eauto].
  - unfold Stabilizer.step, Stabilizer.updateCall.
    destruct (Stabilizer.calls v !! n); split; assumption.
  - unfold Stabilizer.step, Stabilizer.updateCall.
    destruct (Stabilizer.calls v !! n); split; assumption.
  - unfold Stabilizer.step, Stabilizer.updateCall.
    destruct (Stabilizer.calls v !! n); split; assumption.
  - unfold Stabilizer.step, Stabilizer.resume.
    destruct (Stabilizer.calls v !! n) as [c |]; [| split; assumption].
    destruct (Stabilizer.resolved c) as [r |]; [| split; assumption].
    destruct (Stabilizer.returned c); [split; assumption |].
    split; cbn.
    + intros s1 s2 x H1 H2. apply lookup_delete_Some in H1 as (_ & H1).
      apply lookup_delete_Some in H2 as (_ & H2). eauto.
    + intros s0 x H. apply lookup_delete_Some in H as (_ & H). eauto.
  - unfold Stabilizer.step, Stabilizer.cancelValidation.
    destruct (Stabilizer.pendingValidations v !! sid) as [c |] eqn:E; [| split; assumption].
    split; cbn.
    + intros s1 s2 x H1 H2. apply lookup_delete_Some in H1 as (_ & H1).
      apply lookup_delete_Some in H2 as (_ & H2). eauto.
    + intros s x H Hab. apply lookup_delete_Some in H as (N & H).
      apply elem_of_union in Hab as [Hab | Hab]; [| now apply (Hna s x)].
      apply elem_of_singleton in Hab as ->. apply N. eauto.
  - split; intros; cbn in *;
      match goal with H : ∅ !! _ = Some _ |- _ => rewrite lookup_empty in H; discriminate H end.
Qed.

Lemma run_owned es : pending_owned (Stabilizer.run Stabilizer.initial es).
Proof.
  induction es as [| e es IH] using rev_ind.
  - split; intros; cbn in *;
      match goal with H : ∅ !! _ = Some _ |- _ => rewrite lookup_empty in H; discriminate H end.
  - rewrite run_snoc. apply step_owned; [apply run_fresh | exact IH].
Qed.

(** X27: validations of different streams do not disturb each other.  After
    any sequence of events, a controller registered for a stream has not been
    aborted; validating another stream, or cancelling another stream's
    validation, leaves it registered and not aborted. *)
Theorem other_streams_validation_untouched es now stream options other c :
  let v := Stabilizer.run Stabilizer.initial es in
  Stabilizer.pendingValidations v !! other = Some c -> other <> Stabilizer.id stream ->
  (c ∉ Stabilizer.abortedSignals v) /\
  (let v' := Stabilizer.validateStreamStability now stream options v in
   Stabilizer.pendingValidations v' !! other = Some c /\ (c ∉ Stabilizer.abortedSignals v')) /\
  (let v' := Stabilizer.cancelValidation (Stabilizer.id stream) v in
   Stabilizer.pendingValidations v' !! other = Some c /\ (c ∉ Stabilizer.abortedSignals v')).
Proof.
  intros v Hc Hne.
  pose proof (run_owned es) as Ho. pose proof (run_fresh es) as Hf. fold v in Ho, Hf.
  destruct Ho as (_ & Hna).
  split; [now apply (Hna other) |]. split.
  - destruct (step_owned v (Stabilizer.Validate now stream options) Hf (run_owned es))
      as (_ & Hna').
    cbv zeta. cbn [Stabilizer.step] in Hna'.
    assert (E : Stabilizer.pendingValidations
                  (Stabilizer.validateStreamStability now stream options v) !! other = Some c).
    { unfold Stabilizer.validateStreamStability. cbn [Stabilizer.pendingValidations].
      rewrite lookup_insert_ne by congruence. exact Hc. }
    split; [exact E | now apply (Hna' other)].
  - destruct (step_owned v (Stabilizer.CancelValidation (Stabilizer.id stream)) Hf (run_owned es))
      as (_ & Hna').
    cbv zeta. cbn [Stabilizer.step] in Hna'.
    assert (E : Stabilizer.pendingValidations
                  (Stabilizer.cancelValidation (Stabilizer.id stream) v) !! other = Some c).
    { unfold Stabilizer.cancelValidation.
      destruct (Stabilizer.pendingValidations v !! Stabilizer.id stream); [| exact Hc].
      cbn [Stabilizer.pendingValidations]. rewrite lookup_delete_ne by congruence. exact Hc. }
    split; [exact E | now apply (Hna' other)].
Qed.

Lemma other_streams_validation_untouched_witness :
  let other :=
    {| Stabilizer.id := "screen-stream"; Stabilizer.active := true;
       Stabilizer.videoTracks := [Stabilizer.live]; Stabilizer.audioTracks := [] |} in
  let v := Stabilizer.run Stabilizer.initial [Stabilizer.Validate 0 Sample.stalled Sample.quick] in
  Stabilizer.pendingValidations v !! "canvas-stream" = Some 0%nat /\
  (0%nat ∉ Stabilizer.abortedSignals (Stabilizer.validateStreamStability 5 other Sample.quick v)).
Proof.
  cbv zeta. split; [reflexivity |].
  refine (proj2 (proj1 (proj2
    (other_streams_validation_untouched [Stabilizer.Validate 0 Sample.stalled Sample.quick] 5
       {| Stabilizer.id := "screen-stream"; Stabilizer.active := true;
          Stabilizer.videoTracks := [Stabilizer.live]; Stabilizer.audioTracks := [] |}
       Sample.quick "canvas-stream" 0%nat _ _)))).
  - reflexivity.
  - discriminate.
Defined.
